(** * Sliver: the client-listener job of the server console, and the
      default host process of the macro commands.

    Shallow embedding of
      - [server/console/console-players.go]: [startMultiplayerModeCmd] and
        [jobStartClientListener] with the goroutine that supervises the
        listener;
      - package [macros]: [defaultHostProc] and [getDefaultProcess].

    The Go code threads a process-wide state (the job registry, the event
    broker, the transport) through its calls and starts one goroutine per
    listener.  The state is made explicit as a record [World]; sequential
    code runs in a state monad over it; a goroutine is the list of the
    instructions it still has to run, and the scheduler is a step relation
    that interleaves the goroutines with the operator's commands. *)

From Stdlib Require Import Sorted.
From stdpp Require Import gmap strings list fin_maps relations.

Local Open Scope Z_scope.

(** ** Characters that Go writes with escapes *)

Definition esc : string := String (Ascii.ascii_of_nat 27) EmptyString.
Definition nl : string := String (Ascii.ascii_of_nat 10) EmptyString.

(** * Package console *)
Module Console.

(** ANSI colours, and the four prefixes built from them. *)
Definition normal : string := esc +:+ "[0m".
Definition red : string := esc +:+ "[31m".
Definition green : string := esc +:+ "[32m".
Definition purple : string := esc +:+ "[35m".
Definition cyan : string := esc +:+ "[36m".
Definition bold : string := esc +:+ "[1m".

Definition Info : string := bold +:+ cyan +:+ "[*] " +:+ normal.
Definition Warn : string := bold +:+ red +:+ "[!] " +:+ normal.
Definition Debug : string := bold +:+ purple +:+ "[-] " +:+ normal.
Definition Woot : string := bold +:+ green +:+ "[$] " +:+ normal.

(** A Go [error] value is represented by its message; [nil] is [None]. *)
Definition error : Type := string.

(** A channel is identified by its rank among the channels made so far. *)
Definition Chan : Type := nat.

(** [core.Job], with the fields the listener fills in.  The Go code shares
    one pointer to the job between the registry, the goroutine and the
    event; no field is written after construction, so the value stands for
    the pointer. *)
Record Job : Type := mkJob {
  ID : Z;
  Name : string;
  Description : string;
  Protocol : string;
  Port : Z;
  JobCtrl : Chan
}.

(** Modelled from the spec: the event kinds of [consts] (the constants
    package is not part of the sources at hand); the spec lists a closed
    set of kinds, of which the listener uses the job-stopped one. *)
Inductive EventKind : Type :=
| StartedEvent
| StoppedEvent
| ConnectedEvent
| DisconnectedEvent
| BeaconRegisteredEvent
| JoinedEvent
| CanceledEvent.

(** [core.Event] as the listener builds it: the job it concerns and its
    kind. *)
Record Event : Type := mkEvent {
  EventJob : Job;
  EventType : EventKind
}.

#[global] Instance Job_eq_dec : EqDecision Job.
Proof. solve_decision. Defined.
#[global] Instance EventKind_eq_dec : EqDecision EventKind.
Proof. solve_decision. Defined.
#[global] Instance Event_eq_dec : EqDecision Event.
Proof. solve_decision. Defined.

(** The transport collaborator, opaque to this code: binding a listener
    on an interface and a port either yields a handle or an error, and a
    handle can be closed. *)
Class Transport : Type := {
  tstate : Type;
  Listener : Type;
  StartClientListener : string → Z → tstate → (Listener + error) * tstate;
  Close : Listener → tstate → tstate
}.

(** [uint16(v)] of a Go [int]: the low sixteen bits. *)
Definition uint16 (v : Z) : Z := Z.land v (Z.ones 16).

(** [ctx.Flags] of a grumble command: the flags by name; an absent flag
    reads as the zero value of its type. *)
Record Context : Type := mkContext {
  FlagStrings : gmap string string;
  FlagInts : gmap string Z
}.

Definition Flags_String (ctx : Context) (name : string) : string :=
  default EmptyString (FlagStrings ctx !! name).
Definition Flags_Int (ctx : Context) (name : string) : Z :=
  default 0 (FlagInts ctx !! name).

Section WithTransport.
Context {T : Transport}.

(** What a goroutine started by [jobStartClientListener] has left to do. *)
Inductive Instr : Type :=
| IRecv (ch : Chan)            (* <-job.JobCtrl *)
| ILogStopping (id : Z)        (* log.Printf("Stopping client listener (%d) ...\n", job.ID) *)
| IClose (ln : Listener)       (* ln.Close() *)
| IRemoveJob (job : Job)       (* core.Jobs.RemoveJob(job) *)
| IPublish (ev : Event).       (* core.EventBroker.Publish(ev) *)

(** The calls observed, in the order they happen.  Those of a goroutine
    carry its rank [g] among the goroutines started. *)
Inductive Action : Type :=
| ABind (bindIface : string) (port : Z)
| AGetJobID (id : Z)
| AMakeChan (ch : Chan)
| AGo (g : nat)
| AAddJob (job : Job)
| ASend (ch : Chan)
| APrintf (msg : string)
| ARecv (g : nat) (ch : Chan)
| ALogStopping (g : nat) (id : Z)
| AClose (g : nat) (ln : Listener)
| ARemoveJob (g : nat) (job : Job)
| APublish (g : nat) (ev : Event).

Record World : Type := mkWorld {
  net : tstate;                      (* the transport collaborator *)
  jobID : Z;                         (* the counter behind core.GetJobID *)
  Active : gmap Z Job;               (* core.Jobs *)
  panicked : bool;                   (* a fatal invariant violation happened *)
  published : list Event;            (* given to core.EventBroker.Publish, oldest first *)
  chans : nat;                       (* channels made so far *)
  sends : list Chan;                 (* sends waiting for their receiver *)
  goroutines : list (list Instr);    (* the goroutines, by rank *)
  trace : list Action                (* oldest first *)
}.

Definition set_net (t : tstate) (w : World) : World :=
  mkWorld t (jobID w) (Active w) (panicked w) (published w) (chans w)
          (sends w) (goroutines w) (trace w).
Definition set_jobID (n : Z) (w : World) : World :=
  mkWorld (net w) n (Active w) (panicked w) (published w) (chans w)
          (sends w) (goroutines w) (trace w).
Definition set_Active (m : gmap Z Job) (w : World) : World :=
  mkWorld (net w) (jobID w) m (panicked w) (published w) (chans w)
          (sends w) (goroutines w) (trace w).
Definition set_panicked (b : bool) (w : World) : World :=
  mkWorld (net w) (jobID w) (Active w) b (published w) (chans w)
          (sends w) (goroutines w) (trace w).
Definition set_published (l : list Event) (w : World) : World :=
  mkWorld (net w) (jobID w) (Active w) (panicked w) l (chans w)
          (sends w) (goroutines w) (trace w).
Definition set_chans (n : nat) (w : World) : World :=
  mkWorld (net w) (jobID w) (Active w) (panicked w) (published w) n
          (sends w) (goroutines w) (trace w).
Definition set_sends (l : list Chan) (w : World) : World :=
  mkWorld (net w) (jobID w) (Active w) (panicked w) (published w) (chans w)
          l (goroutines w) (trace w).
Definition set_goroutines (l : list (list Instr)) (w : World) : World :=
  mkWorld (net w) (jobID w) (Active w) (panicked w) (published w) (chans w)
          (sends w) l (trace w).
Definition observe (a : Action) (w : World) : World :=
  mkWorld (net w) (jobID w) (Active w) (panicked w) (published w) (chans w)
          (sends w) (goroutines w) (trace w ++ [a]).

(** The server as it starts: nothing registered, nothing published. *)
Definition init (t : tstate) : World :=
  mkWorld t 0 ∅ false [] 0%nat [] [] [].

(** ** Sequential code: a state monad over the world *)

Definition M (A : Type) : Type := World → A * World.

#[global] Instance M_ret : MRet M := λ A a w, (a, w).
#[global] Instance M_bind : MBind M :=
  λ A B f m w, let '(a, w') := m w in f a w'.

Definition modify (f : World → World) : M unit := λ w, (tt, f w).

(** ** The collaborators *)

(** [transport.StartClientListener(bindIface, port)]. *)
Definition transport_StartClientListener (bindIface : string) (port : Z)
  : M (Listener + error) :=
  λ w, let '(r, t) := StartClientListener bindIface port (net w) in
       (r, observe (ABind bindIface port) (set_net t w)).

(** Modelled from the spec: [core.GetJobID], the identifier allocator of
    package core, which is not part of the sources at hand.  The spec has
    it return a strictly increasing integer on every call, starting from
    1, each call being atomic. *)
Definition GetJobID : M Z :=
  λ w, let id := jobID w + 1 in (id, observe (AGetJobID id) (set_jobID id w)).

(** [make(chan bool)]: a channel nobody else holds. *)
Definition make_chan : M Chan :=
  λ w, let ch := chans w in (ch, observe (AMakeChan ch) (set_chans (S ch) w)).

(** [go func() { ... }()]: the goroutine gets the next rank. *)
Definition go (body : list Instr) : M unit :=
  λ w, (tt, observe (AGo (length (goroutines w)))
                    (set_goroutines (goroutines w ++ [body]) w)).

(** Modelled from the spec: [core.Jobs.AddJob], the registry's add, which
    is not part of the sources at hand.  The spec has it insert the job
    under its identifier, a duplicate identifier being a fatal invariant
    violation. *)
Definition Jobs_AddJob (job : Job) : M unit :=
  λ w, match Active w !! ID job with
       | Some _ => (tt, observe (AAddJob job) (set_panicked true w))
       | None => (tt, observe (AAddJob job)
                              (set_Active (<[ID job := job]> (Active w)) w))
       end.

(** Modelled from the spec: [core.Jobs.RemoveJob], the registry's remove,
    which is not part of the sources at hand.  The spec has it delete the
    entry if present and do nothing otherwise. *)
Definition Jobs_RemoveJob (job : Job) (w : World) : World :=
  set_Active (delete (ID job) (Active w)) w.

(** Modelled from the spec: [core.EventBroker.Publish], the broker's
    publish, which is not part of the sources at hand.  The spec has it
    relay the event without ever blocking; what is kept of it here is the
    sequence of the events it was given. *)
Definition EventBroker_Publish (ev : Event) (w : World) : World :=
  set_published (published w ++ [ev]) w.

(** [fmt.Printf] on the console. *)
Definition Printf (msg : string) : M unit := modify (observe (APrintf msg)).

(** ** console-players.go *)

(** The body of the goroutine of [jobStartClientListener], which captures
    [job] and [ln]. *)
Definition supervisor (job : Job) (ln : Listener) : list Instr :=
  [ IRecv (JobCtrl job);
    ILogStopping (ID job);
    IClose ln;
    IRemoveJob job;
    IPublish {| EventJob := job; EventType := StoppedEvent |} ].

Definition jobStartClientListener (bindIface : string) (port : Z)
  : M (Z * option error) :=
  r ← transport_StartClientListener bindIface port;
  match r with
  | inr err => mret (-1, Some err)
  | inl ln =>
      id ← GetJobID;
      ch ← make_chan;
      let job := {| ID := id;
                    Name := "rpc";
                    Description := "client listener";
                    Protocol := "tcp";
                    Port := port;
                    JobCtrl := ch |} in
      _ ← go (supervisor job ln);
      _ ← Jobs_AddJob job;
      mret (ID job, None)
  end.

Definition startMultiplayerModeCmd (ctx : Context) : M unit :=
  let server := Flags_String ctx "server" in
  let lport := uint16 (Flags_Int ctx "lport") in
  r ← jobStartClientListener server lport;
  match r.2 with
  | None => Printf (Info +:+ "Multiplayer mode enabled!" +:+ nl)
  | Some err => Printf (Warn +:+ "Failed to start job " +:+ err +:+ nl)
  end.

(** ** The goroutines *)

Fixpoint remove_first (ch : Chan) (l : list Chan) : list Chan :=
  match l with
  | [] => []
  | c :: l' => if decide (c = ch) then l' else c :: remove_first ch l'
  end.

(** One instruction of goroutine [g].  A receive waits ([None]) until a
    send on its channel is there to take; nothing else waits. *)
Definition exec_instr (g : nat) (i : Instr) (w : World) : option World :=
  match i with
  | IRecv ch =>
      if decide (ch ∈ sends w)
      then Some (observe (ARecv g ch) (set_sends (remove_first ch (sends w)) w))
      else None
  | ILogStopping id => Some (observe (ALogStopping g id) w)
  | IClose ln => Some (observe (AClose g ln) (set_net (Close ln (net w)) w))
  | IRemoveJob job => Some (observe (ARemoveJob g job) (Jobs_RemoveJob job w))
  | IPublish ev => Some (observe (APublish g ev) (EventBroker_Publish ev w))
  end.

(** The scheduler lets goroutine [g] run its next instruction. *)
Definition run_goroutine (g : nat) (w : World) : option World :=
  match goroutines w !! g with
  | Some (i :: rest) =>
      match exec_instr g i w with
      | Some w' => Some (set_goroutines (<[g := rest]> (goroutines w')) w')
      | None => None
      end
  | _ => None
  end.

(** [n] instructions of goroutine [g] in a row. *)
Fixpoint run_goroutine_n (n : nat) (g : nat) (w : World) : option World :=
  match n with
  | O => Some w
  | S n' =>
      match run_goroutine g w with
      | Some w' => run_goroutine_n n' g w'
      | None => None
      end
  end.

(** ** Stopping a job *)

Definition ErrNotFound : error := "not-found".

(** Modelled from the spec: [StopJob], which is not part of the sources at
    hand.  The spec has it fail with not-found if the identifier is
    absent and otherwise signal the job's stop channel once. *)
Definition StopJob (id : Z) : M (option error) :=
  λ w, match Active w !! id with
       | None => (Some ErrNotFound, w)
       | Some job =>
           (None, observe (ASend (JobCtrl job))
                          (set_sends (sends w ++ [JobCtrl job]) w))
       end.

(** ** The running server *)

(** The operator's commands and the goroutines interleave in any order.
    A command runs as one step: the goroutine it starts waits on a channel
    that nothing can send on before the job is in the registry, so nothing
    of that goroutine can fall between the [go] and the return.  A server
    that has panicked does nothing more. *)
Inductive step : World → World → Prop :=
| step_listen bindIface port w :
    panicked w = false →
    step w (jobStartClientListener bindIface port w).2
| step_cmd ctx w :
    panicked w = false →
    step w (startMultiplayerModeCmd ctx w).2
| step_stop id w :
    panicked w = false →
    step w (StopJob id w).2
| step_goroutine g w w' :
    panicked w = false →
    run_goroutine g w = Some w' →
    step w w'.

Definition reachable (w : World) : Prop := ∃ t, rtc step (init t) w.

(** ** Reading the trace *)

(** The goroutine that performed an action, if one did. *)
Definition actor (a : Action) : option nat :=
  match a with
  | ARecv g _ | ALogStopping g _ | AClose g _ | ARemoveJob g _
  | APublish g _ => Some g
  | _ => None
  end.

Definition by_goroutine (g : nat) (tr : list Action) : list Action :=
  filter (λ a, actor a = Some g) tr.

Definition published_in (tr : list Action) : list Event :=
  omap (λ a, match a with APublish _ ev => Some ev | _ => None end) tr.

Definition printed (tr : list Action) : list string :=
  omap (λ a, match a with APrintf msg => Some msg | _ => None end) tr.

Definition allocated (tr : list Action) : list Z :=
  omap (λ a, match a with AGetJobID id => Some id | _ => None end) tr.

Definition stopped (job : Job) : Event :=
  {| EventJob := job; EventType := StoppedEvent |}.

(** What goroutine [g], supervising [job] on [ln], does from the stop
    signal on. *)
Definition shutdown (g : nat) (job : Job) (ln : Listener) : list Action :=
  [ ARecv g (JobCtrl job);
    ALogStopping g (ID job);
    AClose g ln;
    ARemoveJob g job;
    APublish g (stopped job) ].

(** The job that [jobStartClientListener] builds from the identifier,
    the port and the channel. *)
Definition listener_job (id port : Z) (ch : Chan) : Job :=
  {| ID := id;
     Name := "rpc";
     Description := "client listener";
     Protocol := "tcp";
     Port := port;
     JobCtrl := ch |}.

(** ** The invariant of the running server

    Goroutine [g] supervises the job of identifier [g + 1] on channel [g];
    it has run the first [p] of its five instructions, its part of the
    trace is the first [p] actions of [shutdown], and its job is in the
    registry until the fourth instruction has removed it. *)
Record goroutine_at (w : World) (g : nat) (job : Job) (ln : Listener)
       (p : nat) : Prop := {
  at_pc : (p ≤ 5)%nat;
  at_ID : ID job = Z.of_nat g + 1;
  at_JobCtrl : JobCtrl job = g;
  at_prog : goroutines w !! g = Some (drop p (supervisor job ln));
  at_trace : by_goroutine g (trace w) = take p (shutdown g job ln);
  at_Active :
    Active w !! ID job = if decide (p ≤ 3)%nat then Some job else None
}.

Record Inv (w : World) : Prop := {
  inv_alive : panicked w = false;
  inv_jobID : jobID w = Z.of_nat (length (goroutines w));
  inv_chans : chans w = length (goroutines w);
  inv_goroutines :
    ∀ g, (g < length (goroutines w))%nat →
         ∃ job ln p, goroutine_at w g job ln p;
  inv_unborn :
    ∀ g, (length (goroutines w) ≤ g)%nat → by_goroutine g (trace w) = [];
  inv_Active : ∀ k job, Active w !! k = Some job → 1 ≤ k ≤ jobID w;
  inv_published : published w = published_in (trace w);
  inv_allocated : allocated (trace w) = seqZ 1 (jobID w);
  inv_sends : ∀ ch, ch ∈ sends w → (ch < chans w)%nat
}.

(** The statement that the job is registered before its goroutine is
    started, read on a trace. *)
Definition registered_before_started (tr : list Action) : Prop :=
  ∃ i j job g,
    tr !! i = Some (AAddJob job) ∧ tr !! j = Some (AGo g) ∧ (i < j)%nat.

End WithTransport.

(** ** A transport to run the code on

    It keeps the ports that are bound; binding a bound port fails, and a
    listener is known by its port. *)
Definition port_in_use : error := "bind: address already in use".

Definition PortTable : Transport := {|
  tstate := list Z;
  Listener := Z;
  StartClientListener := λ _ port bound,
    if decide (port ∈ bound) then (inr port_in_use, bound)
    else (inl port, port :: bound);
  Close := λ port bound, filter (λ q, q ≠ port) bound
|}.

(** A server on that transport: the operator starts the listener on port
    9000, stops job 1, and the goroutine runs to its end. *)
Definition ctx9000 : Context :=
  mkContext {[ "server" := "0.0.0.0" ]} {[ "lport" := 9000 ]}.

Definition w_started : @World PortTable :=
  (startMultiplayerModeCmd ctx9000 (@init PortTable [])).2.

Definition w_stopping : @World PortTable := (StopJob 1 w_started).2.


(** The same command with a flag that does not fit sixteen bits. *)
Definition ctx74536 : Context :=
  mkContext {[ "server" := "0.0.0.0" ]} {[ "lport" := 74536 ]}.

(** A server whose port 9000 is taken when it starts. *)
Definition w_busy : @World PortTable := @init PortTable [9000].

(** ** [newPlayerCmd] *)

(** [ClientConfig], the client JSON config. *)
Record ClientConfig : Type := mkClientConfig {
  Operator : string;
  LHost : string;
  LPort : Z;
  CACertificate : string;
  PrivateKey : string;
  Certificate : string
}.

(** The bytes that the class [A-Za-z0-9] holds. *)
Definition alphanumeric (a : Ascii.ascii) : bool :=
  let n := Ascii.nat_of_ascii a in
  ((48 <=? n) && (n <=? 57) || (65 <=? n) && (n <=? 90)
   || (97 <=? n) && (n <=? 122))%nat.

(** [regex.ReplaceAllString(operator, "")] for the expression
    [[^A-Za-z0-9]+]: every run of bytes outside the class is replaced by
    nothing. *)
Fixpoint ReplaceAllString_nonalnum (src : string) : string :=
  match src with
  | EmptyString => EmptyString
  | String a rest =>
      if alphanumeric a then String a (ReplaceAllString_nonalnum rest)
      else ReplaceAllString_nonalnum rest
  end.

(** What [newPlayerCmd] asks of the machine it runs on: the working
    directory, the packages assets and certs, the JSON encoder, the paths
    and the files.  A call that only reads is a function; the calls that
    write are observed. *)
Class Host : Type := {
  os_Getwd : string;
  assets_GetRootAppDir : string;
  ClientsCertDir : string;
  certs_GenerateClientCertificate : string → string → bool → string * string;
  certs_GetCertificateAuthorityPEM : string → string → string;
  json_Marshal : ClientConfig → string;
  filepath_Abs : string → string;
  filepath_Base : string → string;
  filepath_Join : string → string → string;
  os_Stat : string → bool + error;
  ioutil_WriteFile : string → string → Z → option error
}.

Inductive PlayerAction : Type :=
| PPrintf (msg : string)
| PGenerateClientCertificate (rootDir operator : string) (save : bool)
| PWriteFile (filename data : string) (perm : Z).

Section WithHost.
Context {H : Host}.

Definition newPlayerCmd (ctx : Context) : list PlayerAction :=
  let operator := Flags_String ctx "operator" in
  let lhost := Flags_String ctx "lhost" in
  let lport := Flags_Int ctx "lport" in
  let save := Flags_String ctx "save" in
  let operator := ReplaceAllString_nonalnum operator in
  if decide (operator = EmptyString) then
    [PPrintf (Warn +:+ "Operator name required (--operator) " +:+ nl)]
  else if decide (lhost = EmptyString) then
    [PPrintf (Warn +:+ "Missing lhost (--lhost) " +:+ nl)]
  else
    let save := if decide (save = EmptyString) then os_Getwd else save in
    let done :=
      [PPrintf (Info +:+ "Generating new client certificate, please wait ... "
                +:+ nl)] in
    let rootDir := assets_GetRootAppDir in
    let '(publicKey, privateKey) :=
      certs_GenerateClientCertificate rootDir operator true in
    let done := done ++ [PGenerateClientCertificate rootDir operator true] in
    let caCertPEM := certs_GetCertificateAuthorityPEM rootDir ClientsCertDir in
    let config :=
      {| Operator := operator;
         LHost := lhost;
         LPort := lport;
         CACertificate := caCertPEM;
         PrivateKey := privateKey;
         Certificate := publicKey |} in
    let configJSON := json_Marshal config in
    let saveTo := filepath_Abs save in
    match os_Stat saveTo with
    | inr err =>
        done ++ [PPrintf (Warn +:+ "Failed to generate sliver " +:+ err +:+ nl)]
    | inl isDir =>
        let saveTo :=
          if isDir then
            filepath_Join saveTo
              (filepath_Base operator +:+ "_" +:+ filepath_Base lhost
               +:+ ".cfg")
          else saveTo in
        let done := done ++ [PWriteFile saveTo configJSON 420] in
        match ioutil_WriteFile saveTo configJSON 420 with
        | Some err =>
            done ++ [PPrintf (Warn +:+ "Failed to write config to: " +:+ saveTo
                              +:+ " (" +:+ err +:+ ") " +:+ nl)]
        | None =>
            done ++ [PPrintf (Info +:+ "Saved new client config to: "
                              +:+ saveTo +:+ " " +:+ nl)]
        end
    end.

(** [kickPlayerCmd] and [listPlayersCmd] have empty bodies. *)
Definition kickPlayerCmd (ctx : Context) : list PlayerAction := [].
Definition listPlayersCmd (ctx : Context) : list PlayerAction := [].

(** The config that [newPlayerCmd] encodes for an operator, a host and a
    port. *)
Definition player_config (operator lhost : string) (lport : Z)
  : ClientConfig :=
  let rootDir := assets_GetRootAppDir in
  let keys := certs_GenerateClientCertificate rootDir operator true in
  {| Operator := operator;
     LHost := lhost;
     LPort := lport;
     CACertificate := certs_GetCertificateAuthorityPEM rootDir ClientsCertDir;
     PrivateKey := keys.2;
     Certificate := keys.1 |}.

End WithHost.

(** The certificates generated and the files written, in order. *)
Definition generated (actions : list PlayerAction) : list string :=
  omap (λ a, match a with
             | PGenerateClientCertificate _ operator _ => Some operator
             | _ => None
             end) actions.
Definition written (actions : list PlayerAction) : list (string * string) :=
  omap (λ a, match a with
             | PWriteFile filename data _ => Some (filename, data)
             | _ => None
             end) actions.

(** A host for the examples: one directory exists, and the encoder
    writes the operator, the host and the port. *)
Definition sample_host : Host := {|
  os_Getwd := "/home/op";
  assets_GetRootAppDir := "/root/.sliver";
  ClientsCertDir := "clients";
  certs_GenerateClientCertificate := λ _ operator _,
    ("cert of " +:+ operator, "key of " +:+ operator);
  certs_GetCertificateAuthorityPEM := λ _ _, "ca";
  json_Marshal := λ config,
    Operator config +:+ "@" +:+ LHost config +:+ ":"
    +:+ (if decide (LPort config = 9000) then "9000" else "other");
  filepath_Abs := λ path, path;
  filepath_Base := λ path, path;
  filepath_Join := λ dir file, dir +:+ "/" +:+ file;
  os_Stat := λ path,
    if decide (path = "/home/op") then inl true
    else inr ("stat " +:+ path +:+ ": no such file or directory");
  ioutil_WriteFile := λ _ _ _, None
|}.

Definition new_player_ctx : Context :=
  mkContext {[ "operator" := "al-ice!"; "lhost" := "10.0.0.1" ]}
            {[ "lport" := 9000 ]}.

Definition new_player_nowhere_ctx : Context :=
  mkContext {[ "operator" := "bob"; "lhost" := "10.0.0.1";
               "save" := "/missing" ]}
            {[ "lport" := 9000 ]}.

End Console.

(** * Package use *)
Module Use.

(** A beacon as [UseBeaconCmd] reads it; how its identifier prints is
    left to the formatter. *)
Record Beacon : Type := mkBeacon {
  Name : string;
  ID : string
}.

(** The errors of [beacons.SelectBeacon]: the two that the command knows
    by name, and any other with its message. *)
Inductive SelectError : Type :=
| ErrNoBeacons
| ErrNoSelection
| ErrOther (msg : string).

Inductive Out : Type :=
| PrintInfof (msg : string)
| PrintErrorf (msg : string).

(** The console client: the active target, a session or a beacon, and
    what was printed. *)
Record Client (Session : Type) : Type := mkClient {
  activeSession : option Session;
  activeBeacon : option Beacon;
  output : list Out
}.
Arguments mkClient {Session}.
Arguments activeSession {Session}.
Arguments activeBeacon {Session}.
Arguments output {Session}.

Section WithSelection.
Variable Session : Type.
(** [beacons.SelectBeacon(con)], which asks the operator, and the
    formatting of the identifier by the verb of the source. *)
Variable SelectBeacon : Client Session → option Beacon * option SelectError.
Variable format_ID : string → string.

Definition UseBeaconCmd (con : Client Session) : Client Session :=
  let '(beacon, err) := SelectBeacon con in
  match beacon with
  | Some beacon =>
      (* con.ActiveTarget.Set(nil, beacon) *)
      mkClient None (Some beacon)
               (output con
                ++ [PrintInfof ("Active beacon " +:+ Name beacon +:+ " ("
                                +:+ format_ID (ID beacon) +:+ ")" +:+ nl)])
  | None =>
      match err with
      | Some ErrNoBeacons =>
          mkClient (activeSession con) (activeBeacon con)
                   (output con ++ [PrintErrorf ("No beacon available" +:+ nl)])
      | Some ErrNoSelection =>
          mkClient (activeSession con) (activeBeacon con)
                   (output con ++ [PrintErrorf ("No beacon selected" +:+ nl)])
      | Some (ErrOther msg) =>
          mkClient (activeSession con) (activeBeacon con)
                   (output con ++ [PrintErrorf (msg +:+ nl)])
      | None => con
      end
  end.

End WithSelection.

(** A selection for the examples: the operator picks the one beacon there
    is, and the picker reports an error of its own all the same. *)
Definition pick_first : Client unit → option Beacon * option SelectError :=
  λ _, (Some (mkBeacon "ROUND_OWL" "7f3a"), Some (ErrOther "tty closed")).

Definition client_on_session : Client unit := mkClient (Some tt) None [].

End Use.

(** * The grumble shell, as the commands use it *)
Module Grumble.

(** A flag registered on a command, with its default value. *)
Inductive FlagDefault : Type :=
| DString (s : string)
| DBool (b : bool)
| DInt (n : Z).

Record Flag : Type := mkFlag {
  Short : string;
  Long : string;
  Default : FlagDefault;
  FlagHelp : string
}.

(** [grumble.Command], with the fields the loader of macros fills in; the
    [Run] closure is left out. *)
Record Command : Type := mkCommand {
  Name : string;
  Help : string;
  LongHelp : string;
  Flags : list Flag;
  Args : list string;
  HelpGroup : string
}.

(** What a command receives when it runs: its own name, its flags and its
    arguments by name; an absent one reads as the zero value of its
    type. *)
Record Context : Type := mkContext {
  CommandName : string;
  FlagStrings : gmap string string;
  FlagBools : gmap string bool;
  ArgStrings : gmap string string;
  ArgStringLists : gmap string (list string)
}.

Definition Flags_String (ctx : Context) (name : string) : string :=
  default EmptyString (FlagStrings ctx !! name).
Definition Flags_Bool (ctx : Context) (name : string) : bool :=
  default false (FlagBools ctx !! name).
Definition Args_String (ctx : Context) (name : string) : string :=
  default EmptyString (ArgStrings ctx !! name).
Definition Args_StringList (ctx : Context) (name : string) : list string :=
  default [] (ArgStringLists ctx !! name).

End Grumble.

(** * Package strings *)
Module Strings.

(** [strings.Join(elems, sep)]. *)
Fixpoint Join (elems : list string) (sep : string) : string :=
  match elems with
  | [] => EmptyString
  | [x] => x
  | x :: rest => x +:+ sep +:+ Join rest sep
  end.

Definition is_space (a : Ascii.ascii) : bool :=
  Nat.eqb (Ascii.nat_of_ascii a) 32.

Fixpoint TrimLeft_space (s : string) : string :=
  match s with
  | EmptyString => EmptyString
  | String a rest => if is_space a then TrimLeft_space rest else s
  end.

Fixpoint TrimRight_space (s : string) : string :=
  match s with
  | EmptyString => EmptyString
  | String a rest =>
      match TrimRight_space rest with
      | EmptyString => if is_space a then EmptyString
                       else String a EmptyString
      | kept => String a kept
      end
  end.

(** [strings.Trim(s, " ")]: the spaces at both ends are cut. *)
Definition Trim_space (s : string) : string :=
  TrimRight_space (TrimLeft_space s).

End Strings.

(** * The requests of package sliverpb that the macros send; the
      [Request] header, which the console builds from the context, is
      left out *)
Module Sliverpb.

Module ExecuteAssemblyReq.
Record t : Type := mk {
  IsDLL : bool;
  Process : string;
  Arguments : string;
  Assembly : string;
  Arch : string;
  Method : string;
  ClassName : string;
  AppDomain : string
}.
End ExecuteAssemblyReq.

Module InvokeSpawnDllReq.
Record t : Type := mk {
  Args : string;
  Data : string;
  ProcessName : string;
  EntryPoint : string;
  Kill : bool
}.
End InvokeSpawnDllReq.

Module SideloadReq.
Record t : Type := mk {
  Args : string;
  Data : string;
  EntryPoint : string;
  ProcessName : string;
  Kill : bool;
  IsDLL : bool
}.
End SideloadReq.

End Sliverpb.

(** * Package macros *)
Module Macros.

Definition defaultTimeout : Z := 60.

Definition windowsDefaultHostProc : string :=
  "c:\windows\system32\notepad.exe".
Definition linuxDefaultHostProc : string := "/bin/bash".
Definition macosDefaultHostProc : string :=
  "/Applications/Safari.app/Contents/MacOS/SafariForWebKitDevelopment".

(** The map literal of the source: the entry of linux holds the Windows
    constant. *)
Definition defaultHostProc : gmap string string :=
  <["windows" := windowsDefaultHostProc]>
    (<["linux" := windowsDefaultHostProc]>
       (<["darwin" := macosDefaultHostProc]> ∅)).

Record binFiles : Type := mkBinFiles {
  Ext64Path : string;
  Ext32Path : string
}.

Record macroFile : Type := mkMacroFile {
  OS : string;
  Files : binFiles
}.

Record macroCommand : Type := mkMacroCommand {
  Name : string;
  Entrypoint : string;
  Help : string;
  LongHelp : string;
  AllowArgs : bool;
  DefaultArgs : string;
  MacroFiles : list macroFile;
  IsReflective : bool;
  IsAssembly : bool
}.

(** [getDefaultProcess]: the named results [proc] and [err]; a key that
    is absent leaves [proc] at the empty string. *)
Definition getDefaultProcess (ec : macroCommand) (targetOS : string)
  : string * option string :=
  match defaultHostProc !! targetOS with
  | Some proc => (proc, None)
  | None =>
      (EmptyString,
       Some ("no default process for " +:+ targetOS
             +:+ " target, please specify one"))
  end.

(** [macro]; its first two fields are called by their JSON names, the Go
    names being those of [macroCommand] and of the slice type. *)
Record macro : Type := mkMacro {
  macroName : string;
  macroCommands : list macroCommand;
  Path : string
}.

(** What the console client prints. *)
Inductive Out : Type :=
| PrintInfof (msg : string)
| PrintErrorf (msg : string).

(** What the loader works on: the commands of the shell in the order
    they were added, the package variable [commandMap], and the
    console. *)
Record Loader : Type := mkLoader {
  app : list Grumble.Command;
  commandMap : gmap string macro;
  output : list Out
}.

Definition print (o : Out) (st : Loader) : Loader :=
  mkLoader (app st) (commandMap st) (output st ++ [o]).

(** [con.App.AddCommand(cmd)]: the command joins those of the shell,
    which is also the shell [ctx.App] that [cmdExists] looks at.  The
    checks that grumble makes of a command it is given are not part of
    this. *)
Definition AddCommand (cmd : Grumble.Command) (st : Loader) : Loader :=
  mkLoader (app st ++ [cmd]) (commandMap st) (output st).

(** [commandMap[name] = m]. *)
Definition set_commandMap (name : string) (m : macro) (st : Loader) : Loader :=
  mkLoader (app st) (<[name := m]> (commandMap st)) (output st).

(** [cmdExists]: the loop over the commands of the shell. *)
Fixpoint cmdExists (name : string) (cmds : list Grumble.Command) : bool :=
  match cmds with
  | [] => false
  | c :: rest =>
      if decide (name = Grumble.Name c) then true else cmdExists name rest
  end.

(** [getCommandFromName]: the first command of that name, or an error. *)
Fixpoint getCommandFromName_loop (cmds : list macroCommand) (name : string)
  : option macroCommand :=
  match cmds with
  | [] => None
  | x :: rest =>
      if decide (Name x = name) then Some x
      else getCommandFromName_loop rest name
  end.

Definition getCommandFromName (e : macro) (name : string)
  : option macroCommand * option string :=
  match getCommandFromName_loop (macroCommands e) name with
  | Some x => (Some x, None)
  | None => (None, Some ("no macro command found for name " +:+ name))
  end.

Section WithLibraries.
(** The library functions the package calls. *)
Variable filepath_Join : string → string → string.
Variable ioutil_ReadFile : string → string + string.
Variable json_Unmarshal : string → macro * option string.
Variable help_FormatHelpTmpl : string → string.
Variable MacroHelpGroup : string.

(** [getFileForTarget]: both loops run to their end, every match
    assigning [filePath] again. *)
Definition getFileForTarget (e : macro) (cmdName targetOS targetArch : string)
  : string * option string :=
  let filePath :=
    fold_left
      (λ filePath c,
         if decide (cmdName = Name c) then
           fold_left
             (λ filePath ef,
                if decide (targetOS = OS ef) then
                  if decide (targetArch = "x86")
                  then filepath_Join (Path e) (Ext32Path (Files ef))
                  else if decide (targetArch = "x64")
                  then filepath_Join (Path e) (Ext64Path (Files ef))
                  else filepath_Join (Path e) (Ext64Path (Files ef))
                else filePath)
             (MacroFiles c) filePath
         else filePath)
      (macroCommands e) EmptyString in
  if decide (filePath = EmptyString)
  then (filePath,
        Some ("no macro file found for " +:+ targetOS +:+ "/" +:+ targetArch))
  else (filePath, None).

(** The flags that [LoadMacroCmd] gives the command it builds. *)
Definition macroFlags (extCmd : macroCommand) : list Grumble.Flag :=
  (if IsAssembly extCmd then
     [ Grumble.mkFlag "m" "method" (Grumble.DString EmptyString)
         "Optional method (a method is required for a .NET DLL)";
       Grumble.mkFlag "c" "class" (Grumble.DString EmptyString)
         "Optional class name (required for .NET DLL)";
       Grumble.mkFlag "d" "app-domain" (Grumble.DString EmptyString)
         "AppDomain name to create for .NET assembly. Generated randomly if not set.";
       Grumble.mkFlag "a" "arch" (Grumble.DString "x84")
         "Assembly target architecture: x86, x64, x84 (x86+x64)" ]
   else [])
  ++ [ Grumble.mkFlag "p" "process" (Grumble.DString EmptyString)
         "Path to process to host the shared object";
       Grumble.mkFlag "s" "save" (Grumble.DBool false) "Save output to disk";
       Grumble.mkFlag "t" "timeout" (Grumble.DInt defaultTimeout)
         "command timeout in seconds" ].

(** The loop of [LoadMacroCmd] over the commands of the manifest; [false]
    when it returned from the function on a command that exists. *)
Fixpoint LoadMacroCmd_loop (ext : macro) (cmds : list macroCommand)
         (st : Loader) : bool * Loader :=
  match cmds with
  | [] => (true, st)
  | extCmd :: rest =>
      if cmdExists (Name extCmd) (app st) then
        (false,
         print (PrintErrorf (Name extCmd +:+ " command already exists" +:+ nl))
               st)
      else
        let st := print (PrintInfof ("Adding " +:+ Name extCmd +:+ " command: "
                                     +:+ Help extCmd +:+ nl)) st in
        let st := set_commandMap (Name extCmd) ext st in
        let helpMsg := "[" +:+ macroName ext +:+ "] " +:+ Help extCmd in
        let macroCmd :=
          {| Grumble.Name := Name extCmd;
             Grumble.Help := helpMsg;
             Grumble.LongHelp := help_FormatHelpTmpl (LongHelp extCmd);
             Grumble.Flags := macroFlags extCmd;
             Grumble.Args := ["arguments"];
             Grumble.HelpGroup := MacroHelpGroup |} in
        LoadMacroCmd_loop ext rest (AddCommand macroCmd st)
  end.

Definition LoadMacroCmd (ctx : Grumble.Context) (st : Loader) : Loader :=
  let dirPath := Grumble.Args_String ctx "dir-path" in
  let manifestPath := dirPath +:+ "/" +:+ "manifest.json" in
  let '(jsonBytes, st) :=
    match ioutil_ReadFile manifestPath with
    | inl bytes => (bytes, st)
    | inr err => (EmptyString, print (PrintErrorf (err +:+ nl)) st)
    end in
  let '(ext, err) := json_Unmarshal jsonBytes in
  match err with
  | Some err => print (PrintErrorf ("Error loading macro: " +:+ err)) st
  | None =>
      let ext := mkMacro (macroName ext) (macroCommands ext) dirPath in
      let '(finished, st) := LoadMacroCmd_loop ext (macroCommands ext) st in
      if finished
      then print (PrintInfof (macroName ext +:+ " macro has been loaded" +:+ nl))
                 st
      else st
  end.

(** The command that [LoadMacroCmd] builds for [extCmd] of [ext]. *)
Definition built_command (ext : macro) (extCmd : macroCommand)
  : Grumble.Command :=
  {| Grumble.Name := Name extCmd;
     Grumble.Help := "[" +:+ macroName ext +:+ "] " +:+ Help extCmd;
     Grumble.LongHelp := help_FormatHelpTmpl (LongHelp extCmd);
     Grumble.Flags := macroFlags extCmd;
     Grumble.Args := ["arguments"];
     Grumble.HelpGroup := MacroHelpGroup |}.

End WithLibraries.

(** ** [runMacroCommand] *)

(** The session of the active target, as the command reads it. *)
Record Session : Type := mkSession {
  GetOS : string;
  GetArch : string;
  GetHostname : string
}.

(** What [runMacroCommand] asks of the machine and of the server. *)
Class Runner : Type := {
  filepath_Join : string → string → string;
  filepath_Ext : string → string;
  path_Base : string → string;
  ioutil_ReadFile : string → string + string;
  ioutil_TempFile : string → string → string + string;
  Rpc_ExecuteAssembly : Sliverpb.ExecuteAssemblyReq.t → string + string;
  Rpc_SpawnDll : Sliverpb.InvokeSpawnDllReq.t → string + string;
  Rpc_Sideload : Sliverpb.SideloadReq.t → string + string
}.

(** What the command does, in order: what it prints, the spinner it
    starts and stops, the request it sends, what it writes to the output
    file. *)
Inductive RunAction : Type :=
| RPrint (o : Out)
| RSpinUntil (msg : string)
| RSpinStop
| RExecuteAssembly (req : Sliverpb.ExecuteAssemblyReq.t)
| RSpawnDll (req : Sliverpb.InvokeSpawnDllReq.t)
| RSideload (req : Sliverpb.SideloadReq.t)
| RWrite (file data : string).

Section WithRunner.
Context {R : Runner}.

(** The end that the three branches share: the error of the request, or
    its output, printed and saved when there is an output file. *)
Definition report (response : string + string) (outFilePath : option string)
  : list RunAction :=
  match response with
  | inr err => [RPrint (PrintErrorf (err +:+ nl))]
  | inl output =>
      [RPrint (PrintInfof ("Output:" +:+ nl +:+ output))]
      ++ match outFilePath with
         | Some file =>
             [ RWrite file output;
               RPrint (PrintInfof ("Output saved to " +:+ file +:+ nl)) ]
         | None => []
         end
  end.

Definition runMacroCommand (session : option Session) (ctx : Grumble.Context)
           (commandMap : gmap string macro) : list RunAction :=
  match session with
  | None => []
  | Some session =>
  let name := Grumble.CommandName ctx in
  match commandMap !! name with
  | None =>
      [RPrint (PrintErrorf ("No macro command found for `" +:+ name
                            +:+ "` command" +:+ nl))]
  | Some ext =>
  match getFileForTarget filepath_Join ext name (GetOS session)
                         (GetArch session) with
  | (_, Some err) => [RPrint (PrintErrorf (err +:+ nl))]
  | (binPath, None) =>
  match getCommandFromName ext name with
  | (_, Some err) => [RPrint (PrintErrorf (err +:+ nl))]
  | (None, None) => []   (* no command and no error: does not happen *)
  | (Some c, None) =>
  let args := Grumble.Args_StringList ctx "arguments" in
  let extArgs :=
    if decide (length (String.list_ascii_of_string (DefaultArgs c)) ≠ 0%nat
               ∧ length args = 0%nat)
    then DefaultArgs c
    else Strings.Join args " " in
  let entryPoint := Entrypoint c in
  let processName := Grumble.Flags_String ctx "process" in
  match (if decide (processName = EmptyString)
         then getDefaultProcess c (GetOS session)
         else (processName, None)) with
  | (_, Some err) => [RPrint (PrintErrorf (err +:+ nl))]
  | (processName, None) =>
  let isDLL := bool_decide (filepath_Ext binPath = ".dll") in
  match ioutil_ReadFile binPath with
  | inr err => [RPrint (PrintErrorf (err +:+ nl))]
  | inl binData =>
  match (if Grumble.Flags_Bool ctx "save" then
           match ioutil_TempFile EmptyString
                   (path_Base (name +:+ "_" +:+ GetHostname session
                               +:+ "*.log")) with
           | inl file => inl (Some file)
           | inr err => inr err
           end
         else inl None) with
  | inr err => [RPrint (PrintErrorf (err +:+ nl))]
  | inl outFilePath =>
  let msg := "Executing " +:+ name +:+ " " +:+ extArgs +:+ " ..." in
  if IsAssembly c then
    let req :=
      {| Sliverpb.ExecuteAssemblyReq.IsDLL := isDLL;
         Sliverpb.ExecuteAssemblyReq.Process := processName;
         Sliverpb.ExecuteAssemblyReq.Arguments := extArgs;
         Sliverpb.ExecuteAssemblyReq.Assembly := binData;
         Sliverpb.ExecuteAssemblyReq.Arch := Grumble.Flags_String ctx "arch";
         Sliverpb.ExecuteAssemblyReq.Method :=
           Grumble.Flags_String ctx "method";
         Sliverpb.ExecuteAssemblyReq.ClassName :=
           Grumble.Flags_String ctx "class";
         Sliverpb.ExecuteAssemblyReq.AppDomain :=
           Grumble.Flags_String ctx "app-domain" |} in
    [RSpinUntil msg; RExecuteAssembly req; RSpinStop]
    ++ report (Rpc_ExecuteAssembly req) outFilePath
  else if IsReflective c then
    let req :=
      {| Sliverpb.InvokeSpawnDllReq.Args := Strings.Trim_space extArgs;
         Sliverpb.InvokeSpawnDllReq.Data := binData;
         Sliverpb.InvokeSpawnDllReq.ProcessName := processName;
         Sliverpb.InvokeSpawnDllReq.EntryPoint := Entrypoint c;
         Sliverpb.InvokeSpawnDllReq.Kill := true |} in
    [RSpinUntil msg; RSpawnDll req; RSpinStop]
    ++ report (Rpc_SpawnDll req) outFilePath
  else
    let req :=
      {| Sliverpb.SideloadReq.Args := extArgs;
         Sliverpb.SideloadReq.Data := binData;
         Sliverpb.SideloadReq.EntryPoint := entryPoint;
         Sliverpb.SideloadReq.ProcessName := processName;
         Sliverpb.SideloadReq.Kill := true;
         Sliverpb.SideloadReq.IsDLL := isDLL |} in
    [RSpinUntil msg; RSideload req; RSpinStop]
    ++ report (Rpc_Sideload req) outFilePath
  end end end end end end end.

End WithRunner.

(** The requests sent, each as its kind, the process it names and the
    arguments it carries. *)
Inductive RequestKind : Type := KExecuteAssembly | KSpawnDll | KSideload.

Definition requests (actions : list RunAction)
  : list (RequestKind * string * string) :=
  omap (λ a,
          match a with
          | RExecuteAssembly req =>
              Some (KExecuteAssembly, Sliverpb.ExecuteAssemblyReq.Process req,
                    Sliverpb.ExecuteAssemblyReq.Arguments req)
          | RSpawnDll req =>
              Some (KSpawnDll, Sliverpb.InvokeSpawnDllReq.ProcessName req,
                    Sliverpb.InvokeSpawnDllReq.Args req)
          | RSideload req =>
              Some (KSideload, Sliverpb.SideloadReq.ProcessName req,
                    Sliverpb.SideloadReq.Args req)
          | _ => None
          end) actions.

(** The kind of request that [runMacroCommand] sends for a command, and
    the arguments that it makes of those given. *)
Definition request_kind (c : macroCommand) : RequestKind :=
  if IsAssembly c then KExecuteAssembly
  else if IsReflective c then KSpawnDll
  else KSideload.

Definition macro_args (c : macroCommand) (args : list string) : string :=
  if decide (DefaultArgs c ≠ EmptyString ∧ args = []) then DefaultArgs c
  else Strings.Join args " ".

(** The line [LoadMacroCmd] prints before it adds a command. *)
Definition adding (extCmd : macroCommand) : Out :=
  PrintInfof ("Adding " +:+ Name extCmd +:+ " command: " +:+ Help extCmd
              +:+ nl).

(** The files of the command named [cmdName] for [targetOS], in the order
    [getFileForTarget] meets them. *)
Definition matching_files (e : macro) (cmdName targetOS : string)
  : list macroFile :=
  c ← macroCommands e;
  if decide (cmdName = Name c)
  then filter (λ ef, targetOS = OS ef) (MacroFiles c)
  else [].

(** The path of the binary in [ef] for an architecture. *)
Definition arch_path (targetArch : string) (ef : macroFile) : string :=
  if decide (targetArch = "x86") then Ext32Path (Files ef)
  else Ext64Path (Files ef).

(** ** A macro to run the code on *)

(** A join of two path elements, enough for the examples. *)
Definition join_slash (dir file : string) : string :=
  if decide (dir = EmptyString) then file
  else if decide (file = EmptyString) then dir
  else dir +:+ "/" +:+ file.

Definition seatbelt : macroCommand :=
  {| Name := "seatbelt";
     Entrypoint := "Main";
     Help := "audit the host";
     LongHelp := "Runs the audit";
     AllowArgs := true;
     DefaultArgs := "-group=all";
     MacroFiles :=
       [ mkMacroFile "windows" (mkBinFiles "seatbelt.x64.exe" "seatbelt.x86.exe") ];
     IsReflective := false;
     IsAssembly := true |}.

Definition whoami : macroCommand :=
  {| Name := "whoami";
     Entrypoint := "Run";
     Help := "who is logged in";
     LongHelp := "Prints the user";
     AllowArgs := false;
     DefaultArgs := EmptyString;
     MacroFiles :=
       [ mkMacroFile "linux" (mkBinFiles "whoami.64.so" "whoami.32.so");
         mkMacroFile "windows" (mkBinFiles "whoami.x64.dll" "whoami.x86.dll") ];
     IsReflective := true;
     IsAssembly := false |}.

Definition tools : macro := mkMacro "tools" [seatbelt; whoami] "/opt/tools".

(** A manifest reader for the examples: one directory holds the manifest of
    [tools], whose text stands for its content. *)
Definition read_tools (path : string) : string + string :=
  if decide (path = "/opt/tools/manifest.json") then inl "tools"
  else inr ("open " +:+ path +:+ ": no such file or directory").

Definition parse_tools (bytes : string) : macro * option string :=
  if decide (bytes = "tools")
  then (mkMacro "tools" [seatbelt; whoami] EmptyString, None)
  else (mkMacro EmptyString [] EmptyString,
        Some "unexpected end of JSON input").

Definition load_tools_ctx : Grumble.Context :=
  Grumble.mkContext "load-macro" ∅ ∅ {[ "dir-path" := "/opt/tools" ]} ∅.

Definition load_nowhere_ctx : Grumble.Context :=
  Grumble.mkContext "load-macro" ∅ ∅ {[ "dir-path" := "/nowhere" ]} ∅.

(** A machine for the examples: the binaries of [tools] are there, and
    the server answers every request. *)
Definition sample_runner : Runner := {|
  filepath_Join := join_slash;
  filepath_Ext := λ path,
    if decide (path = "/opt/tools/whoami.64.so") then ".so" else ".dll";
  path_Base := λ path, path;
  ioutil_ReadFile := λ path, inl ("bytes of " +:+ path);
  ioutil_TempFile := λ _ pattern, inl ("/tmp/" +:+ pattern);
  Rpc_ExecuteAssembly := λ _, inl "assembly ran";
  Rpc_SpawnDll := λ _, inl "dll ran";
  Rpc_Sideload := λ _, inl "sideloaded"
|}.

Definition linux_session : Session := mkSession "linux" "x64" "web01".
Definition freebsd_session : Session := mkSession "freebsd" "x64" "bsd01".

Definition whoami_ctx : Grumble.Context :=
  Grumble.mkContext "whoami" ∅ ∅ ∅ {[ "arguments" := [" -a "; "-v "] ]}.

Definition tools_map : gmap string macro :=
  {[ "seatbelt" := tools; "whoami" := tools ]}.

Definition shell_with_help : Loader :=
  mkLoader [ Grumble.mkCommand "help" "use 'help [command]'" EmptyString [] []
               "Generic" ] ∅ [].

(** A manifest whose second command takes the name of a command that the
    shell has: [whoami] is new, [help] is not, [seatbelt] comes after it. *)
Definition help_again : macroCommand :=
  {| Name := "help";
     Entrypoint := "Main";
     Help := "more help";
     LongHelp := "Prints more help";
     AllowArgs := false;
     DefaultArgs := EmptyString;
     MacroFiles :=
       [ mkMacroFile "windows" (mkBinFiles "help.x64.exe" "help.x86.exe") ];
     IsReflective := false;
     IsAssembly := true |}.

Definition mixed : macro :=
  mkMacro "mixed" [whoami; help_again; seatbelt] "/opt/mixed".

Definition read_mixed (path : string) : string + string :=
  if decide (path = "/opt/mixed/manifest.json") then inl "mixed"
  else inr ("open " +:+ path +:+ ": no such file or directory").

Definition parse_mixed (bytes : string) : macro * option string :=
  if decide (bytes = "mixed")
  then (mkMacro "mixed" [whoami; help_again; seatbelt] EmptyString, None)
  else (mkMacro EmptyString [] EmptyString,
        Some "unexpected end of JSON input").

Definition load_mixed_ctx : Grumble.Context :=
  Grumble.mkContext "load-macro" ∅ ∅ {[ "dir-path" := "/opt/mixed" ]} ∅.

(** A macro with a binary for a system that [defaultHostProc] does not
    list, run without and with the process flag. *)
Definition uname : macroCommand :=
  {| Name := "uname";
     Entrypoint := "Run";
     Help := "name of the system";
     LongHelp := "Prints the name of the system";
     AllowArgs := false;
     DefaultArgs := EmptyString;
     MacroFiles :=
       [ mkMacroFile "freebsd" (mkBinFiles "uname.64.so" "uname.32.so") ];
     IsReflective := false;
     IsAssembly := false |}.

Definition bsd_tools : macro := mkMacro "bsd" [uname] "/opt/bsd".

Definition bsd_map : gmap string macro := {[ "uname" := bsd_tools ]}.

Definition uname_ctx : Grumble.Context :=
  Grumble.mkContext "uname" ∅ ∅ ∅ ∅.

Definition uname_sh_ctx : Grumble.Context :=
  Grumble.mkContext "uname" {[ "process" := "/bin/sh" ]} ∅ ∅ ∅.

End Macros.

(** * Package c2profiles *)
Module C2Profiles.

(** [int32(v)] of a Go [int]: the low thirty-two bits, read as a signed
    number. *)
Definition int32 (v : Z) : Z := (v + 2 ^ 31) mod 2 ^ 32 - 2 ^ 31.

(** The types of package configs, with the fields that
    [C2ConfigToProtobuf] reads; the numbers are Go [int]s. *)
Module Configs.

Module NameValueProbability.
Record t : Type := mk {
  Name : string;
  Value : string;
  Probability : Z;
  Methods : list string
}.
End NameValueProbability.

Module HTTPC2ImplantConfig.
Record t : Type := mk {
  UserAgent : string;
  ChromeBaseVersion : Z;
  MacOSVersion : string;
  NonceQueryArgChars : string;
  MaxFiles : Z;
  MinFiles : Z;
  MaxPaths : Z;
  StagerFileExt : string;
  PollFileExt : string;
  StartSessionFileExt : string;
  SessionFileExt : string;
  CloseFileExt : string;
  PollFiles : list string;
  SessionFiles : list string;
  CloseFiles : list string;
  StagerFiles : list string;
  PollPaths : list string;
  SessionPaths : list string;
  ClosePaths : list string;
  StagerPaths : list string
}.
End HTTPC2ImplantConfig.

Module HTTPC2ServerConfig.
Record t : Type := mk {
  RandomVersionHeaders : bool;
  Headers : list NameValueProbability.t;
  Cookies : list string
}.
End HTTPC2ServerConfig.

Module HTTPC2Config.
Record t : Type := mk {
  ImplantConfig : HTTPC2ImplantConfig.t;
  ServerConfig : HTTPC2ServerConfig.t
}.
End HTTPC2Config.

End Configs.

(** The messages of package clientpb that [C2ConfigToProtobuf] builds;
    the numbers are [int32]s. *)
Module Clientpb.

Module HTTPC2PathSegment.
Record t : Type := mk {
  IsFile : bool;
  SegmentType : Z;
  Value : string
}.
End HTTPC2PathSegment.

Module HTTPC2Header.
Record t : Type := mk {
  Method : string;
  Name : string;
  Value : string;
  Probability : Z
}.
End HTTPC2Header.

Module HTTPC2Cookie.
Record t : Type := mk { Name : string }.
End HTTPC2Cookie.

Module HTTPC2URLParameter.
Record t : Type := mk { Name : string }.
End HTTPC2URLParameter.

Module HTTPC2ImplantConfig.
Record t : Type := mk {
  UserAgent : string;
  ChromeBaseVersion : Z;
  MacOSVersion : string;
  NonceQueryArgChars : string;
  ExtraURLParameters : list HTTPC2URLParameter.t;
  Headers : list HTTPC2Header.t;
  MaxFiles : Z;
  MinFiles : Z;
  MaxPaths : Z;
  MinPaths : Z;
  StagerFileExtension : string;
  PollFileExtension : string;
  StartSessionFileExtension : string;
  SessionFileExtension : string;
  CloseFileExtension : string;
  PathSegments : list HTTPC2PathSegment.t
}.
End HTTPC2ImplantConfig.

Module HTTPC2ServerConfig.
Record t : Type := mk {
  RandomVersionHeaders : bool;
  Headers : list HTTPC2Header.t;
  Cookies : list HTTPC2Cookie.t
}.
End HTTPC2ServerConfig.

Module HTTPC2Config.
Record t : Type := mk {
  Name : string;
  ImplantConfig : HTTPC2ImplantConfig.t;
  ServerConfig : HTTPC2ServerConfig.t
}.
End HTTPC2Config.

End Clientpb.

(** One loop of [C2ConfigToProtobuf] over a list of files or paths: each
    value is appended as a segment of the given kind. *)
Definition append_segments (isFile : bool) (segmentType : Z)
           (values : list string)
           (pathSegments : list Clientpb.HTTPC2PathSegment.t)
  : list Clientpb.HTTPC2PathSegment.t :=
  fold_left
    (λ pathSegments value,
       pathSegments
       ++ [Clientpb.HTTPC2PathSegment.mk isFile segmentType value])
    values pathSegments.

(** [C2ConfigToProtobuf]. *)
Definition C2ConfigToProtobuf (profileName : string)
           (config : Configs.HTTPC2Config.t) : Clientpb.HTTPC2Config.t :=
  let ic := Configs.HTTPC2Config.ImplantConfig config in
  let sc := Configs.HTTPC2Config.ServerConfig config in
  let httpC2UrlParameters : list Clientpb.HTTPC2URLParameter.t := [] in
  let httpC2Headers : list Clientpb.HTTPC2Header.t := [] in
  let pathSegments : list Clientpb.HTTPC2PathSegment.t := [] in
  (* files *)
  let pathSegments :=
    append_segments true 0 (Configs.HTTPC2ImplantConfig.PollFiles ic)
                    pathSegments in
  let pathSegments :=
    append_segments true 1 (Configs.HTTPC2ImplantConfig.SessionFiles ic)
                    pathSegments in
  let pathSegments :=
    append_segments true 2 (Configs.HTTPC2ImplantConfig.CloseFiles ic)
                    pathSegments in
  let pathSegments :=
    append_segments true 3 (Configs.HTTPC2ImplantConfig.StagerFiles ic)
                    pathSegments in
  (* paths *)
  let pathSegments :=
    append_segments false 0 (Configs.HTTPC2ImplantConfig.PollPaths ic)
                    pathSegments in
  let pathSegments :=
    append_segments false 1 (Configs.HTTPC2ImplantConfig.SessionPaths ic)
                    pathSegments in
  let pathSegments :=
    append_segments false 2 (Configs.HTTPC2ImplantConfig.ClosePaths ic)
                    pathSegments in
  let pathSegments :=
    append_segments false 3 (Configs.HTTPC2ImplantConfig.StagerPaths ic)
                    pathSegments in
  let implantConfig :=
    {| Clientpb.HTTPC2ImplantConfig.UserAgent :=
         Configs.HTTPC2ImplantConfig.UserAgent ic;
       Clientpb.HTTPC2ImplantConfig.ChromeBaseVersion :=
         int32 (Configs.HTTPC2ImplantConfig.ChromeBaseVersion ic);
       Clientpb.HTTPC2ImplantConfig.MacOSVersion :=
         Configs.HTTPC2ImplantConfig.MacOSVersion ic;
       Clientpb.HTTPC2ImplantConfig.NonceQueryArgChars :=
         Configs.HTTPC2ImplantConfig.NonceQueryArgChars ic;
       Clientpb.HTTPC2ImplantConfig.ExtraURLParameters := httpC2UrlParameters;
       Clientpb.HTTPC2ImplantConfig.Headers := httpC2Headers;
       Clientpb.HTTPC2ImplantConfig.MaxFiles :=
         int32 (Configs.HTTPC2ImplantConfig.MaxFiles ic);
       Clientpb.HTTPC2ImplantConfig.MinFiles :=
         int32 (Configs.HTTPC2ImplantConfig.MinFiles ic);
       Clientpb.HTTPC2ImplantConfig.MaxPaths :=
         int32 (Configs.HTTPC2ImplantConfig.MaxPaths ic);
       Clientpb.HTTPC2ImplantConfig.MinPaths :=
         int32 (Configs.HTTPC2ImplantConfig.MinFiles ic);
       Clientpb.HTTPC2ImplantConfig.StagerFileExtension :=
         Configs.HTTPC2ImplantConfig.StagerFileExt ic;
       Clientpb.HTTPC2ImplantConfig.PollFileExtension :=
         Configs.HTTPC2ImplantConfig.PollFileExt ic;
       Clientpb.HTTPC2ImplantConfig.StartSessionFileExtension :=
         Configs.HTTPC2ImplantConfig.StartSessionFileExt ic;
       Clientpb.HTTPC2ImplantConfig.SessionFileExtension :=
         Configs.HTTPC2ImplantConfig.SessionFileExt ic;
       Clientpb.HTTPC2ImplantConfig.CloseFileExtension :=
         Configs.HTTPC2ImplantConfig.CloseFileExt ic;
       Clientpb.HTTPC2ImplantConfig.PathSegments := pathSegments |} in
  (* Server Config *)
  let serverHeaders :=
    fold_left
      (λ serverHeaders serverHeader,
         fold_left
           (λ serverHeaders method,
              serverHeaders
              ++ [ {| Clientpb.HTTPC2Header.Method := method;
                      Clientpb.HTTPC2Header.Name :=
                        Configs.NameValueProbability.Name serverHeader;
                      Clientpb.HTTPC2Header.Value :=
                        Configs.NameValueProbability.Value serverHeader;
                      Clientpb.HTTPC2Header.Probability :=
                        int32 (Configs.NameValueProbability.Probability
                                 serverHeader) |} ])
           (Configs.NameValueProbability.Methods serverHeader) serverHeaders)
      (Configs.HTTPC2ServerConfig.Headers sc) [] in
  let serverCookies :=
    fold_left
      (λ serverCookies cookie,
         serverCookies ++ [Clientpb.HTTPC2Cookie.mk cookie])
      (Configs.HTTPC2ServerConfig.Cookies sc) [] in
  let serverConfig :=
    {| Clientpb.HTTPC2ServerConfig.RandomVersionHeaders :=
         Configs.HTTPC2ServerConfig.RandomVersionHeaders sc;
       Clientpb.HTTPC2ServerConfig.Headers := serverHeaders;
       Clientpb.HTTPC2ServerConfig.Cookies := serverCookies |} in
  {| Clientpb.HTTPC2Config.Name := profileName;
     Clientpb.HTTPC2Config.ImplantConfig := implantConfig;
     Clientpb.HTTPC2Config.ServerConfig := serverConfig |}.

(** The header that a server header of the configuration gives for one of
    its methods. *)
Definition header_for (serverHeader : Configs.NameValueProbability.t)
           (method : string) : Clientpb.HTTPC2Header.t :=
  {| Clientpb.HTTPC2Header.Method := method;
     Clientpb.HTTPC2Header.Name :=
       Configs.NameValueProbability.Name serverHeader;
     Clientpb.HTTPC2Header.Value :=
       Configs.NameValueProbability.Value serverHeader;
     Clientpb.HTTPC2Header.Probability :=
       int32 (Configs.NameValueProbability.Probability serverHeader) |}.

(** The values of the segments of one kind, in order. *)
Definition segment_values (isFile : bool) (segmentType : Z)
           (segments : list Clientpb.HTTPC2PathSegment.t) : list string :=
  Clientpb.HTTPC2PathSegment.Value
  <$> filter (λ seg, Clientpb.HTTPC2PathSegment.IsFile seg = isFile
                     ∧ Clientpb.HTTPC2PathSegment.SegmentType seg = segmentType)
             segments.

(** The types of package models, with the fields that [PrintC2Profiles]
    reads. *)
Module Models.

Module HTTPC2Header.
Record t : Type := mk { Value : string }.
End HTTPC2Header.

Module HTTPC2Cookie.
Record t : Type := mk { Name : string }.
End HTTPC2Cookie.

Module HTTPC2URLParameter.
Record t : Type := mk { Name : string }.
End HTTPC2URLParameter.

Module HTTPC2PathSegment.
Record t : Type := mk {
  IsFile : bool;
  SegmentType : Z;
  Value : string
}.
End HTTPC2PathSegment.

Module HTTPC2ImplantConfig.
Record t : Type := mk {
  UserAgent : string;
  ChromeBaseVersion : Z;
  MacOSVersion : string;
  NonceQueryArgChars : string;
  ExtraURLParameters : list HTTPC2URLParameter.t;
  Headers : list HTTPC2Header.t;
  MaxFiles : Z;
  MinFiles : Z;
  MaxPaths : Z;
  MinPaths : Z;
  StagerFileExtension : string;
  StartSessionFileExtension : string;
  SessionFileExtension : string;
  CloseFileExtension : string;
  PathSegments : list HTTPC2PathSegment.t
}.
End HTTPC2ImplantConfig.

Module HTTPC2ServerConfig.
Record t : Type := mk {
  RandomVersionHeaders : bool;
  Headers : list HTTPC2Header.t;
  Cookies : list HTTPC2Cookie.t
}.
End HTTPC2ServerConfig.

Module HTTPC2Config.
Record t : Type := mk {
  Name : string;
  ImplantConfig : HTTPC2ImplantConfig.t;
  ServerConfig : HTTPC2ServerConfig.t
}.
End HTTPC2Config.

End Models.

(** A cell of a [table.Row], and the table writer with what was
    appended to it. *)
Inductive Cell : Type :=
| CString (s : string)
| CBool (b : bool)
| CInt32 (n : Z).

#[global] Instance Cell_eq_dec : EqDecision Cell.
Proof. solve_decision. Defined.

Record Table : Type := mkTable {
  header : list (list Cell);
  rows : list (list Cell)
}.

Definition NewWriter : Table := mkTable [] [].
Definition AppendHeader (row : list Cell) (tw : Table) : Table :=
  mkTable (header tw ++ [row]) (rows tw).
Definition AppendRow (row : list Cell) (tw : Table) : Table :=
  mkTable (header tw) (rows tw ++ [row]).

(** The six slices that the loop of [PrintC2Profiles] over the path
    segments fills. *)
Record SegmentLists : Type := mkSegmentLists {
  pollPaths : list string;
  pollFiles : list string;
  sessionPaths : list string;
  sessionFiles : list string;
  closePaths : list string;
  closeFiles : list string
}.

(** The body of that loop: the two switches, which have no case for a
    type other than 0, 1 and 2. *)
Definition sort_segment (l : SegmentLists) (segment : Models.HTTPC2PathSegment.t)
  : SegmentLists :=
  let value := Models.HTTPC2PathSegment.Value segment in
  let type := Models.HTTPC2PathSegment.SegmentType segment in
  if Models.HTTPC2PathSegment.IsFile segment then
    if decide (type = 0) then
      mkSegmentLists (pollPaths l) (pollFiles l ++ [value]) (sessionPaths l)
                     (sessionFiles l) (closePaths l) (closeFiles l)
    else if decide (type = 1) then
      mkSegmentLists (pollPaths l) (pollFiles l) (sessionPaths l)
                     (sessionFiles l ++ [value]) (closePaths l) (closeFiles l)
    else if decide (type = 2) then
      mkSegmentLists (pollPaths l) (pollFiles l) (sessionPaths l)
                     (sessionFiles l) (closePaths l) (closeFiles l ++ [value])
    else l
  else
    if decide (type = 0) then
      mkSegmentLists (pollPaths l ++ [value]) (pollFiles l) (sessionPaths l)
                     (sessionFiles l) (closePaths l) (closeFiles l)
    else if decide (type = 1) then
      mkSegmentLists (pollPaths l) (pollFiles l) (sessionPaths l ++ [value])
                     (sessionFiles l) (closePaths l) (closeFiles l)
    else if decide (type = 2) then
      mkSegmentLists (pollPaths l) (pollFiles l) (sessionPaths l)
                     (sessionFiles l) (closePaths l ++ [value]) (closeFiles l)
    else l.

(** The table that [PrintC2Profiles] fills from the model of the
    profile, before it is rendered. *)
Definition profile_table (profileModel : Models.HTTPC2Config.t) : Table :=
  let sc := Models.HTTPC2Config.ServerConfig profileModel in
  let ic := Models.HTTPC2Config.ImplantConfig profileModel in
  let tw := NewWriter in
  let tw := AppendHeader [CString "Parameter"; CString "Value"] tw in
  (* Profile metadata *)
  let tw := AppendRow [CString "Profile Name";
                       CString (Models.HTTPC2Config.Name profileModel)] tw in
  (* Server side configuration *)
  let serverHeaders :=
    fold_left (λ serverHeaders header,
                 serverHeaders ++ [Models.HTTPC2Header.Value header])
              (Models.HTTPC2ServerConfig.Headers sc) [] in
  let tw := AppendRow [CString "Server Headers";
                       CString (Strings.Join serverHeaders ",")] tw in
  let serverCookies :=
    fold_left (λ serverCookies cookie,
                 serverCookies ++ [Models.HTTPC2Cookie.Name cookie])
              (Models.HTTPC2ServerConfig.Cookies sc) [] in
  let tw := AppendRow [CString "Server Cookies";
                       CString (Strings.Join serverCookies ",")] tw in
  let tw := AppendRow [CString "Randomize Server Headers";
                       CBool (Models.HTTPC2ServerConfig.RandomVersionHeaders sc)]
                      tw in
  (* Client side configuration *)
  let clientHeaders :=
    fold_left (λ clientHeaders header,
                 clientHeaders ++ [Models.HTTPC2Header.Value header])
              (Models.HTTPC2ImplantConfig.Headers ic) [] in
  let tw := AppendRow [CString "Client Headers";
                       CString (Strings.Join clientHeaders ",")] tw in
  let clientUrlParams :=
    fold_left (λ clientUrlParams clientUrlParam,
                 clientUrlParams
                 ++ [Models.HTTPC2URLParameter.Name clientUrlParam])
              (Models.HTTPC2ImplantConfig.ExtraURLParameters ic) [] in
  let tw := AppendRow [CString "Extra URL Parameters";
                       CString (Strings.Join clientUrlParams ",")] tw in
  let tw := AppendRow [CString "User agent";
                       CString (Models.HTTPC2ImplantConfig.UserAgent ic)] tw in
  let tw := AppendRow [CString "Chrome base version";
                       CInt32 (Models.HTTPC2ImplantConfig.ChromeBaseVersion ic)]
                      tw in
  let tw := AppendRow [CString "MacOS version";
                       CString (Models.HTTPC2ImplantConfig.MacOSVersion ic)]
                      tw in
  let tw := AppendRow [CString "Nonce query arg chars";
                       CString (Models.HTTPC2ImplantConfig.NonceQueryArgChars ic)]
                      tw in
  let tw := AppendRow [CString "Max files";
                       CInt32 (Models.HTTPC2ImplantConfig.MaxFiles ic)] tw in
  let tw := AppendRow [CString "Min files";
                       CInt32 (Models.HTTPC2ImplantConfig.MinFiles ic)] tw in
  let tw := AppendRow [CString "Max paths";
                       CInt32 (Models.HTTPC2ImplantConfig.MaxPaths ic)] tw in
  let tw := AppendRow [CString "Min paths";
                       CInt32 (Models.HTTPC2ImplantConfig.MinPaths ic)] tw in
  let tw := AppendRow [CString "Stager file extension";
                       CString (Models.HTTPC2ImplantConfig.StagerFileExtension ic)]
                      tw in
  let tw := AppendRow [CString "Start session file extension";
                       CString (Models.HTTPC2ImplantConfig.StartSessionFileExtension ic)]
                      tw in
  let tw := AppendRow [CString "Session file extension";
                       CString (Models.HTTPC2ImplantConfig.SessionFileExtension ic)]
                      tw in
  let tw := AppendRow [CString "Close file extension";
                       CString (Models.HTTPC2ImplantConfig.CloseFileExtension ic)]
                      tw in
  let l :=
    fold_left sort_segment (Models.HTTPC2ImplantConfig.PathSegments ic)
              (mkSegmentLists [] [] [] [] [] []) in
  let tw := AppendRow [CString "Poll paths";
                       CString (Strings.Join (pollPaths l) ",")] tw in
  let tw := AppendRow [CString "Poll files";
                       CString (Strings.Join (pollFiles l) ",")] tw in
  let tw := AppendRow [CString "Session paths";
                       CString (Strings.Join (sessionPaths l) ",")] tw in
  let tw := AppendRow [CString "Session files";
                       CString (Strings.Join (sessionFiles l) ",")] tw in
  let tw := AppendRow [CString "Close paths";
                       CString (Strings.Join (closePaths l) ",")] tw in
  let tw := AppendRow [CString "Close files";
                       CString (Strings.Join (closeFiles l) ",")] tw in
  tw.

Section Printing.
(** The conversion of package models, the style of package settings and
    the renderer of the table. *)
Variable HTTPC2ConfigFromProtobuf
  : Clientpb.HTTPC2Config.t → Models.HTTPC2Config.t.
Variable Style : Type.
Variable GetTableStyle : Style.
Variable Render : Style → Table → string.

(** [PrintC2Profiles]: what the console is given to print. *)
Definition PrintC2Profiles (profile : Clientpb.HTTPC2Config.t) : list string :=
  let profileModel := HTTPC2ConfigFromProtobuf profile in
  [Render GetTableStyle (profile_table profileModel); nl].

End Printing.

(** The value shown in the row of a parameter. *)
Definition row_value (parameter : string) (tw : Table) : option Cell :=
  match filter (λ row, head row = Some (CString parameter)) (rows tw) with
  | [_; value] :: _ => Some value
  | _ => None
  end.

(** A segment as its three fields, whatever the package of its type. *)
Definition pb_fields (seg : Clientpb.HTTPC2PathSegment.t) : bool * Z * string :=
  (Clientpb.HTTPC2PathSegment.IsFile seg,
   Clientpb.HTTPC2PathSegment.SegmentType seg,
   Clientpb.HTTPC2PathSegment.Value seg).
Definition model_fields (seg : Models.HTTPC2PathSegment.t) : bool * Z * string :=
  (Models.HTTPC2PathSegment.IsFile seg,
   Models.HTTPC2PathSegment.SegmentType seg,
   Models.HTTPC2PathSegment.Value seg).

(** The values of the segments of one kind, read on their fields. *)
Definition field_values (isFile : bool) (segmentType : Z)
           (fields : list (bool * Z * string)) : list string :=
  snd <$> filter (λ f, f.1 = (isFile, segmentType)) fields.

(** A model with other path segments. *)
Definition with_segments (segments : list Models.HTTPC2PathSegment.t)
           (m : Models.HTTPC2Config.t) : Models.HTTPC2Config.t :=
  let ic := Models.HTTPC2Config.ImplantConfig m in
  Models.HTTPC2Config.mk
    (Models.HTTPC2Config.Name m)
    (Models.HTTPC2ImplantConfig.mk
       (Models.HTTPC2ImplantConfig.UserAgent ic)
       (Models.HTTPC2ImplantConfig.ChromeBaseVersion ic)
       (Models.HTTPC2ImplantConfig.MacOSVersion ic)
       (Models.HTTPC2ImplantConfig.NonceQueryArgChars ic)
       (Models.HTTPC2ImplantConfig.ExtraURLParameters ic)
       (Models.HTTPC2ImplantConfig.Headers ic)
       (Models.HTTPC2ImplantConfig.MaxFiles ic)
       (Models.HTTPC2ImplantConfig.MinFiles ic)
       (Models.HTTPC2ImplantConfig.MaxPaths ic)
       (Models.HTTPC2ImplantConfig.MinPaths ic)
       (Models.HTTPC2ImplantConfig.StagerFileExtension ic)
       (Models.HTTPC2ImplantConfig.StartSessionFileExtension ic)
       (Models.HTTPC2ImplantConfig.SessionFileExtension ic)
       (Models.HTTPC2ImplantConfig.CloseFileExtension ic)
       segments)
    (Models.HTTPC2Config.ServerConfig m).

(** ** A configuration to run the code on *)

Definition sample_implant : Configs.HTTPC2ImplantConfig.t :=
  {| Configs.HTTPC2ImplantConfig.UserAgent := "Mozilla/5.0";
     Configs.HTTPC2ImplantConfig.ChromeBaseVersion := 106;
     Configs.HTTPC2ImplantConfig.MacOSVersion := "10_15_7";
     Configs.HTTPC2ImplantConfig.NonceQueryArgChars := "abcdefghijklmnop";
     Configs.HTTPC2ImplantConfig.MaxFiles := 4;
     Configs.HTTPC2ImplantConfig.MinFiles := 2;
     Configs.HTTPC2ImplantConfig.MaxPaths := 8;
     Configs.HTTPC2ImplantConfig.StagerFileExt := ".woff";
     Configs.HTTPC2ImplantConfig.PollFileExt := ".js";
     Configs.HTTPC2ImplantConfig.StartSessionFileExt := ".html";
     Configs.HTTPC2ImplantConfig.SessionFileExt := ".php";
     Configs.HTTPC2ImplantConfig.CloseFileExt := ".png";
     Configs.HTTPC2ImplantConfig.PollFiles := ["bootstrap"; "jquery"];
     Configs.HTTPC2ImplantConfig.SessionFiles := ["login"];
     Configs.HTTPC2ImplantConfig.CloseFiles := ["favicon"];
     Configs.HTTPC2ImplantConfig.StagerFiles := ["font"];
     Configs.HTTPC2ImplantConfig.PollPaths := ["js"; "assets"];
     Configs.HTTPC2ImplantConfig.SessionPaths := ["api"];
     Configs.HTTPC2ImplantConfig.ClosePaths := ["static"];
     Configs.HTTPC2ImplantConfig.StagerPaths := ["fonts"] |}.

Definition sample_server : Configs.HTTPC2ServerConfig.t :=
  {| Configs.HTTPC2ServerConfig.RandomVersionHeaders := false;
     Configs.HTTPC2ServerConfig.Headers :=
       [ Configs.NameValueProbability.mk "Cache-Control" "no-store" 100
           ["GET"; "POST"];
         Configs.NameValueProbability.mk "X-Unused" "1" 50 [] ];
     Configs.HTTPC2ServerConfig.Cookies := ["PHPSESSID"; "SID"] |}.

Definition sample_config : Configs.HTTPC2Config.t :=
  Configs.HTTPC2Config.mk sample_implant sample_server.

(** A conversion to the model for the examples: every field is copied. *)
Definition copy_to_model (profile : Clientpb.HTTPC2Config.t)
  : Models.HTTPC2Config.t :=
  let ic := Clientpb.HTTPC2Config.ImplantConfig profile in
  let sc := Clientpb.HTTPC2Config.ServerConfig profile in
  Models.HTTPC2Config.mk
    (Clientpb.HTTPC2Config.Name profile)
    (Models.HTTPC2ImplantConfig.mk
       (Clientpb.HTTPC2ImplantConfig.UserAgent ic)
       (Clientpb.HTTPC2ImplantConfig.ChromeBaseVersion ic)
       (Clientpb.HTTPC2ImplantConfig.MacOSVersion ic)
       (Clientpb.HTTPC2ImplantConfig.NonceQueryArgChars ic)
       ((λ p, Models.HTTPC2URLParameter.mk (Clientpb.HTTPC2URLParameter.Name p))
          <$> Clientpb.HTTPC2ImplantConfig.ExtraURLParameters ic)
       ((λ h, Models.HTTPC2Header.mk (Clientpb.HTTPC2Header.Value h))
          <$> Clientpb.HTTPC2ImplantConfig.Headers ic)
       (Clientpb.HTTPC2ImplantConfig.MaxFiles ic)
       (Clientpb.HTTPC2ImplantConfig.MinFiles ic)
       (Clientpb.HTTPC2ImplantConfig.MaxPaths ic)
       (Clientpb.HTTPC2ImplantConfig.MinPaths ic)
       (Clientpb.HTTPC2ImplantConfig.StagerFileExtension ic)
       (Clientpb.HTTPC2ImplantConfig.StartSessionFileExtension ic)
       (Clientpb.HTTPC2ImplantConfig.SessionFileExtension ic)
       (Clientpb.HTTPC2ImplantConfig.CloseFileExtension ic)
       ((λ seg, Models.HTTPC2PathSegment.mk
                  (Clientpb.HTTPC2PathSegment.IsFile seg)
                  (Clientpb.HTTPC2PathSegment.SegmentType seg)
                  (Clientpb.HTTPC2PathSegment.Value seg))
          <$> Clientpb.HTTPC2ImplantConfig.PathSegments ic))
    (Models.HTTPC2ServerConfig.mk
       (Clientpb.HTTPC2ServerConfig.RandomVersionHeaders sc)
       ((λ h, Models.HTTPC2Header.mk (Clientpb.HTTPC2Header.Value h))
          <$> Clientpb.HTTPC2ServerConfig.Headers sc)
       ((λ c, Models.HTTPC2Cookie.mk (Clientpb.HTTPC2Cookie.Name c))
          <$> Clientpb.HTTPC2ServerConfig.Cookies sc)).

End C2Profiles.

(** * Properties of package console *)
Module ConsoleProofs.
Import Console.

Section WithTransport.
Context {T : Transport}.
Implicit Types (w : World) (g : nat) (job : Job) (ln : Listener).

#[local] Arguments by_goroutine : simpl never.
#[local] Arguments published_in : simpl never.
#[local] Arguments allocated : simpl never.

(** ** Reading the trace after one more action *)

Lemma by_goroutine_snoc g (tr : list Action) a :
  by_goroutine g (tr ++ [a])
  = by_goroutine g tr ++ (if decide (actor a = Some g) then [a] else []).
Proof.
  unfold by_goroutine. rewrite filter_app. f_equal.
Qed.

Lemma published_in_snoc (tr : list Action) a :
  published_in (tr ++ [a])
  = published_in tr
    ++ match a with APublish _ ev => [ev] | _ => [] end.
Proof.
  unfold published_in. rewrite omap_app. f_equal. by destruct a.
Qed.

Lemma allocated_snoc (tr : list Action) a :
  allocated (tr ++ [a])
  = allocated tr ++ match a with AGetJobID id => [id] | _ => [] end.
Proof.
  unfold allocated. rewrite omap_app. f_equal. by destruct a.
Qed.

(** ** What a call of [jobStartClientListener] does, case by case *)

Lemma jobStartClientListener_fail bindIface port w err t :
  StartClientListener bindIface port (net w) = (inr err, t) →
  jobStartClientListener bindIface port w
  = ((-1, Some err), observe (ABind bindIface port) (set_net t w)).
Proof.
  intros Hb. unfold jobStartClientListener, transport_StartClientListener.
  unfold mbind, M_bind. by rewrite Hb.
Qed.

Lemma jobStartClientListener_ok bindIface port w ln t :
  StartClientListener bindIface port (net w) = (inl ln, t) →
  Active w !! (jobID w + 1) = None →
  let job := listener_job (jobID w + 1) port (chans w) in
  jobStartClientListener bindIface port w
  = ((jobID w + 1, None),
     mkWorld t (jobID w + 1) (<[jobID w + 1 := job]> (Active w))
             (panicked w) (published w) (S (chans w)) (sends w)
             (goroutines w ++ [supervisor job ln])
             (trace w ++ [ABind bindIface port; AGetJobID (jobID w + 1);
                          AMakeChan (chans w);
                          AGo (length (goroutines w)); AAddJob job])).
Proof.
  intros Hb Hfresh job.
  unfold jobStartClientListener, transport_StartClientListener.
  unfold mbind, M_bind. rewrite Hb. cbn.
  unfold Jobs_AddJob. cbn. rewrite Hfresh. cbn.
  unfold observe; cbn. rewrite <- !app_assoc. reflexivity.
Qed.

(** ** The invariant holds at the start and is kept by every step *)

Lemma Inv_init t : Inv (init t).
Proof.
  split; cbn; try done.
  - intros g Hg. lia.
  - intros ch Hch. by apply elem_of_nil in Hch.
Qed.

(** A goroutine is where it was when its program, its part of the trace
    and its registry entry are. *)
Lemma goroutine_at_frame w w' g job ln p :
  goroutines w' !! g = goroutines w !! g →
  by_goroutine g (trace w') = by_goroutine g (trace w) →
  Active w' !! ID job = Active w !! ID job →
  goroutine_at w g job ln p → goroutine_at w' g job ln p.
Proof.
  intros Hg Htr Ha [H1 H2 H3 H4 H5 H6].
  split; try done; congruence.
Qed.

Lemma Inv_observe a w :
  actor a = None → (∀ id, a ≠ AGetJobID id) → Inv w → Inv (observe a w).
Proof.
  intros Hact Hid [H1 H2 H3 H4 H5 H6 H7 H8 H9].
  assert (∀ g, by_goroutine g (trace w ++ [a]) = by_goroutine g (trace w))
    as Hby.
  { intros g. rewrite by_goroutine_snoc, Hact.
    destruct (decide _); [done | apply app_nil_r]. }
  split; cbn; try done.
  - intros g Hg. destruct (H4 g Hg) as (job & ln & p & Hat).
    exists job, ln, p. revert Hat.
    apply goroutine_at_frame; [done | apply Hby | done].
  - intros g Hg. rewrite Hby. auto.
  - rewrite published_in_snoc, H7. destruct a; try done.
    all: by rewrite app_nil_r.
  - rewrite allocated_snoc, <- H8. destruct a; try by rewrite app_nil_r.
    by destruct (Hid id).
Qed.

Lemma Inv_set_net t w : Inv w → Inv (set_net t w).
Proof.
  intros [H1 H2 H3 H4 H5 H6 H7 H8 H9]. split; cbn; try done.
  intros g Hg. destruct (H4 g Hg) as (job & ln & p & Hat).
  exists job, ln, p. revert Hat. by apply goroutine_at_frame.
Qed.

Lemma Inv_set_sends l w :
  (∀ ch, ch ∈ l → (ch < chans w)%nat) → Inv w → Inv (set_sends l w).
Proof.
  intros Hl [H1 H2 H3 H4 H5 H6 H7 H8 H9]. split; cbn; try done.
  intros g Hg. destruct (H4 g Hg) as (job & ln & p & Hat).
  exists job, ln, p. revert Hat. by apply goroutine_at_frame.
Qed.

(** A registered job is the one its goroutine supervises, and that
    goroutine has not removed it yet. *)
Lemma Inv_registered w k job :
  Inv w → Active w !! k = Some job →
  ∃ g ln p, goroutine_at w g job ln p ∧ (p ≤ 3)%nat ∧ k = Z.of_nat g + 1.
Proof.
  intros HI Hk.
  destruct (inv_Active w HI k job Hk) as [Hlo Hhi].
  rewrite (inv_jobID w HI) in Hhi.
  assert (Z.to_nat (k - 1) < length (goroutines w))%nat as Hg by lia.
  destruct (inv_goroutines w HI _ Hg) as (job' & ln & p & Hat).
  pose proof (at_ID _ _ _ _ _ Hat) as HID.
  pose proof (at_Active _ _ _ _ _ Hat) as HA.
  assert (ID job' = k) as Hk' by lia.
  rewrite Hk', Hk in HA.
  destruct (decide (p ≤ 3)%nat); [|done].
  injection HA as ->. exists (Z.to_nat (k - 1)), ln, p.
  split; [done | split; [done | lia]].
Qed.

Lemma Inv_fresh_ID w : Inv w → Active w !! (jobID w + 1) = None.
Proof.
  intros HI. destruct (Active w !! (jobID w + 1)) as [job|] eqn:Hk; [|done].
  apply (inv_Active w HI) in Hk. lia.
Qed.

Lemma by_goroutine_app g (tr tr' : list Action) :
  by_goroutine g (tr ++ tr') = by_goroutine g tr ++ by_goroutine g tr'.
Proof. apply filter_app. Qed.

Lemma Inv_jobStartClientListener bindIface port w :
  Inv w → Inv (jobStartClientListener bindIface port w).2.
Proof.
  intros HI.
  destruct (StartClientListener bindIface port (net w)) as [[ln|err] t] eqn:Hb.
  2:{ rewrite (jobStartClientListener_fail _ _ _ _ _ Hb). cbn.
      apply Inv_observe; [done | done | by apply Inv_set_net]. }
  rewrite (jobStartClientListener_ok _ _ _ _ _ Hb (Inv_fresh_ID w HI)). cbn.
  set (job := listener_job (jobID w + 1) port (chans w)).
  destruct HI as [H1 H2 H3 H4 H5 H6 H7 H8 H9].
  split; cbn.
  - done.
  - rewrite length_app. cbn. lia.
  - rewrite length_app. cbn. lia.
  - intros g. rewrite length_app. cbn. intros Hg.
    destruct (decide (g = length (goroutines w))) as [->|Hne].
    + exists job, ln, 0%nat. split; cbn.
      * lia.
      * lia.
      * done.
      * rewrite lookup_app_r by lia. by rewrite Nat.sub_diag.
      * rewrite by_goroutine_app, H5 by lia. done.
      * by rewrite lookup_insert_eq.
    + assert (g < length (goroutines w))%nat as Hlt by lia.
      destruct (H4 g Hlt) as (job' & ln' & p & Hat).
      exists job', ln', p.
      pose proof (at_ID _ _ _ _ _ Hat) as HID.
      revert Hat. apply goroutine_at_frame; cbn.
      * by rewrite lookup_app_l.
      * rewrite by_goroutine_app. apply app_nil_r.
      * rewrite lookup_insert_ne; [done | lia].
  - intros g. rewrite length_app. cbn. intros Hg.
    rewrite by_goroutine_app, H5 by lia. done.
  - intros k job'. rewrite lookup_insert. destruct (decide _) as [<-|Hne].
    + intros _. lia.
    + intros Hk. apply H6 in Hk. lia.
  - rewrite H7. unfold published_in. by rewrite omap_app, app_nil_r.
  - unfold allocated in *. rewrite omap_app, H8. cbn.
    rewrite H2.
    replace (Z.of_nat (length (goroutines w)) + 1)
      with (Z.of_nat (S (length (goroutines w)))) by lia.
    rewrite seqZ_S. do 2 f_equal. lia.
  - intros ch Hch. apply H9 in Hch. lia.
Qed.

Lemma Inv_startMultiplayerModeCmd ctx w :
  Inv w → Inv (startMultiplayerModeCmd ctx w).2.
Proof.
  intros HI. unfold startMultiplayerModeCmd, mbind, M_bind.
  pose proof (Inv_jobStartClientListener (Flags_String ctx "server")
                (uint16 (Flags_Int ctx "lport")) w HI) as HI'.
  destruct (jobStartClientListener _ _ w) as [[id [err|]] w']; cbn in *.
  all: by apply Inv_observe.
Qed.

Lemma Inv_StopJob id w : Inv w → Inv (StopJob id w).2.
Proof.
  intros HI. unfold StopJob.
  destruct (Active w !! id) as [job|] eqn:Hk; cbn; [|done].
  destruct (Inv_registered w id job HI Hk) as (g & ln & p & Hat & Hp & ->).
  apply Inv_observe; [done | done |].
  apply Inv_set_sends; [|done].
  intros ch [Hch|Hch]%elem_of_app.
  - by apply (inv_sends w HI).
  - apply list_elem_of_singleton in Hch as ->.
    rewrite (at_JobCtrl _ _ _ _ _ Hat), (inv_chans w HI).
    eapply lookup_lt_Some, (at_prog _ _ _ _ _ Hat).
Qed.

Lemma remove_first_elem_of ch (l : list Chan) c :
  c ∈ remove_first ch l → c ∈ l.
Proof.
  induction l as [|c' l IH]; cbn; [done|].
  destruct (decide (c' = ch)).
  - intros Hc. by right.
  - intros [->|Hc]%elem_of_cons; [left | right; auto].
Qed.

Lemma shutdown_actor g job ln p a :
  shutdown g job ln !! p = Some a →
  actor a = Some g ∧ (∀ id, a ≠ AGetJobID id)
  ∧ (∀ ev g', a = APublish g' ev → p = 4%nat ∧ ev = stopped job).
Proof.
  intros Hp. destruct p as [|[|[|[|[|p]]]]]; [..|done].
  all: injection Hp as <-; cbn.
  all: split; [done | split; [done|]]; intros ev g' Heq; by inversion Heq.
Qed.

(** Goroutine [g] runs its instruction number [p]: the world [w1] it
    leaves differs from [w] by the action observed, by the event if the
    action publishes, and by the registry entry if it removes. *)
Lemma Inv_advance g job ln p a w w1 :
  Inv w → goroutine_at w g job ln p →
  shutdown g job ln !! p = Some a →
  panicked w1 = panicked w → jobID w1 = jobID w → chans w1 = chans w →
  goroutines w1 = goroutines w →
  trace w1 = trace w ++ [a] →
  published w1
  = published w ++ match a with APublish _ ev => [ev] | _ => [] end →
  Active w1
  = (if decide (p = 3%nat) then delete (ID job) (Active w) else Active w) →
  (∀ ch, ch ∈ sends w1 → ch ∈ sends w) →
  let w' := set_goroutines
              (<[g := drop (S p) (supervisor job ln)]> (goroutines w1)) w1 in
  goroutine_at w' g job ln (S p) ∧ Inv w'.
Proof.
  intros HI Hat Ha Hpan Hid Hch Hgs Htr Hpub HAct Hsends w'.
  destruct (shutdown_actor _ _ _ _ _ Ha) as (Hactor & Hnoid & _).
  assert (p < 5)%nat as Hp5 by (apply lookup_lt_Some in Ha; cbn in Ha; lia).
  assert (g < length (goroutines w))%nat as Hg
    by (eapply lookup_lt_Some, (at_prog _ _ _ _ _ Hat)).
  assert (goroutine_at w' g job ln (S p)) as Hat'.
  { destruct Hat as [H1 H2 H3 H4 H5 H6].
    split; try done; unfold w', set_goroutines; cbn [goroutines trace Active].
    - rewrite Hgs. by apply list_lookup_insert_eq.
    - rewrite Htr, by_goroutine_snoc, Hactor, H5.
      rewrite decide_True by done. symmetry. by apply take_S_r.
    - rewrite HAct. destruct (decide (p = 3%nat)) as [->|Hne].
      + by rewrite lookup_delete_eq.
      + rewrite H6. repeat case_decide; try done; lia. }
  split; [done|].
  destruct HI as [H1 H2 H3 H4 H5 H6 H7 H8 H9].
  split; cbn.
  - congruence.
  - rewrite length_insert. congruence.
  - rewrite length_insert. congruence.
  - intros g'. rewrite length_insert, Hgs. intros Hg'.
    destruct (decide (g' = g)) as [->|Hne]; [by eauto|].
    destruct (H4 g' Hg') as (job' & ln' & p' & Hat2).
    exists job', ln', p'.
    pose proof (at_ID _ _ _ _ _ Hat2) as HID2.
    pose proof (at_ID _ _ _ _ _ Hat) as HID.
    revert Hat2. apply goroutine_at_frame; cbn.
    + rewrite Hgs. by apply list_lookup_insert_ne.
    + rewrite Htr, by_goroutine_snoc, Hactor.
      rewrite decide_False by congruence. apply app_nil_r.
    + rewrite HAct. case_decide; [|done].
      rewrite lookup_delete_ne; [done | lia].
  - intros g'. rewrite length_insert, Hgs. intros Hg'.
    rewrite Htr, by_goroutine_snoc, Hactor.
    rewrite decide_False by (intros [=]; lia).
    rewrite app_nil_r. auto.
  - intros k job'. rewrite HAct, Hid. case_decide.
    + intros [_ Hk]%lookup_delete_Some. eauto.
    + eauto.
  - rewrite Hpub, Htr, published_in_snoc, H7. done.
  - rewrite Htr, allocated_snoc, Hid, <- H8.
    destruct a; try by rewrite app_nil_r. by destruct (Hnoid id).
  - intros ch Hc. rewrite Hch. auto.
Qed.

(** Every instruction a goroutine runs is the next one of its
    supervisor. *)
Lemma run_goroutine_advance g w w' :
  Inv w → run_goroutine g w = Some w' →
  ∃ job ln p a,
    goroutine_at w g job ln p ∧ shutdown g job ln !! p = Some a
    ∧ trace w' = trace w ++ [a]
    ∧ goroutine_at w' g job ln (S p) ∧ Inv w'.
Proof.
  intros HI Hrun. unfold run_goroutine in Hrun.
  destruct (goroutines w !! g) as [[|i rest]|] eqn:Hg; try done.
  destruct (exec_instr g i w) as [w1|] eqn:Hex; [|done].
  injection Hrun as <-.
  assert (g < length (goroutines w))%nat as Hlt by (by eapply lookup_lt_Some).
  destruct (inv_goroutines w HI g Hlt) as (job & ln & p & Hat).
  pose proof (at_prog _ _ _ _ _ Hat) as Hprog.
  rewrite Hg in Hprog. injection Hprog as Hprog.
  exists job, ln, p.
  destruct p as [|[|[|[|[|p]]]]]; [..|by destruct p].
  all: cbn in Hprog; injection Hprog as -> ->; cbn in Hex.
  all: try (destruct (decide _); [|done]); injection Hex as <-.
  all: eexists; split; [done|]; split; [reflexivity|].
  all: split; [reflexivity|].
  all: match goal with
       | |- goroutine_at (set_goroutines _ ?w1) _ _ _ (S ?p) ∧ _ =>
           eapply (Inv_advance g job ln p _ w w1)
       end; try done; cbn; try done.
  all: try by rewrite app_nil_r.
  intros ch. apply remove_first_elem_of.
Qed.

Lemma Inv_step w w' : Inv w → step w w' → Inv w'.
Proof.
  intros HI Hstep. revert HI.
  destruct Hstep as [bindIface port w0 _|ctx w0 _|id w0 _|g w0 w1 _ Hrun];
    intros HI.
  - by apply Inv_jobStartClientListener.
  - by apply Inv_startMultiplayerModeCmd.
  - by apply Inv_StopJob.
  - by destruct (run_goroutine_advance _ _ _ HI Hrun)
      as (? & ? & ? & ? & ? & ? & ? & ? & ?).
Qed.

Lemma reachable_Inv w : reachable w → Inv w.
Proof.
  intros [t Hrtc]. revert w Hrtc. apply rtc_ind_r.
  - apply Inv_init.
  - intros w w' _ Hstep HI. by eapply Inv_step.
Qed.

(** ** A goroutine from the stop signal to its end *)

Lemma run_goroutine_exec g i rest w w1 :
  goroutines w !! g = Some (i :: rest) →
  exec_instr g i w = Some w1 →
  run_goroutine g w
  = Some (set_goroutines (<[g := rest]> (goroutines w1)) w1).
Proof. intros Hg Hex. unfold run_goroutine. by rewrite Hg, Hex. Qed.

(** With a send waiting on its channel, the goroutine runs its five
    instructions without ever waiting again. *)
Lemma run_supervisor g job ln w :
  goroutines w !! g = Some (supervisor job ln) →
  JobCtrl job ∈ sends w →
  run_goroutine_n 5 g w
  = Some (mkWorld (Close ln (net w)) (jobID w)
                  (delete (ID job) (Active w)) (panicked w)
                  (published w ++ [stopped job]) (chans w)
                  (remove_first (JobCtrl job) (sends w))
                  (<[g := []]> (goroutines w))
                  (trace w ++ shutdown g job ln)).
Proof.
  intros Hg Hsend.
  assert (g < length (goroutines w))%nat as Hlt by (by eapply lookup_lt_Some).
  unfold run_goroutine_n.
  erewrite run_goroutine_exec; [|exact Hg|cbn; by rewrite decide_True].
  do 4 (erewrite run_goroutine_exec;
        [|cbn; apply list_lookup_insert_eq;
          by rewrite ?length_insert|reflexivity];
        cbn; rewrite ?list_insert_insert_eq).
  lazy beta iota zeta delta
    [set_goroutines observe Jobs_RemoveJob EventBroker_Publish set_net
     set_sends set_Active set_published
     net jobID Active panicked published chans sends goroutines trace].
  by rewrite <- !app_assoc.
Qed.

(** A goroutine past its receive and short of its end can always run. *)
Lemma run_goroutine_ready g job ln p w :
  goroutines w !! g = Some (drop p (supervisor job ln)) →
  (1 ≤ p < 5)%nat → is_Some (run_goroutine g w).
Proof.
  intros Hg Hp. unfold run_goroutine. rewrite Hg.
  destruct p as [|[|[|[|[|p]]]]]; try lia; by cbn.
Qed.

Lemma run_goroutine_n_steps n g w w' :
  Inv w → run_goroutine_n n g w = Some w' → rtc step w w'.
Proof.
  revert w. induction n as [|n IH]; intros w HI; cbn.
  - intros [= ->]. apply rtc_refl.
  - destruct (run_goroutine g w) as [w1|] eqn:Hrun; [|done].
    intros Hn.
    assert (step w w1) as Hstep
      by (apply (step_goroutine g); [apply (inv_alive w HI) | done]).
    eapply rtc_l; [done|]. apply IH; [|done]. by eapply Inv_step.
Qed.

(** C1: in every state the server can reach, each registered job has its
    supervising goroutine, which has not removed it yet; what a goroutine
    has done so far is a beginning of: receive the stop signal, log, close
    the listener, remove the job from the registry, publish the stopped
    event of that job, so that no step is done twice or out of order, and
    a goroutine at its end has done each once; between the stop signal and
    its end the goroutine can always run; and run from a waiting stop
    signal it does exactly these steps, with their effects on the
    transport, the registry and the broker, and then nothing more. *)
Theorem supervisor_shutdown_in_order w :
  reachable w →
  (∀ k job, Active w !! k = Some job →
     ∃ g ln p, (p ≤ 3)%nat
       ∧ goroutines w !! g = Some (drop p (supervisor job ln))
       ∧ by_goroutine g (trace w) = take p (shutdown g job ln))
  ∧ (∀ g prog, goroutines w !! g = Some prog →
     ∃ job ln p, (p ≤ 5)%nat
       ∧ prog = drop p (supervisor job ln)
       ∧ by_goroutine g (trace w) = take p (shutdown g job ln)
       ∧ ((1 ≤ p < 5)%nat → is_Some (run_goroutine g w)))
  ∧ (∀ g job ln,
       goroutines w !! g = Some (supervisor job ln) →
       JobCtrl job ∈ sends w →
       ∃ w', run_goroutine_n 5 g w = Some w'
         ∧ rtc step w w'
         ∧ trace w'
           = trace w ++ [ ARecv g (JobCtrl job);
                          ALogStopping g (ID job);
                          AClose g ln;
                          ARemoveJob g job;
                          APublish g {| EventJob := job;
                                        EventType := StoppedEvent |} ]
         ∧ net w' = Close ln (net w)
         ∧ Active w' = delete (ID job) (Active w)
         ∧ published w'
           = published w ++ [{| EventJob := job; EventType := StoppedEvent |}]
         ∧ goroutines w' !! g = Some []
         ∧ run_goroutine g w' = None).
Proof.
  intros HI%reachable_Inv. split; [|split].
  - intros k job Hk.
    destruct (Inv_registered w k job HI Hk) as (g & ln & p & Hat & Hp & _).
    exists g, ln, p. destruct Hat. by repeat split.
  - intros g prog Hg.
    assert (g < length (goroutines w))%nat as Hlt by (by eapply lookup_lt_Some).
    destruct (inv_goroutines w HI g Hlt) as (job & ln & p & Hat).
    exists job, ln, p. pose proof Hat as [H1 H2 H3 H4 H5 H6].
    rewrite Hg in H4. injection H4 as ->.
    repeat split; try done.
    intros Hp. by eapply run_goroutine_ready.
  - intros g job ln Hg Hsend.
    pose proof (run_supervisor g job ln w Hg Hsend) as Hrun.
    eexists. split; [exact Hrun|].
    split; [by eapply run_goroutine_n_steps|]. cbn.
    repeat split; try done.
    + apply list_lookup_insert_eq. by eapply lookup_lt_Some.
    + unfold run_goroutine. cbn.
      rewrite list_lookup_insert_eq; [done | by eapply lookup_lt_Some].
Qed.

(** ** The order of registration and start *)

(** C3, as the code has it: in a call that succeeds the goroutine is
    started first and the job registered next, registration being the
    last thing done before the identifier of the registered job is
    returned; the goroutine started has done nothing at that point and
    waits for the stop signal, its steps coming later, each as a step of
    the server. *)
Theorem started_then_registered bindIface port w ln t :
  reachable w →
  StartClientListener bindIface port (net w) = (inl ln, t) →
  let r := jobStartClientListener bindIface port w in
  ∃ job g,
    trace r.2
    = trace w ++ [ ABind bindIface port; AGetJobID (ID job);
                   AMakeChan (JobCtrl job); AGo g; AAddJob job ]
    ∧ r.1 = (ID job, None)
    ∧ Active r.2 !! ID job = Some job
    ∧ goroutines w !! g = None
    ∧ goroutines r.2 !! g = Some (supervisor job ln)
    ∧ by_goroutine g (trace r.2) = []
    ∧ run_goroutine g r.2 = None
    ∧ (∀ w', run_goroutine g (StopJob (ID job) r.2).2 = Some w' →
             step (StopJob (ID job) r.2).2 w')
    ∧ is_Some (run_goroutine g (StopJob (ID job) r.2).2).
Proof.
  intros HI%reachable_Inv Hb r.
  pose proof (Inv_jobStartClientListener bindIface port w HI) as HI'.
  fold r in HI'. revert HI'. unfold r.
  rewrite (jobStartClientListener_ok _ _ _ _ _ Hb (Inv_fresh_ID w HI)).
  set (job := listener_job (jobID w + 1) port (chans w)).
  cbn. intros HI'.
  exists job, (length (goroutines w)). cbn.
  assert ((goroutines w ++ [supervisor job ln]) !! length (goroutines w)
          = Some (supervisor job ln)) as Hg.
  { rewrite lookup_app_r by lia. by rewrite Nat.sub_diag. }
  repeat split; try done.
  - by rewrite lookup_insert_eq.
  - apply lookup_ge_None. lia.
  - rewrite by_goroutine_app, (inv_unborn w HI) by lia. done.
  - unfold run_goroutine. cbn. rewrite Hg. cbn.
    rewrite decide_False; [done|].
    intros Hin. apply (inv_sends w HI) in Hin. lia.
  - intros w' Hrun. apply (step_goroutine (length (goroutines w))); [|done].
    unfold StopJob. cbn. rewrite lookup_insert_eq. cbn.
    apply (inv_alive w HI).
  - unfold StopJob, run_goroutine. cbn. rewrite lookup_insert_eq. cbn.
    rewrite Hg. cbn. rewrite decide_True; [done|].
    apply elem_of_app. right. by apply list_elem_of_singleton.
Qed.

(** ** The call of [jobStartClientListener] *)

(** C2: when the bind fails, the bind error goes back to the caller, and
    nothing is built: no identifier is allocated, no channel made, no
    goroutine started, the registry and the published events are what
    they were; the call to the transport is all that happened. *)
Theorem bind_failure_builds_nothing bindIface port w err t :
  StartClientListener bindIface port (net w) = (inr err, t) →
  let r := jobStartClientListener bindIface port w in
  r.1.2 = Some err
  ∧ Active r.2 = Active w
  ∧ published r.2 = published w
  ∧ jobID r.2 = jobID w
  ∧ chans r.2 = chans w
  ∧ goroutines r.2 = goroutines w
  ∧ sends r.2 = sends w
  ∧ panicked r.2 = panicked w
  ∧ trace r.2 = trace w ++ [ABind bindIface port].
Proof.
  intros Hb r. unfold r.
  rewrite (jobStartClientListener_fail _ _ _ _ _ Hb). by cbn.
Qed.

(** C5: when the bind succeeds, the job built and registered has the
    identifier just allocated, which no registered job has and which was
    never handed out before, the name rpc, the description client listener,
    the protocol tcp, the port asked for, and a channel just made, on which
    no send is waiting and which no other goroutine reads; the identifier
    returned is that of the registered job. *)
Theorem bind_success_registers_job bindIface port w ln t :
  reachable w →
  StartClientListener bindIface port (net w) = (inl ln, t) →
  let r := jobStartClientListener bindIface port w in
  ∃ job,
    r.1 = (ID job, None)
    ∧ Active r.2 = <[ID job := job]> (Active w)
    ∧ Active w !! ID job = None
    ∧ ID job = (GetJobID w).1
    ∧ (ID job ∉ allocated (trace w))
    ∧ Name job = "rpc"
    ∧ Description job = "client listener"
    ∧ Protocol job = "tcp"
    ∧ Port job = port
    ∧ JobCtrl job = (make_chan w).1
    ∧ (JobCtrl job ∉ sends w)
    ∧ (∀ g prog, goroutines w !! g = Some prog → IRecv (JobCtrl job) ∉ prog)
    ∧ goroutines r.2 = goroutines w ++ [supervisor job ln]
    ∧ panicked r.2 = false.
Proof.
  intros HI%reachable_Inv Hb r. unfold r.
  rewrite (jobStartClientListener_ok _ _ _ _ _ Hb (Inv_fresh_ID w HI)).
  exists (listener_job (jobID w + 1) port (chans w)). cbn.
  repeat split; try done.
  - by apply Inv_fresh_ID.
  - rewrite (inv_allocated w HI). intros Hin%elem_of_seqZ. lia.
  - intros Hin%(inv_sends w HI). lia.
  - intros g prog Hg Hin.
    assert (g < length (goroutines w))%nat as Hlt by (by eapply lookup_lt_Some).
    destruct (inv_goroutines w HI g Hlt) as (job & ln' & p & Hat).
    pose proof (at_prog _ _ _ _ _ Hat) as Hprog.
    rewrite Hg in Hprog. injection Hprog as ->.
    apply (subseteq_drop p) in Hin. cbn in Hin.
    pose proof (at_JobCtrl _ _ _ _ _ Hat) as Hch.
    rewrite (inv_chans w HI) in Hin.
    repeat (apply elem_of_cons in Hin as [Hin|Hin]; [inversion Hin; lia|]).
    by apply elem_of_nil in Hin.
  - by apply (inv_alive w HI).
Qed.

(** C8: when the bind fails, the integer returned with the error is -1;
    every identifier returned by a call that succeeds, and every
    identifier in the registry, is at least 1, so -1 tells a failure from
    every identifier. *)
Theorem bind_failure_sentinel bindIface port w :
  reachable w →
  let r := (jobStartClientListener bindIface port w).1 in
  (∀ err t, StartClientListener bindIface port (net w) = (inr err, t) →
            r = (-1, Some err))
  ∧ (∀ ln t, StartClientListener bindIface port (net w) = (inl ln, t) →
             r.2 = None ∧ 1 ≤ r.1)
  ∧ (r.1 = -1 ↔ is_Some r.2)
  ∧ (∀ k job, Active w !! k = Some job → 1 ≤ ID job)
  ∧ Forall (λ id, 1 ≤ id) (allocated (trace w)).
Proof.
  intros HI%reachable_Inv r. unfold r.
  pose proof (inv_jobID w HI) as HjobID.
  destruct (StartClientListener bindIface port (net w)) as [[ln|err] t] eqn:Hb.
  - rewrite (jobStartClientListener_ok _ _ _ _ _ Hb (Inv_fresh_ID w HI)). cbn.
    split; [done|]. split; [intros; split; [done | lia]|].
    split; [split; [lia | by intros [? ?]]|].
    split.
    + intros k job Hk.
      destruct (Inv_registered w k job HI Hk) as (g & ? & p & Hat & _ & _).
      rewrite (at_ID _ _ _ _ _ Hat). lia.
    + rewrite (inv_allocated w HI). apply Forall_forall.
      intros id Hid%elem_of_seqZ. lia.
  - rewrite (jobStartClientListener_fail _ _ _ _ _ Hb). cbn.
    split; [by intros ? ? [= -> ->]|]. split; [done|].
    split; [by split|].
    split.
    + intros k job Hk.
      destruct (Inv_registered w k job HI Hk) as (g & ? & p & Hat & _ & _).
      rewrite (at_ID _ _ _ _ _ Hat). lia.
    + rewrite (inv_allocated w HI). apply Forall_forall.
      intros id Hid%elem_of_seqZ. lia.
Qed.

(** ** The identifiers *)





(** ** Stopping a job *)

(** C7: for an identifier that is not in the registry, [StopJob] returns
    the not-found error and leaves the server as it was, registry
    included; for an identifier that is, it sends on the stop channel of
    that job once and changes nothing in the registry. *)
Theorem StopJob_not_found_or_one_send id w :
  (Active w !! id = None → StopJob id w = (Some ErrNotFound, w))
  ∧ (∀ job, Active w !! id = Some job →
       (StopJob id w).1 = None
       ∧ trace (StopJob id w).2 = trace w ++ [ASend (JobCtrl job)]
       ∧ sends (StopJob id w).2 = sends w ++ [JobCtrl job]
       ∧ Active (StopJob id w).2 = Active w).
Proof.
  unfold StopJob. split.
  - by intros ->.
  - by intros job ->.
Qed.

(** ** The command *)

Lemma uint16_mod v : uint16 v = v mod 2 ^ 16.
Proof. unfold uint16. by rewrite Z.land_ones. Qed.

(** C9: the command keeps the low sixteen bits of the lport flag: the
    port it binds, and the port of the job it registers when the bind
    succeeds, is the flag modulo 2^16; a flag of 65536 binds port 0. *)
Theorem lport_truncated_to_16_bits ctx w :
  reachable w →
  let v := Flags_Int ctx "lport" in
  let server := Flags_String ctx "server" in
  let w' := (startMultiplayerModeCmd ctx w).2 in
  uint16 v = v mod 2 ^ 16
  ∧ (∃ rest, trace w' = trace w ++ ABind server (v mod 2 ^ 16) :: rest)
  ∧ (∀ ln t,
       StartClientListener server (v mod 2 ^ 16) (net w) = (inl ln, t) →
       ∃ job, Active w' = <[ID job := job]> (Active w)
              ∧ Port job = v mod 2 ^ 16
              ∧ AAddJob job ∈ trace w')
  ∧ (v = 65536 → uint16 v = 0).
Proof.
  intros HI%reachable_Inv v server w'.
  split; [apply uint16_mod|]. split; [|split]; [| |by intros ->].
  - unfold w', startMultiplayerModeCmd, mbind, M_bind.
    fold v server. rewrite uint16_mod.
    destruct (StartClientListener server (v mod 2 ^ 16) (net w))
      as [[ln|err] t] eqn:Hb.
    + rewrite (jobStartClientListener_ok _ _ _ _ _ Hb (Inv_fresh_ID w HI)).
      cbn. rewrite <- app_assoc. by eexists.
    + rewrite (jobStartClientListener_fail _ _ _ _ _ Hb).
      cbn. rewrite <- app_assoc. by eexists.
  - intros ln t Hb.
    unfold w', startMultiplayerModeCmd, mbind, M_bind.
    fold v server. rewrite uint16_mod.
    rewrite (jobStartClientListener_ok _ _ _ _ _ Hb (Inv_fresh_ID w HI)).
    cbn. eexists (listener_job _ _ _). split; [reflexivity|].
    split; [reflexivity|].
    rewrite !elem_of_app. left. right. cbn. do 4 right. left.
Qed.

End WithTransport.

(** ** The server on the port table *)

Lemma reachable_w_started : reachable w_started.
Proof.
  exists []. apply rtc_once. apply (step_cmd ctx9000). reflexivity.
Qed.

Lemma reachable_w_stopping : reachable w_stopping.
Proof.
  destruct reachable_w_started as [t Hrtc]. exists t.
  eapply rtc_r; [exact Hrtc|]. apply (step_stop 1). by vm_compute.
Qed.



Lemma reachable_w_busy : reachable w_busy.
Proof. exists [9000]. apply rtc_refl. Qed.

Lemma trace_w_started :
  trace w_started
  = [ ABind "0.0.0.0" 9000; AGetJobID 1; AMakeChan 0%nat; AGo 0;
      AAddJob (listener_job 1 9000 0%nat);
      APrintf (Info +:+ "Multiplayer mode enabled!" +:+ nl) ].
Proof. by vm_compute. Qed.

(** *** The goroutine of job 1, from the stop signal to its end *)

Lemma supervisor_shutdown_in_order_witness :
  reachable w_stopping
  ∧ ∃ w', run_goroutine_n 5 0 w_stopping = Some w'
          ∧ trace w'
            = trace w_stopping
              ++ [ ARecv 0 0%nat; ALogStopping 0 1; @AClose PortTable 0 9000;
                   ARemoveJob 0 (listener_job 1 9000 0%nat);
                   APublish 0 (stopped (listener_job 1 9000 0%nat)) ]
          ∧ Active w' = delete 1 (Active w_stopping)
          ∧ published w'
            = published w_stopping ++ [stopped (listener_job 1 9000 0%nat)]
          ∧ run_goroutine 0 w' = None.
Proof.
  split; [exact reachable_w_stopping|].
  destruct (supervisor_shutdown_in_order w_stopping reachable_w_stopping)
    as (_ & _ & Hrun).
  destruct (Hrun 0%nat (listener_job 1 9000 0%nat) (9000 : Z))
    as (w' & H1 & _ & H2 & _ & H3 & H4 & _ & H5).
  - reflexivity.
  - vm_compute. left.
  - exists w'. repeat split; assumption.
Defined.

(** *** Port 9000 taken: the bind fails *)

Lemma bind_failure_builds_nothing_witness :
  StartClientListener (Transport := PortTable) "0.0.0.0" 9000 (net w_busy)
  = (inr port_in_use, [9000])
  ∧ (jobStartClientListener "0.0.0.0" 9000 w_busy).1.2 = Some port_in_use
  ∧ Active (jobStartClientListener "0.0.0.0" 9000 w_busy).2 = Active w_busy
  ∧ published (jobStartClientListener "0.0.0.0" 9000 w_busy).2
    = published w_busy
  ∧ goroutines (jobStartClientListener "0.0.0.0" 9000 w_busy).2
    = goroutines w_busy.
Proof.
  assert (StartClientListener (Transport := PortTable) "0.0.0.0" 9000
            (net w_busy) = (inr port_in_use, [9000])) as Hb
    by reflexivity.
  split; [exact Hb|].
  destruct (bind_failure_builds_nothing "0.0.0.0" 9000 w_busy port_in_use
              [9000] Hb) as (H1 & H2 & H3 & _ & _ & H4 & _).
  repeat split; assumption.
Defined.

Lemma bind_failure_sentinel_witness :
  reachable w_busy
  ∧ (jobStartClientListener "0.0.0.0" 9000 w_busy).1 = (-1, Some port_in_use)
  ∧ ((jobStartClientListener "0.0.0.0" 9000 w_busy).1.1 = -1
     ↔ is_Some (jobStartClientListener "0.0.0.0" 9000 w_busy).1.2).
Proof.
  split; [exact reachable_w_busy|].
  destruct (bind_failure_sentinel "0.0.0.0" 9000 w_busy reachable_w_busy)
    as (H1 & _ & H2 & _).
  split; [|exact H2].
  apply (H1 port_in_use [9000]). reflexivity.
Defined.

(** *** A second listener, on port 9001 *)

Lemma bind_success_registers_job_witness :
  reachable w_started
  ∧ StartClientListener (Transport := PortTable) "0.0.0.0" 9001
      (net w_started) = (inl 9001, [9001; 9000])
  ∧ ∃ job,
      (jobStartClientListener "0.0.0.0" 9001 w_started).1 = (ID job, None)
      ∧ Active (jobStartClientListener "0.0.0.0" 9001 w_started).2
        = <[ID job := job]> (Active w_started)
      ∧ Active w_started !! ID job = None
      ∧ ID job = 2
      ∧ Port job = 9001.
Proof.
  assert (StartClientListener (Transport := PortTable) "0.0.0.0" 9001
            (net w_started) = (inl 9001, [9001; 9000])) as Hb
    by (vm_compute; reflexivity).
  split; [exact reachable_w_started|]. split; [exact Hb|].
  destruct (bind_success_registers_job "0.0.0.0" 9001 w_started 9001
              [9001; 9000] reachable_w_started Hb)
    as (job & H1 & H2 & H3 & H4 & _ & _ & _ & _ & H5 & _).
  exists job. repeat split; assumption.
Defined.

(** *** The first listener: started, then registered *)

Lemma started_then_registered_witness :
  reachable (@init PortTable [])
  ∧ StartClientListener (Transport := PortTable) "0.0.0.0" 9000 []
    = (inl 9000, [9000])
  ∧ ∃ job g,
      trace (jobStartClientListener "0.0.0.0" 9000 (@init PortTable [])).2
      = [ ABind "0.0.0.0" 9000; AGetJobID (ID job); AMakeChan (JobCtrl job);
          AGo g; AAddJob job ]
      ∧ run_goroutine g
          (jobStartClientListener "0.0.0.0" 9000 (@init PortTable [])).2
        = None.
Proof.
  assert (reachable (@init PortTable [])) as Hr
    by (exists []; apply rtc_refl).
  assert (StartClientListener (Transport := PortTable) "0.0.0.0" 9000
            (net (@init PortTable [])) = (inl 9000, [9000])) as Hb
    by reflexivity.
  split; [exact Hr|]. split; [exact Hb|].
  destruct (started_then_registered "0.0.0.0" 9000 (@init PortTable []) 9000
              [9000] Hr Hb)
    as (job & g & H1 & _ & _ & _ & _ & _ & H2 & _).
  exists job, g. split; assumption.
Defined.

(** C3, the order the claim gives: on the first listener the goroutine is
    started at position 3 of the trace and the job registered at position
    4, so registration does not come before the start. *)
Lemma registered_before_started_counterexample :
  trace w_started !! 3%nat = Some (AGo 0)
  ∧ trace w_started !! 4%nat = Some (AAddJob (listener_job 1 9000 0%nat))
  ∧ ¬ registered_before_started (trace w_started).
Proof.
  rewrite trace_w_started. split; [done|]. split; [done|].
  intros (i & j & job & g & Hi & Hj & Hlt).
  destruct i as [|[|[|[|[|[|i]]]]]]; try done.
  destruct j as [|[|[|[|[|[|j]]]]]]; try done; lia.
Qed.

(** *** The identifiers of the whole run *)


(** *** Stopping job 1, and stopping a job that is not there *)

Lemma StopJob_not_found_or_one_send_witness :
  Active w_started !! 2 = None
  ∧ Active w_started !! 1 = Some (listener_job 1 9000 0%nat)
  ∧ StopJob 2 w_started = (Some ErrNotFound, w_started)
  ∧ (StopJob 1 w_started).1 = None
  ∧ trace (StopJob 1 w_started).2 = trace w_started ++ [ASend 0%nat]
  ∧ Active (StopJob 1 w_started).2 = Active w_started.
Proof.
  assert (Active w_started !! 2 = None) as Hno by (vm_compute; reflexivity).
  assert (Active w_started !! 1 = Some (listener_job 1 9000 0%nat)) as Hyes
    by (vm_compute; reflexivity).
  split; [exact Hno|]. split; [exact Hyes|].
  destruct (StopJob_not_found_or_one_send 2 w_started) as [H2 _].
  destruct (StopJob_not_found_or_one_send 1 w_started) as [_ H1].
  destruct (H1 _ Hyes) as (Ha & Hb & _ & Hc).
  split; [exact (H2 Hno)|]. split; [exact Ha|]. split; [exact Hb | exact Hc].
Defined.

(** *** A flag beyond sixteen bits *)

Lemma lport_truncated_to_16_bits_witness :
  reachable (@init PortTable [])
  ∧ Flags_Int ctx74536 "lport" = 74536
  ∧ uint16 74536 = 9000
  ∧ ∃ rest,
      trace (startMultiplayerModeCmd ctx74536 (@init PortTable [])).2
      = ABind "0.0.0.0" 9000 :: rest.
Proof.
  assert (reachable (@init PortTable [])) as Hr
    by (exists []; apply rtc_refl).
  split; [exact Hr|]. split; [reflexivity|]. split; [reflexivity|].
  destruct (lport_truncated_to_16_bits ctx74536 (@init PortTable []) Hr)
    as (_ & [rest Hrest] & _).
  exists rest. exact Hrest.
Defined.

End ConsoleProofs.

(** * Properties of package macros *)
Module MacrosProofs.
Import Macros.

(** C10: for the linux target [getDefaultProcess] returns the Windows
    notepad path and no error, because the map holds the Windows constant
    under linux; and /bin/bash, the Linux constant, is returned for no
    target. *)
Theorem linux_target_gets_notepad :
  (∀ ec, getDefaultProcess ec "linux"
         = ("c:\windows\system32\notepad.exe", None))
  ∧ defaultHostProc !! "linux" = Some windowsDefaultHostProc
  ∧ linuxDefaultHostProc = "/bin/bash"
  ∧ (∀ ec targetOS, (getDefaultProcess ec targetOS).1 ≠ linuxDefaultHostProc).
Proof.
  split; [done|]. split; [done|]. split; [done|].
  intros ec targetOS. unfold getDefaultProcess, defaultHostProc.
  rewrite !lookup_insert, lookup_empty.
  repeat case_decide; by cbn.
Qed.

End MacrosProofs.

(** * More of package macros *)
Module MacrosExtra.
Import Macros.

(** X1: [getDefaultProcess] fails exactly for the targets other than
    windows, linux and darwin; when it fails the process is empty, and
    when it succeeds the process is not. *)
Theorem getDefaultProcess_unknown_target ec targetOS :
  (is_Some (getDefaultProcess ec targetOS).2
   ↔ targetOS ≠ "windows" ∧ targetOS ≠ "linux" ∧ targetOS ≠ "darwin")
  ∧ ((getDefaultProcess ec targetOS).1 = EmptyString
     ↔ is_Some (getDefaultProcess ec targetOS).2)
  ∧ (is_Some (getDefaultProcess ec targetOS).2 →
     (getDefaultProcess ec targetOS).2
     = Some ("no default process for " +:+ targetOS
             +:+ " target, please specify one")).
Proof.
  unfold getDefaultProcess, defaultHostProc.
  rewrite !lookup_insert, lookup_empty.
  repeat case_decide; subst; cbn.
  all: split; [split; [by intros [? [=]] || (intros; by repeat split)
                      | (intros (? & ? & ?); done) || eauto]|].
  all: split; [split; [done || eauto | by intros [? [=]] || done]|].
  all: by intros [? [=]] || done.
Qed.

Lemma getDefaultProcess_unknown_target_witness :
  is_Some (getDefaultProcess seatbelt "freebsd").2
  ∧ (getDefaultProcess seatbelt "freebsd").2
    = Some "no default process for freebsd target, please specify one".
Proof.
  assert (is_Some (getDefaultProcess seatbelt "freebsd").2) as H
    by (vm_compute; eauto).
  split; [exact H|].
  destruct (getDefaultProcess_unknown_target seatbelt "freebsd")
    as (_ & _ & Hmsg).
  exact (Hmsg H).
Defined.

(** ** [getCommandFromName] *)

Lemma getCommandFromName_loop_Some cmds name c :
  getCommandFromName_loop cmds name = Some c →
  ∃ pre post, cmds = pre ++ c :: post ∧ Name c = name
              ∧ Forall (λ x, Name x ≠ name) pre.
Proof.
  induction cmds as [|x cmds IH]; cbn; [done|].
  destruct (decide (Name x = name)) as [Heq|Hne].
  - intros [= ->]. by exists [], cmds.
  - intros (pre & post & -> & Hn & Hpre)%IH.
    exists (x :: pre), post. repeat split; [done|]. by constructor.
Qed.




(** ** [getFileForTarget] *)

Section FileForTarget.
Variable filepath_Join : string → string → string.

Lemma fold_files_last (F : macroFile → string) targetOS files acc :
  fold_left (λ filePath ef, if decide (targetOS = OS ef) then F ef
                            else filePath) files acc
  = from_option F acc (last (filter (λ ef, targetOS = OS ef) files)).
Proof.
  revert acc. induction files as [|ef files IH]; intros acc; cbn; [done|].
  rewrite IH. destruct (decide (targetOS = OS ef)); [|done].
  rewrite last_cons. by destruct (last _).
Qed.

Lemma fold_commands_last (F : macroFile → string) cmdName targetOS cmds acc :
  fold_left
    (λ filePath c,
       if decide (cmdName = Name c) then
         fold_left (λ filePath ef, if decide (targetOS = OS ef) then F ef
                                   else filePath) (MacroFiles c) filePath
       else filePath) cmds acc
  = from_option F acc
      (last (c ← cmds;
             if decide (cmdName = Name c)
             then filter (λ ef, targetOS = OS ef) (MacroFiles c) else [])).
Proof.
  revert acc. induction cmds as [|c cmds IH]; intros acc; cbn; [done|].
  rewrite IH. destruct (decide (cmdName = Name c)); cbn; [|done].
  rewrite fold_files_last, last_app.
  by destruct (last (mbind _ cmds)).
Qed.

Lemma getFileForTarget_path e cmdName targetOS targetArch :
  (getFileForTarget filepath_Join e cmdName targetOS targetArch).1
  = from_option
      (λ ef, filepath_Join (Path e) (arch_path targetArch ef))
      EmptyString
      (last (matching_files e cmdName targetOS)).
Proof.
  unfold getFileForTarget, matching_files.
  set (F := λ ef : macroFile,
         if decide (targetArch = "x86")
         then filepath_Join (Path e) (Ext32Path (Files ef))
         else if decide (targetArch = "x64")
         then filepath_Join (Path e) (Ext64Path (Files ef))
         else filepath_Join (Path e) (Ext64Path (Files ef))).
  rewrite (fold_commands_last F).
  assert (∀ ef, F ef = filepath_Join (Path e) (arch_path targetArch ef))
    as HF.
  { intros ef. unfold F, arch_path. by repeat case_decide. }
  match goal with |- (if ?d then _ else _).1 = _ => destruct d end; cbn.
  all: destruct (last _) as [ef|]; cbn; [apply HF | done].
Qed.

(** X3: of all the files of the commands called [cmdName] that are for
    [targetOS], [getFileForTarget] answers with the last one in the order
    of the manifest, joined to the path of the macro: the 32-bit file for
    x86, the 64-bit file for every other architecture; with no such file
    the path is empty. *)
Theorem getFileForTarget_last_match e cmdName targetOS targetArch :
  (getFileForTarget filepath_Join e cmdName targetOS targetArch).1
  = from_option
      (λ ef, filepath_Join (Path e) (arch_path targetArch ef))
      EmptyString
      (last (matching_files e cmdName targetOS)).
Proof.
  unfold getFileForTarget, matching_files.
  set (F := λ ef : macroFile,
         if decide (targetArch = "x86")
         then filepath_Join (Path e) (Ext32Path (Files ef))
         else if decide (targetArch = "x64")
         then filepath_Join (Path e) (Ext64Path (Files ef))
         else filepath_Join (Path e) (Ext64Path (Files ef))).
  rewrite (fold_commands_last F).
  assert (∀ ef, F ef = filepath_Join (Path e) (arch_path targetArch ef))
    as HF.
  { intros ef. unfold F, arch_path. by repeat case_decide. }
  match goal with |- (if ?d then _ else _).1 = _ => destruct d end; cbn.
  all: destruct (last _) as [ef|]; cbn; [apply HF | done].
Qed.

(** X4: an architecture that is not x86, known or not, gets the file that
    x64 gets. *)
Theorem getFileForTarget_other_arch_is_x64 e cmdName targetOS targetArch :
  targetArch ≠ "x86" →
  (getFileForTarget filepath_Join e cmdName targetOS targetArch).1
  = (getFileForTarget filepath_Join e cmdName targetOS "x64").1.
Proof.
  intros Hne. rewrite !getFileForTarget_path.
  destruct (last _) as [ef|]; cbn; [|done].
  unfold arch_path. rewrite decide_False by done. by rewrite decide_False.
Qed.

(** X5: [getFileForTarget] fails when no command of that name has a file
    for the target system, the path being empty and the error naming the
    system and the architecture; and when joining to the path of the
    macro never gives the empty path, it fails in that case only. *)
Theorem getFileForTarget_error_iff_no_file e cmdName targetOS targetArch :
  (matching_files e cmdName targetOS = [] →
   getFileForTarget filepath_Join e cmdName targetOS targetArch
   = (EmptyString,
      Some ("no macro file found for " +:+ targetOS +:+ "/" +:+ targetArch)))
  ∧ ((∀ file, filepath_Join (Path e) file ≠ EmptyString) →
     (is_Some (getFileForTarget filepath_Join e cmdName targetOS targetArch).2
      ↔ matching_files e cmdName targetOS = [])).
Proof.
  pose proof (getFileForTarget_path e cmdName targetOS targetArch)
    as Hlast.
  unfold getFileForTarget in *.
  destruct (decide _) as [Heq|Hne]; cbn in *.
  - split; [intros _; by rewrite Heq|].
    intros Hjoin. split; [|by eauto]. intros _.
    rewrite Heq in Hlast.
    destruct (last (matching_files e cmdName targetOS)) as [ef|] eqn:Hl.
    + cbn in Hlast. by destruct (Hjoin (arch_path targetArch ef)).
    + by apply last_None in Hl.
  - split.
    + intros Hnil. rewrite Hnil in Hlast. by cbn in Hlast.
    + intros _. split; [by intros [? [=]]|].
      intros Hnil. rewrite Hnil in Hlast. by cbn in Hlast.
Qed.

(** X6: when no two commands of the macro have the same name, the file
    that [getFileForTarget] finds for a name belongs to the command that
    [getCommandFromName] finds for it, the two lookups that
    [runMacroCommand] makes one after the other. *)
Theorem getFileForTarget_of_found_command e name targetOS targetArch c :
  NoDup (Name <$> macroCommands e) →
  (getCommandFromName e name).1 = Some c →
  (getFileForTarget filepath_Join e name targetOS targetArch).1
  = from_option
      (λ ef, filepath_Join (Path e) (arch_path targetArch ef))
      EmptyString
      (last (filter (λ ef, targetOS = OS ef) (MacroFiles c))).
Proof.
  intros Hnd Hc. rewrite getFileForTarget_path.
  unfold getCommandFromName in Hc.
  destruct (getCommandFromName_loop (macroCommands e) name) as [c'|]
    eqn:Hfound; [|done].
  cbn in Hc. injection Hc as ->.
  destruct (getCommandFromName_loop_Some _ _ _ Hfound)
    as (pre & post & Hcmds & Hname & Hpre).
  unfold matching_files. rewrite Hcmds in *.
  rewrite fmap_app, fmap_cons in Hnd.
  apply NoDup_app in Hnd as (_ & _ & Hnd).
  apply NoDup_cons in Hnd as [Hnotin _].
  assert (∀ l : list macroCommand,
            Forall (λ x, Name x ≠ name) l →
            (x ← l; if decide (name = Name x)
                    then filter (λ ef, targetOS = OS ef) (MacroFiles x)
                    else []) = []) as Hnone.
  { induction l as [|x l IH]; [done|]. intros [Hx Hl]%Forall_cons. cbn.
    rewrite decide_False by done. by apply IH. }
  rewrite bind_app, bind_cons, (Hnone pre Hpre).
  rewrite decide_True by done. rewrite Hnone, app_nil_r; [done|].
  apply Forall_forall. intros x Hx Heq. apply Hnotin.
  rewrite Hname, <- Heq. by apply list_elem_of_fmap_2.
Qed.

End FileForTarget.

Lemma getFileForTarget_other_arch_is_x64_witness :
  "arm64" ≠ "x86"
  ∧ (getFileForTarget join_slash tools "whoami" "linux" "arm64").1
    = (getFileForTarget join_slash tools "whoami" "linux" "x64").1.
Proof.
  assert ("arm64" ≠ "x86") as H by discriminate.
  split; [exact H|].
  exact (getFileForTarget_other_arch_is_x64 join_slash tools "whoami" "linux"
           "arm64" H).
Defined.

Lemma getFileForTarget_error_iff_no_file_witness :
  matching_files tools "whoami" "darwin" = []
  ∧ (∀ file, join_slash (Path tools) file ≠ EmptyString)
  ∧ getFileForTarget join_slash tools "whoami" "darwin" "x64"
    = (EmptyString, Some "no macro file found for darwin/x64")
  ∧ (is_Some (getFileForTarget join_slash tools "whoami" "linux" "x64").2
     ↔ matching_files tools "whoami" "linux" = []).
Proof.
  assert (matching_files tools "whoami" "darwin" = []) as Hnil by reflexivity.
  assert (∀ file, join_slash (Path tools) file ≠ EmptyString) as Hjoin.
  { intros file. unfold join_slash. cbn.
    destruct (decide (file = EmptyString)); discriminate. }
  split; [exact Hnil|]. split; [exact Hjoin|].
  destruct (getFileForTarget_error_iff_no_file join_slash tools "whoami"
              "darwin" "x64") as [H1 _].
  destruct (getFileForTarget_error_iff_no_file join_slash tools "whoami"
              "linux" "x64") as [_ H2].
  split; [exact (H1 Hnil) | exact (H2 Hjoin)].
Defined.

Lemma getFileForTarget_of_found_command_witness :
  NoDup (Name <$> macroCommands tools)
  ∧ (getCommandFromName tools "whoami").1 = Some whoami
  ∧ (getFileForTarget join_slash tools "whoami" "windows" "x86").1
    = "/opt/tools/whoami.x86.dll".
Proof.
  assert (NoDup (Name <$> macroCommands tools)) as Hnd.
  { apply (bool_decide_unpack _). vm_compute. exact I. }
  assert ((getCommandFromName tools "whoami").1 = Some whoami) as Hc
    by reflexivity.
  split; [exact Hnd|]. split; [exact Hc|].
  rewrite (getFileForTarget_of_found_command join_slash tools "whoami"
             "windows" "x86" whoami Hnd Hc).
  reflexivity.
Defined.

(** ** [LoadMacroCmd] *)

Lemma cmdExists_elem_of name cmds :
  cmdExists name cmds = true ↔ name ∈ Grumble.Name <$> cmds.
Proof.
  induction cmds as [|c cmds IH]; cbn.
  - split; [done|]. by intros ?%elem_of_nil.
  - destruct (decide (name = Grumble.Name c)) as [->|Hne].
    + split; [|done]. intros _. by left.
    + rewrite IH. split; [by right|].
      by intros [?|?]%elem_of_cons.
Qed.

Section Loading.
Variable ioutil_ReadFile : string → string + string.
Variable json_Unmarshal : string → macro * option string.
Variable help_FormatHelpTmpl : string → string.
Variable MacroHelpGroup : string.

#[local] Abbreviation built := (built_command help_FormatHelpTmpl MacroHelpGroup).
#[local] Abbreviation loop := (LoadMacroCmd_loop help_FormatHelpTmpl MacroHelpGroup).

Lemma built_names ext (cmds : list macroCommand) :
  Grumble.Name <$> (built ext <$> cmds) = Name <$> cmds.
Proof. rewrite <- list_fmap_compose. by apply list_fmap_ext. Qed.

(** The loop adds the commands in order up to the first whose name the
    shell has already, from before or from this macro. *)
Lemma LoadMacroCmd_loop_spec ext cmds st :
  ∃ k,
    (k ≤ length cmds)%nat
    ∧ ((loop ext cmds st).1 = true ↔ k = length cmds)
    ∧ app (loop ext cmds st).2 = app st ++ (built ext <$> take k cmds)
    ∧ (∀ i c, (i < k)%nat → cmds !! i = Some c →
         (Name c ∉ Grumble.Name <$> app st) ∧ (Name c ∉ Name <$> take i cmds))
    ∧ (∀ c, cmds !! k = Some c →
         Name c ∈ Grumble.Name <$> app st ∨ Name c ∈ Name <$> take k cmds)
    ∧ (∀ name,
         commandMap (loop ext cmds st).2 !! name
         = if decide (name ∈ Name <$> take k cmds) then Some ext
           else commandMap st !! name)
    ∧ output (loop ext cmds st).2
      = output st ++ (adding <$> take k cmds)
        ++ match cmds !! k with
           | Some c => [PrintErrorf (Name c +:+ " command already exists"
                                     +:+ nl)]
           | None => []
           end.
Proof.
  revert st. induction cmds as [|c cmds IH]; intros st.
  - exists 0%nat. cbn. rewrite !app_nil_r.
    repeat split; try done; try lia.
  - cbn [LoadMacroCmd_loop].
    destruct (cmdExists (Name c) (app st)) eqn:Hex.
    + exists 0%nat. cbn. rewrite app_nil_r.
      repeat split; try done; try lia.
      intros c' [= <-]. left. by apply cmdExists_elem_of.
    + set (st1 := AddCommand _ _).
      destruct (IH st1) as (k & Hk & Hfin & Happ & Hfresh & Hclash & Hmap & Hout).
      assert (Name c ∉ Grumble.Name <$> app st) as Hnew.
      { intros Hin%cmdExists_elem_of. congruence. }
      exists (S k). cbn [take length lookup list_lookup].
      split; [lia|]. split; [rewrite Hfin; lia|].
      split; [rewrite Happ; unfold st1; cbn; by rewrite <- app_assoc|].
      split; [|split; [|split]].
      * intros [|i] c' Hi Hc'; cbn in Hc'.
        -- injection Hc' as <-. split; [done|]. cbn. by intros ?%elem_of_nil.
        -- destruct (Hfresh i c' ltac:(lia) Hc') as [H1 H2].
           unfold st1 in H1. cbn in H1.
           rewrite fmap_app, elem_of_app in H1. cbn in H1.
           split; [tauto|]. cbn [take]; rewrite fmap_cons.
           intros [Heq|Hin]%elem_of_cons; [|done].
           apply H1. right. rewrite Heq. by left.
      * intros c' Hc'. cbn in Hc'.
        destruct (Hclash c' Hc') as [H1|H1].
        -- unfold st1 in H1. cbn in H1.
           rewrite fmap_app, elem_of_app in H1. cbn in H1.
           destruct H1 as [H1|H1]; [by left|].
           apply list_elem_of_singleton in H1. right.
           cbn [take]; rewrite fmap_cons.
           rewrite H1. by left.
        -- right. cbn [take]; rewrite fmap_cons. by right.
      * intros name. rewrite Hmap. unfold st1.
        cbn [take AddCommand set_commandMap print commandMap].
        rewrite fmap_cons.
        destruct (decide (name ∈ Name <$> take k cmds)) as [Hin|Hnin].
        -- rewrite decide_True; [done | by right].
        -- rewrite lookup_insert.
           destruct (decide (Name c = name)) as [<-|Hne].
           ++ rewrite decide_True; [done | by left].
           ++ rewrite decide_False; [done|].
              intros [?|?]%elem_of_cons; congruence.
      * rewrite Hout. unfold st1. cbn. rewrite <- !app_assoc. done.
Qed.

Lemma fresh_take_NoDup (seen : list string) (cmds : list macroCommand) k :
  NoDup seen →
  (∀ i c, (i < k)%nat → cmds !! i = Some c →
     (Name c ∉ seen) ∧ (Name c ∉ Name <$> take i cmds)) →
  NoDup (seen ++ (Name <$> take k cmds)).
Proof.
  intros Hseen. induction k as [|k IH]; intros Hfresh.
  - by rewrite take_0, app_nil_r.
  - destruct (cmds !! k) as [c|] eqn:Hc.
    + rewrite (take_S_r _ _ _ Hc), fmap_app, app_assoc. cbn.
      apply NoDup_app. split; [apply IH; intros; apply Hfresh; by try lia|].
      split; [|apply NoDup_singleton].
      intros name Hin ->%list_elem_of_singleton.
      destruct (Hfresh k c ltac:(lia) Hc) as [H1 H2].
      apply elem_of_app in Hin as [?|?]; done.
    + rewrite take_ge; [|apply lookup_ge_None in Hc; lia].
      rewrite <- (take_ge cmds k) at 1; [|by apply lookup_ge_None].
      apply IH. intros; apply Hfresh; by try lia.
Qed.

(** What [LoadMacroCmd] does once the manifest is read and parsed. *)
Lemma LoadMacroCmd_parsed ctx st bytes m :
  let dirPath := Grumble.Args_String ctx "dir-path" in
  ioutil_ReadFile (dirPath +:+ "/" +:+ "manifest.json") = inl bytes →
  json_Unmarshal bytes = (m, None) →
  let ext := mkMacro (macroName m) (macroCommands m) dirPath in
  LoadMacroCmd ioutil_ReadFile json_Unmarshal help_FormatHelpTmpl
       MacroHelpGroup ctx st
  = (if (loop ext (macroCommands m) st).1
     then print (PrintInfof (macroName m +:+ " macro has been loaded" +:+ nl))
                (loop ext (macroCommands m) st).2
     else (loop ext (macroCommands m) st).2).
Proof.
  intros dirPath Hread Hparse ext. unfold LoadMacroCmd. fold dirPath.
  rewrite Hread, Hparse. cbn. fold ext.
  by destruct (loop ext (macroCommands m) st) as [[] ?].
Qed.

(** X7: whatever the manifest, [LoadMacroCmd] leaves a shell whose
    commands had distinct names with commands of distinct names: it never
    adds a name twice, not even a name the manifest repeats. *)
Theorem LoadMacroCmd_keeps_names_distinct ctx st :
  NoDup (Grumble.Name <$> app st) →
  NoDup (Grumble.Name <$> app (LoadMacroCmd ioutil_ReadFile json_Unmarshal help_FormatHelpTmpl
       MacroHelpGroup ctx st)).
Proof.
  intros Hnd. unfold LoadMacroCmd.
  destruct (ioutil_ReadFile _) as [bytes|err].
  all: destruct (json_Unmarshal _) as [m [e|]]; [done|].
  all: match goal with
       | |- context [LoadMacroCmd_loop _ _ ?ext ?cmds ?st0] =>
           destruct (LoadMacroCmd_loop_spec ext cmds st0)
             as (k & _ & _ & Happ & Hfresh & _);
           destruct (loop ext cmds st0) as [[] st'] eqn:Hl
       end; cbn in *.
  all: rewrite Happ, fmap_app, built_names; by apply fresh_take_NoDup.
Qed.

Lemma LoadMacroCmd_parsed_spec ctx st bytes m :
  let dirPath := Grumble.Args_String ctx "dir-path" in
  ioutil_ReadFile (dirPath +:+ "/" +:+ "manifest.json") = inl bytes →
  json_Unmarshal bytes = (m, None) →
  let ext := mkMacro (macroName m) (macroCommands m) dirPath in
  let cmds := macroCommands m in
  ∃ k,
    (k ≤ length cmds)%nat
    ∧ app (LoadMacroCmd ioutil_ReadFile json_Unmarshal help_FormatHelpTmpl
       MacroHelpGroup ctx st) = app st ++ (built ext <$> take k cmds)
    ∧ (∀ i c, (i < k)%nat → cmds !! i = Some c →
         (Name c ∉ Grumble.Name <$> app st)
         ∧ (Name c ∉ Name <$> take i cmds))
    ∧ (∀ c, cmds !! k = Some c →
         Name c ∈ Grumble.Name <$> app st ∨ Name c ∈ Name <$> take k cmds)
    ∧ (∀ name,
         commandMap (LoadMacroCmd ioutil_ReadFile json_Unmarshal help_FormatHelpTmpl
       MacroHelpGroup ctx st) !! name
         = if decide (name ∈ Name <$> take k cmds) then Some ext
           else commandMap st !! name)
    ∧ output (LoadMacroCmd ioutil_ReadFile json_Unmarshal help_FormatHelpTmpl
       MacroHelpGroup ctx st)
      = output st ++ (adding <$> take k cmds)
        ++ match cmds !! k with
           | Some c => [PrintErrorf (Name c +:+ " command already exists"
                                     +:+ nl)]
           | None => [PrintInfof (macroName m +:+ " macro has been loaded"
                                  +:+ nl)]
           end.
Proof.
  intros dirPath Hread Hparse ext cmds. subst dirPath ext cmds.
  rewrite (LoadMacroCmd_parsed ctx st bytes m Hread Hparse). cbv zeta.
  set (ext := mkMacro _ _ _). set (cmds := macroCommands m).
  destruct (LoadMacroCmd_loop_spec ext cmds st)
    as (k & Hk & Hfin & Happ & Hfresh & Hclash & Hmap & Hout).
  exists k. destruct (loop ext cmds st) as [[] st'] eqn:Hl; cbn in *.
  - assert (k = length cmds) as Hlen by (by apply Hfin).
    do 5 (split; [done|]).
    rewrite Hout, (lookup_ge_None_2 cmds k) by lia.
    by rewrite app_nil_r, <- app_assoc.
  - do 5 (split; [done|]).
    rewrite Hout. destruct (cmds !! k) as [c|] eqn:Hc; [done|].
    apply lookup_ge_None in Hc.
    assert (k = length cmds) as Hlen by lia. by apply Hfin in Hlen.
Qed.

(** X8: with a manifest that is read and parsed, [LoadMacroCmd] adds the
    commands in the order of the manifest up to the first one whose name
    the shell has already, from before or from earlier in this manifest;
    the commands added before that one stay added.  Each added name is
    mapped to the macro, whose path is the directory given; the other
    entries of [commandMap] are untouched.  The console gets one line per
    added command, then the complaint about the command that exists or,
    when all were added, the line that the macro has been loaded. *)
Theorem LoadMacroCmd_until_first_clash ctx st bytes m :
  let dirPath := Grumble.Args_String ctx "dir-path" in
  ioutil_ReadFile (dirPath +:+ "/" +:+ "manifest.json") = inl bytes →
  json_Unmarshal bytes = (m, None) →
  let ext := mkMacro (macroName m) (macroCommands m) dirPath in
  let cmds := macroCommands m in
  ∃ k,
    (k ≤ length cmds)%nat
    ∧ app (LoadMacroCmd ioutil_ReadFile json_Unmarshal help_FormatHelpTmpl
       MacroHelpGroup ctx st) = app st ++ (built ext <$> take k cmds)
    ∧ (∀ i c, (i < k)%nat → cmds !! i = Some c →
         (Name c ∉ Grumble.Name <$> app st)
         ∧ (Name c ∉ Name <$> take i cmds))
    ∧ (∀ c, cmds !! k = Some c →
         Name c ∈ Grumble.Name <$> app st ∨ Name c ∈ Name <$> take k cmds)
    ∧ (∀ name,
         commandMap (LoadMacroCmd ioutil_ReadFile json_Unmarshal help_FormatHelpTmpl
       MacroHelpGroup ctx st) !! name
         = if decide (name ∈ Name <$> take k cmds) then Some ext
           else commandMap st !! name)
    ∧ output (LoadMacroCmd ioutil_ReadFile json_Unmarshal help_FormatHelpTmpl
       MacroHelpGroup ctx st)
      = output st ++ (adding <$> take k cmds)
        ++ match cmds !! k with
           | Some c => [PrintErrorf (Name c +:+ " command already exists"
                                     +:+ nl)]
           | None => [PrintInfof (macroName m +:+ " macro has been loaded"
                                  +:+ nl)]
           end.
Proof.
  intros dirPath Hread Hparse ext cmds. subst dirPath ext cmds.
  rewrite (LoadMacroCmd_parsed ctx st bytes m Hread Hparse). cbv zeta.
  set (ext := mkMacro _ _ _). set (cmds := macroCommands m).
  destruct (LoadMacroCmd_loop_spec ext cmds st)
    as (k & Hk & Hfin & Happ & Hfresh & Hclash & Hmap & Hout).
  exists k. destruct (loop ext cmds st) as [[] st'] eqn:Hl; cbn in *.
  - assert (k = length cmds) as Hlen by (by apply Hfin).
    do 5 (split; [done|]).
    rewrite Hout, (lookup_ge_None_2 cmds k) by lia.
    by rewrite app_nil_r, <- app_assoc.
  - do 5 (split; [done|]).
    rewrite Hout. destruct (cmds !! k) as [c|] eqn:Hc; [done|].
    apply lookup_ge_None in Hc.
    assert (k = length cmds) as Hlen by lia. by apply Hfin in Hlen.
Qed.

Lemma LoadMacroCmd_fresh_names ctx st bytes m :
  let dirPath := Grumble.Args_String ctx "dir-path" in
  ioutil_ReadFile (dirPath +:+ "/" +:+ "manifest.json") = inl bytes →
  json_Unmarshal bytes = (m, None) →
  NoDup ((Grumble.Name <$> app st) ++ (Name <$> macroCommands m)) →
  let ext := mkMacro (macroName m) (macroCommands m) dirPath in
  app (LoadMacroCmd ioutil_ReadFile json_Unmarshal help_FormatHelpTmpl
       MacroHelpGroup ctx st) = app st ++ (built ext <$> macroCommands m)
  ∧ last (output (LoadMacroCmd ioutil_ReadFile json_Unmarshal help_FormatHelpTmpl
       MacroHelpGroup ctx st))
    = Some (PrintInfof (macroName m +:+ " macro has been loaded" +:+ nl))
  ∧ (∀ c, c ∈ macroCommands m →
       cmdExists (Name c) (app (LoadMacroCmd ioutil_ReadFile json_Unmarshal help_FormatHelpTmpl
       MacroHelpGroup ctx st)) = true
       ∧ commandMap (LoadMacroCmd ioutil_ReadFile json_Unmarshal help_FormatHelpTmpl
       MacroHelpGroup ctx st) !! Name c = Some ext
       ∧ (getCommandFromName ext (Name c)).1 = Some c).
Proof.
  intros dirPath Hread Hparse Hnd ext.
  destruct (LoadMacroCmd_parsed_spec ctx st bytes m Hread Hparse)
    as (k & Hk & Happ & Hfresh & Hclash & Hmap & Hout).
  fold dirPath ext in Happ, Hmap.
  apply NoDup_app in Hnd as (Hnd1 & Hdisj & Hnd2).
  assert (k = length (macroCommands m)) as Hlen.
  { destruct (macroCommands m !! k) as [c|] eqn:Hc;
      [|apply lookup_ge_None in Hc; lia].
    exfalso. destruct (Hclash c eq_refl) as [Hin|Hin].
    - apply (Hdisj _ Hin). apply list_elem_of_fmap_2.
      by eapply list_elem_of_lookup_2.
    - rewrite <- (take_drop k (macroCommands m)), fmap_app in Hnd2.
      apply NoDup_app in Hnd2 as (_ & Hd & _). apply (Hd _ Hin).
      apply list_elem_of_fmap_2. rewrite (drop_S _ _ _ Hc). by left. }
  rewrite Hlen, take_ge in * by lia.
  split; [done|]. split.
  - rewrite Hout, (lookup_ge_None_2 _ _) by lia.
    by rewrite !app_assoc, last_snoc.
  - intros c Hc. split; [|split].
    + apply cmdExists_elem_of. rewrite Happ, fmap_app, built_names.
      apply elem_of_app. right. by apply list_elem_of_fmap_2.
    + rewrite Hmap, decide_True; [done | by apply list_elem_of_fmap_2].
    + unfold getCommandFromName. cbn.
      apply list_elem_of_split in Hc as (pre & post & Hsplit).
      rewrite Hsplit in *. clear Hsplit.
      rewrite fmap_app, fmap_cons in Hnd2.
      apply NoDup_app in Hnd2 as (_ & Hd & _).
      assert (getCommandFromName_loop (pre ++ c :: post) (Name c) = Some c)
        as ->; [|done].
      clear -Hd. induction pre as [|x pre IH]; cbn.
      * by rewrite decide_True.
      * rewrite decide_False.
        -- apply IH. intros name Hin. apply Hd. by right.
        -- intros Heq. apply (Hd (Name x)); [by left|].
           rewrite Heq. by left.
Qed.

(** X9: when the names of the manifest are distinct and new to the shell,
    every command of the manifest is added; the shell then has a command
    of each name, [commandMap] maps each name to the macro, and
    [getCommandFromName] finds in that macro a command of that name: the
    lookups at the start of [runMacroCommand] succeed for it. *)
Theorem LoadMacroCmd_all_runnable ctx st bytes m :
  let dirPath := Grumble.Args_String ctx "dir-path" in
  ioutil_ReadFile (dirPath +:+ "/" +:+ "manifest.json") = inl bytes →
  json_Unmarshal bytes = (m, None) →
  NoDup ((Grumble.Name <$> app st) ++ (Name <$> macroCommands m)) →
  let ext := mkMacro (macroName m) (macroCommands m) dirPath in
  app (LoadMacroCmd ioutil_ReadFile json_Unmarshal help_FormatHelpTmpl
       MacroHelpGroup ctx st) = app st ++ (built ext <$> macroCommands m)
  ∧ last (output (LoadMacroCmd ioutil_ReadFile json_Unmarshal help_FormatHelpTmpl
       MacroHelpGroup ctx st))
    = Some (PrintInfof (macroName m +:+ " macro has been loaded" +:+ nl))
  ∧ (∀ c, c ∈ macroCommands m →
       cmdExists (Name c) (app (LoadMacroCmd ioutil_ReadFile json_Unmarshal help_FormatHelpTmpl
       MacroHelpGroup ctx st)) = true
       ∧ commandMap (LoadMacroCmd ioutil_ReadFile json_Unmarshal help_FormatHelpTmpl
       MacroHelpGroup ctx st) !! Name c = Some ext
       ∧ (getCommandFromName ext (Name c)).1 = Some c).
Proof.
  intros dirPath Hread Hparse Hnd ext.
  destruct (LoadMacroCmd_parsed_spec ctx st bytes m Hread Hparse)
    as (k & Hk & Happ & Hfresh & Hclash & Hmap & Hout).
  fold dirPath ext in Happ, Hmap.
  apply NoDup_app in Hnd as (Hnd1 & Hdisj & Hnd2).
  assert (k = length (macroCommands m)) as Hlen.
  { destruct (macroCommands m !! k) as [c|] eqn:Hc;
      [|apply lookup_ge_None in Hc; lia].
    exfalso. destruct (Hclash c eq_refl) as [Hin|Hin].
    - apply (Hdisj _ Hin). apply list_elem_of_fmap_2.
      by eapply list_elem_of_lookup_2.
    - rewrite <- (take_drop k (macroCommands m)), fmap_app in Hnd2.
      apply NoDup_app in Hnd2 as (_ & Hd & _). apply (Hd _ Hin).
      apply list_elem_of_fmap_2. rewrite (drop_S _ _ _ Hc). by left. }
  rewrite Hlen, take_ge in * by lia.
  split; [done|]. split.
  - rewrite Hout, (lookup_ge_None_2 _ _) by lia.
    by rewrite !app_assoc, last_snoc.
  - intros c Hc. split; [|split].
    + apply cmdExists_elem_of. rewrite Happ, fmap_app, built_names.
      apply elem_of_app. right. by apply list_elem_of_fmap_2.
    + rewrite Hmap, decide_True; [done | by apply list_elem_of_fmap_2].
    + unfold getCommandFromName. cbn.
      apply list_elem_of_split in Hc as (pre & post & Hsplit).
      rewrite Hsplit in *. clear Hsplit.
      rewrite fmap_app, fmap_cons in Hnd2.
      apply NoDup_app in Hnd2 as (_ & Hd & _).
      assert (getCommandFromName_loop (pre ++ c :: post) (Name c) = Some c)
        as ->; [|done].
      clear -Hd. induction pre as [|x pre IH]; cbn.
      * by rewrite decide_True.
      * rewrite decide_False.
        -- apply IH. intros name Hin. apply Hd. by right.
        -- intros Heq. apply (Hd (Name x)); [by left|].
           rewrite Heq. by left.
Qed.

(** X10: a second [LoadMacroCmd] of a manifest that was loaded whole and
    has a command adds nothing: the shell and [commandMap] stay as the
    first load left them, and the console gets the complaint that the
    first command of the manifest exists. *)
Theorem LoadMacroCmd_twice ctx st bytes m c rest :
  let dirPath := Grumble.Args_String ctx "dir-path" in
  ioutil_ReadFile (dirPath +:+ "/" +:+ "manifest.json") = inl bytes →
  json_Unmarshal bytes = (m, None) →
  macroCommands m = c :: rest →
  NoDup ((Grumble.Name <$> app st) ++ (Name <$> macroCommands m)) →
  app (LoadMacroCmd ioutil_ReadFile json_Unmarshal help_FormatHelpTmpl
       MacroHelpGroup ctx (LoadMacroCmd ioutil_ReadFile json_Unmarshal help_FormatHelpTmpl
       MacroHelpGroup ctx st)) = app (LoadMacroCmd ioutil_ReadFile json_Unmarshal help_FormatHelpTmpl
       MacroHelpGroup ctx st)
  ∧ commandMap (LoadMacroCmd ioutil_ReadFile json_Unmarshal help_FormatHelpTmpl
       MacroHelpGroup ctx (LoadMacroCmd ioutil_ReadFile json_Unmarshal help_FormatHelpTmpl
       MacroHelpGroup ctx st)) = commandMap (LoadMacroCmd ioutil_ReadFile json_Unmarshal help_FormatHelpTmpl
       MacroHelpGroup ctx st)
  ∧ output (LoadMacroCmd ioutil_ReadFile json_Unmarshal help_FormatHelpTmpl
       MacroHelpGroup ctx (LoadMacroCmd ioutil_ReadFile json_Unmarshal help_FormatHelpTmpl
       MacroHelpGroup ctx st))
    = output (LoadMacroCmd ioutil_ReadFile json_Unmarshal help_FormatHelpTmpl
       MacroHelpGroup ctx st)
      ++ [PrintErrorf (Name c +:+ " command already exists" +:+ nl)].
Proof.
  intros dirPath Hread Hparse Hcmds Hnd.
  destruct (LoadMacroCmd_fresh_names ctx st bytes m Hread Hparse Hnd)
    as (_ & _ & Hrun).
  destruct (Hrun c) as (Hex & _); [rewrite Hcmds; by left|].
  set (st1 := LoadMacroCmd ioutil_ReadFile json_Unmarshal help_FormatHelpTmpl
       MacroHelpGroup ctx st) in *.
  rewrite (LoadMacroCmd_parsed ctx st1 bytes m Hread Hparse).
  rewrite Hcmds. cbn [LoadMacroCmd_loop]. rewrite Hex. by cbn.
Qed.

(** X11: a manifest that cannot be read does not end [LoadMacroCmd]: the
    error is printed and the load goes on as for a manifest that is read
    and is empty; and when the text, read or not, does not parse, nothing
    is added to the shell or to [commandMap], and the last line printed
    is the parse error. *)
Theorem LoadMacroCmd_read_or_parse_failure ctx st :
  let dirPath := Grumble.Args_String ctx "dir-path" in
  (∀ err,
     ioutil_ReadFile (dirPath +:+ "/" +:+ "manifest.json") = inr err →
     LoadMacroCmd ioutil_ReadFile json_Unmarshal help_FormatHelpTmpl
       MacroHelpGroup ctx st
     = LoadMacroCmd (λ _, inl EmptyString) json_Unmarshal
         help_FormatHelpTmpl MacroHelpGroup ctx
         (print (PrintErrorf (err +:+ nl)) st))
  ∧ (∀ e,
       (json_Unmarshal
          match ioutil_ReadFile (dirPath +:+ "/" +:+ "manifest.json") with
          | inl bytes => bytes
          | inr _ => EmptyString
          end).2 = Some e →
       app (LoadMacroCmd ioutil_ReadFile json_Unmarshal help_FormatHelpTmpl
       MacroHelpGroup ctx st) = app st
       ∧ commandMap (LoadMacroCmd ioutil_ReadFile json_Unmarshal help_FormatHelpTmpl
       MacroHelpGroup ctx st) = commandMap st
       ∧ last (output (LoadMacroCmd ioutil_ReadFile json_Unmarshal help_FormatHelpTmpl
       MacroHelpGroup ctx st))
         = Some (PrintErrorf ("Error loading macro: " +:+ e))).
Proof.
  intros dirPath. split.
  - intros err Hread. unfold LoadMacroCmd. fold dirPath. by rewrite Hread.
  - intros e. unfold LoadMacroCmd. fold dirPath.
    destruct (ioutil_ReadFile _) as [bytes|err].
    all: destruct (json_Unmarshal _) as [m [e'|]]; cbn; [|done].
    all: intros [= ->]; by rewrite last_snoc.
Qed.

End Loading.

(** *** Loading the macro [tools] into a shell that has [help] *)

Lemma LoadMacroCmd_keeps_names_distinct_witness :
  NoDup (Grumble.Name <$> app shell_with_help)
  ∧ NoDup (Grumble.Name
             <$> app (LoadMacroCmd read_tools parse_tools (λ s, s) "Macros"
                        load_tools_ctx shell_with_help)).
Proof.
  assert (NoDup (Grumble.Name <$> app shell_with_help)) as Hnd.
  { apply (bool_decide_unpack _). vm_compute. exact I. }
  split; [exact Hnd|].
  exact (LoadMacroCmd_keeps_names_distinct read_tools parse_tools (λ s, s)
           "Macros" load_tools_ctx shell_with_help Hnd).
Defined.

Lemma LoadMacroCmd_until_first_clash_witness :
  read_mixed (Grumble.Args_String load_mixed_ctx "dir-path" +:+ "/"
              +:+ "manifest.json") = inl "mixed"
  ∧ parse_mixed "mixed"
    = (mkMacro "mixed" [whoami; help_again; seatbelt] EmptyString, None)
  ∧ app (LoadMacroCmd read_mixed parse_mixed (λ s, s) "Macros"
           load_mixed_ctx shell_with_help)
    = app shell_with_help ++ [built_command (λ s, s) "Macros" mixed whoami]
  ∧ commandMap (LoadMacroCmd read_mixed parse_mixed (λ s, s) "Macros"
                  load_mixed_ctx shell_with_help) !! "whoami" = Some mixed
  ∧ commandMap (LoadMacroCmd read_mixed parse_mixed (λ s, s) "Macros"
                  load_mixed_ctx shell_with_help) !! "seatbelt" = None
  ∧ output (LoadMacroCmd read_mixed parse_mixed (λ s, s) "Macros"
              load_mixed_ctx shell_with_help)
    = [ adding whoami;
        PrintErrorf ("help" +:+ " command already exists" +:+ nl) ].
Proof.
  assert (read_mixed (Grumble.Args_String load_mixed_ctx "dir-path" +:+ "/"
                      +:+ "manifest.json") = inl "mixed") as Hread
    by (vm_compute; reflexivity).
  assert (parse_mixed "mixed"
          = (mkMacro "mixed" [whoami; help_again; seatbelt] EmptyString,
             None)) as Hparse
    by reflexivity.
  split; [exact Hread|]. split; [exact Hparse|].
  destruct (LoadMacroCmd_until_first_clash read_mixed parse_mixed (λ s, s)
              "Macros" load_mixed_ctx shell_with_help _ _ Hread Hparse)
    as (k & Hk & Happ & Hfresh & Hclash & Hmap & Hout).
  assert (k = 1%nat) as ->.
  { destruct k as [|[|k]]; [|reflexivity|].
    - exfalso. destruct (Hclash whoami eq_refl) as [Hin|Hin].
      + apply list_elem_of_singleton in Hin. discriminate Hin.
      + by apply elem_of_nil in Hin.
    - exfalso. destruct (Hfresh 1%nat help_again) as [Hnew _];
        [lia|reflexivity|].
      apply Hnew. left. }
  split; [exact Happ|].
  split; [exact (Hmap "whoami")|].
  split; [exact (Hmap "seatbelt")|].
  exact Hout.
Defined.

Lemma LoadMacroCmd_all_runnable_witness :
  NoDup ((Grumble.Name <$> app shell_with_help)
         ++ (Name <$> [seatbelt; whoami]))
  ∧ last (output (LoadMacroCmd read_tools parse_tools (λ s, s) "Macros"
                    load_tools_ctx shell_with_help))
    = Some (PrintInfof ("tools" +:+ " macro has been loaded" +:+ nl))
  ∧ commandMap (LoadMacroCmd read_tools parse_tools (λ s, s) "Macros"
                  load_tools_ctx shell_with_help) !! "whoami"
    = Some tools.
Proof.
  assert (read_tools (Grumble.Args_String load_tools_ctx "dir-path" +:+ "/"
                      +:+ "manifest.json") = inl "tools") as Hread
    by (vm_compute; reflexivity).
  assert (parse_tools "tools"
          = (mkMacro "tools" [seatbelt; whoami] EmptyString, None)) as Hparse
    by reflexivity.
  assert (NoDup ((Grumble.Name <$> app shell_with_help)
                 ++ (Name <$> [seatbelt; whoami]))) as Hnd.
  { apply (bool_decide_unpack _). vm_compute. exact I. }
  split; [exact Hnd|].
  destruct (LoadMacroCmd_all_runnable read_tools parse_tools (λ s, s)
              "Macros" load_tools_ctx shell_with_help _ _ Hread Hparse Hnd)
    as (_ & Hlast & Hrun).
  split; [exact Hlast|].
  destruct (Hrun whoami) as (_ & Hmap & _); [right; left|].
  exact Hmap.
Defined.

Lemma LoadMacroCmd_twice_witness :
  NoDup ((Grumble.Name <$> app shell_with_help)
         ++ (Name <$> [seatbelt; whoami]))
  ∧ app (LoadMacroCmd read_tools parse_tools (λ s, s) "Macros" load_tools_ctx
           (LoadMacroCmd read_tools parse_tools (λ s, s) "Macros"
              load_tools_ctx shell_with_help))
    = app (LoadMacroCmd read_tools parse_tools (λ s, s) "Macros"
             load_tools_ctx shell_with_help).
Proof.
  assert (read_tools (Grumble.Args_String load_tools_ctx "dir-path" +:+ "/"
                      +:+ "manifest.json") = inl "tools") as Hread
    by (vm_compute; reflexivity).
  assert (parse_tools "tools"
          = (mkMacro "tools" [seatbelt; whoami] EmptyString, None)) as Hparse
    by reflexivity.
  assert (NoDup ((Grumble.Name <$> app shell_with_help)
                 ++ (Name <$> [seatbelt; whoami]))) as Hnd.
  { apply (bool_decide_unpack _). vm_compute. exact I. }
  split; [exact Hnd|].
  destruct (LoadMacroCmd_twice read_tools parse_tools (λ s, s) "Macros"
              load_tools_ctx shell_with_help _ _ seatbelt [whoami]
              Hread Hparse eq_refl Hnd) as (Happ & _).
  exact Happ.
Defined.

Lemma LoadMacroCmd_read_or_parse_failure_witness :
  read_tools (Grumble.Args_String load_nowhere_ctx "dir-path" +:+ "/"
              +:+ "manifest.json")
  = inr "open /nowhere/manifest.json: no such file or directory"
  ∧ (parse_tools EmptyString).2 = Some "unexpected end of JSON input"
  ∧ app (LoadMacroCmd read_tools parse_tools (λ s, s) "Macros"
           load_nowhere_ctx shell_with_help) = app shell_with_help
  ∧ LoadMacroCmd read_tools parse_tools (λ s, s) "Macros" load_nowhere_ctx
      shell_with_help
    = LoadMacroCmd (λ _, inl EmptyString) parse_tools (λ s, s) "Macros"
        load_nowhere_ctx
        (print (PrintErrorf
                  ("open /nowhere/manifest.json: no such file or directory"
                   +:+ nl)) shell_with_help).
Proof.
  assert (read_tools (Grumble.Args_String load_nowhere_ctx "dir-path" +:+ "/"
                      +:+ "manifest.json")
          = inr "open /nowhere/manifest.json: no such file or directory")
    as Hread by (vm_compute; reflexivity).
  assert ((parse_tools EmptyString).2 = Some "unexpected end of JSON input")
    as Hparse by reflexivity.
  split; [exact Hread|]. split; [exact Hparse|].
  destruct (LoadMacroCmd_read_or_parse_failure read_tools parse_tools
              (λ s, s) "Macros" load_nowhere_ctx shell_with_help)
    as [H1 H2].
  split.
  - destruct (H2 "unexpected end of JSON input") as (Happ & _).
    + rewrite Hread. exact Hparse.
    + exact Happ.
  - exact (H1 _ Hread).
Defined.

(** ** [runMacroCommand] *)

Section Running.
Context {R : Runner}.

Lemma requests_report response outFilePath :
  requests (report response outFilePath) = [].
Proof. destruct response, outFilePath; done. Qed.

Lemma DefaultArgs_length (c : macroCommand) (args : list string) :
  (if decide (length (String.list_ascii_of_string (DefaultArgs c)) ≠ 0%nat
              ∧ length args = 0%nat)
   then DefaultArgs c else Strings.Join args " ")
  = macro_args c args.
Proof.
  unfold macro_args. destruct (DefaultArgs c), args; cbn; done.
Qed.

(** All there is to know of a request that was sent. *)
Lemma runMacroCommand_request session ctx commandMap k p a :
  let name := Grumble.CommandName ctx in
  let flag := Grumble.Flags_String ctx "process" in
  (k, p, a) ∈ requests (runMacroCommand session ctx commandMap) →
  requests (runMacroCommand session ctx commandMap) = [(k, p, a)]
  ∧ ∃ sess ext c binPath,
      session = Some sess
      ∧ commandMap !! name = Some ext
      ∧ getCommandFromName ext name = (Some c, None)
      ∧ getFileForTarget filepath_Join ext name (GetOS sess) (GetArch sess)
        = (binPath, None)
      ∧ is_Some (match ioutil_ReadFile binPath with
                 | inl data => Some data
                 | inr _ => None
                 end)
      ∧ k = request_kind c
      ∧ p = (if decide (flag = EmptyString)
             then (getDefaultProcess c (GetOS sess)).1 else flag)
      ∧ (flag = EmptyString → (getDefaultProcess c (GetOS sess)).2 = None)
      ∧ a = (match request_kind c with
             | KSpawnDll =>
                 Strings.Trim_space
                   (macro_args c (Grumble.Args_StringList ctx "arguments"))
             | _ => macro_args c (Grumble.Args_StringList ctx "arguments")
             end).
Proof.
  intros name flag. unfold runMacroCommand. fold name flag.
  destruct session as [sess|]; [|by intros ?%elem_of_nil].
  destruct (commandMap !! name) as [ext|] eqn:Hext;
    [|by intros ?%elem_of_nil].
  destruct (getFileForTarget _ ext name _ _) as [binPath [err|]] eqn:Hfile;
    [by intros ?%elem_of_nil|].
  destruct (getCommandFromName ext name) as [[c|] [err|]] eqn:Hc;
    try by intros ?%elem_of_nil.
  rewrite DefaultArgs_length.
  set (extArgs := macro_args c _).
  assert (∃ proc perr,
            (if decide (flag = EmptyString)
             then getDefaultProcess c (GetOS sess) else (flag, None))
            = (proc, perr)
            ∧ proc = (if decide (flag = EmptyString)
                      then (getDefaultProcess c (GetOS sess)).1 else flag)
            ∧ (flag = EmptyString →
               (getDefaultProcess c (GetOS sess)).2 = perr))
    as (proc & perr & -> & Hproc & Hperr).
  { destruct (decide (flag = EmptyString)).
    - destruct (getDefaultProcess c (GetOS sess)) as [proc perr].
      by exists proc, perr.
    - exists flag, None. by repeat split. }
  destruct perr as [err|]; [by intros ?%elem_of_nil|].
  destruct (ioutil_ReadFile binPath) as [binData|err] eqn:Hread;
    [|by intros ?%elem_of_nil].
  match goal with
  | |- context [match ?x with inl _ => _ | inr _ => _ end] =>
      destruct x as [outFilePath|err]
  end; [|by intros ?%elem_of_nil].
  unfold request_kind.
  destruct (IsAssembly c) eqn:Ha, (IsReflective c) eqn:Hr;
    cbn [app requests omap].
  all: unfold requests; rewrite omap_app; fold requests;
       rewrite requests_report; cbn.
  all: intros Hin%list_elem_of_singleton; injection Hin as -> -> ->.
  all: split; [done|]; exists sess, ext, c, binPath.
  all: rewrite Hread, Ha, ?Hr; repeat split; try done; by eauto.
Qed.

(** X23: [runMacroCommand] sends at most one request, and one only when
    there is an interactive session, the command is a macro that was
    loaded, the macro has a file for the system of the session and a
    command of that name, and the file can be read.  An assembly goes
    with an ExecuteAssembly request even if it is also marked
    reflective, a reflective one with SpawnDll, any other with Sideload.
    The process is the process flag or, when the flag is empty, the
    default for the system of the session; the arguments are those given,
    joined by spaces, or the default arguments of the command when none
    is given, and SpawnDll gets them with the spaces at both ends
    cut. *)
Theorem runMacroCommand_one_request session ctx commandMap k p a :
  let name := Grumble.CommandName ctx in
  let flag := Grumble.Flags_String ctx "process" in
  (k, p, a) ∈ requests (runMacroCommand session ctx commandMap) →
  requests (runMacroCommand session ctx commandMap) = [(k, p, a)]
  ∧ ∃ sess ext c binPath,
      session = Some sess
      ∧ commandMap !! name = Some ext
      ∧ getCommandFromName ext name = (Some c, None)
      ∧ getFileForTarget filepath_Join ext name (GetOS sess) (GetArch sess)
        = (binPath, None)
      ∧ is_Some (match ioutil_ReadFile binPath with
                 | inl data => Some data
                 | inr _ => None
                 end)
      ∧ k = request_kind c
      ∧ p = (if decide (flag = EmptyString)
             then (getDefaultProcess c (GetOS sess)).1 else flag)
      ∧ (flag = EmptyString → (getDefaultProcess c (GetOS sess)).2 = None)
      ∧ a = (match request_kind c with
             | KSpawnDll =>
                 Strings.Trim_space
                   (macro_args c (Grumble.Args_StringList ctx "arguments"))
             | _ => macro_args c (Grumble.Args_StringList ctx "arguments")
             end).
Proof.
  intros name flag. unfold runMacroCommand. fold name flag.
  destruct session as [sess|]; [|by intros ?%elem_of_nil].
  destruct (commandMap !! name) as [ext|] eqn:Hext;
    [|by intros ?%elem_of_nil].
  destruct (getFileForTarget _ ext name _ _) as [binPath [err|]] eqn:Hfile;
    [by intros ?%elem_of_nil|].
  destruct (getCommandFromName ext name) as [[c|] [err|]] eqn:Hc;
    try by intros ?%elem_of_nil.
  rewrite DefaultArgs_length.
  set (extArgs := macro_args c _).
  assert (∃ proc perr,
            (if decide (flag = EmptyString)
             then getDefaultProcess c (GetOS sess) else (flag, None))
            = (proc, perr)
            ∧ proc = (if decide (flag = EmptyString)
                      then (getDefaultProcess c (GetOS sess)).1 else flag)
            ∧ (flag = EmptyString →
               (getDefaultProcess c (GetOS sess)).2 = perr))
    as (proc & perr & -> & Hproc & Hperr).
  { destruct (decide (flag = EmptyString)).
    - destruct (getDefaultProcess c (GetOS sess)) as [proc perr].
      by exists proc, perr.
    - exists flag, None. by repeat split. }
  destruct perr as [err|]; [by intros ?%elem_of_nil|].
  destruct (ioutil_ReadFile binPath) as [binData|err] eqn:Hread;
    [|by intros ?%elem_of_nil].
  match goal with
  | |- context [match ?x with inl _ => _ | inr _ => _ end] =>
      destruct x as [outFilePath|err]
  end; [|by intros ?%elem_of_nil].
  unfold request_kind.
  destruct (IsAssembly c) eqn:Ha, (IsReflective c) eqn:Hr;
    cbn [app requests omap].
  all: unfold requests; rewrite omap_app; fold requests;
       rewrite requests_report; cbn.
  all: intros Hin%list_elem_of_singleton; injection Hin as -> -> ->.
  all: split; [done|]; exists sess, ext, c, binPath.
  all: rewrite Hread, Ha, ?Hr; repeat split; try done; by eauto.
Qed.

(** X24: on a session whose system is linux, a macro run without the
    process flag is sent with the Windows notepad path as the process to
    host it: the default of linux in [defaultHostProc] is the Windows
    one. *)
Theorem runMacroCommand_linux_default_process sess ctx commandMap k p a :
  GetOS sess = "linux" →
  Grumble.Flags_String ctx "process" = EmptyString →
  (k, p, a) ∈ requests (runMacroCommand (Some sess) ctx commandMap) →
  p = "c:\windows\system32\notepad.exe".
Proof.
  intros Hos Hflag Hin.
  destruct (runMacroCommand_request _ _ _ _ _ _ Hin)
    as (_ & sess' & ext & c & binPath & [= <-] & _ & _ & _ & _ & _ & Hp & _).
  rewrite Hflag, Hos in Hp. by rewrite decide_True in Hp.
Qed.

(** X25: on a session whose system is not windows, linux or darwin, a
    macro run without the process flag sends no request at all. *)
Theorem runMacroCommand_unknown_system_sends_nothing sess ctx commandMap :
  GetOS sess ≠ "windows" → GetOS sess ≠ "linux" → GetOS sess ≠ "darwin" →
  Grumble.Flags_String ctx "process" = EmptyString →
  requests (runMacroCommand (Some sess) ctx commandMap) = [].
Proof.
  intros Hw Hl Hd Hflag.
  destruct (requests (runMacroCommand (Some sess) ctx commandMap))
    as [|[[k p] a] rest] eqn:Hreq; [done|]. exfalso.
  assert ((k, p, a) ∈ requests (runMacroCommand (Some sess) ctx commandMap))
    as Hin by (rewrite Hreq; by left).
  destruct (runMacroCommand_request _ _ _ _ _ _ Hin)
    as (_ & sess' & ext & c & binPath & [= <-] & _ & _ & _ & _ & _ & _
        & Herr & _).
  specialize (Herr Hflag). revert Herr.
  unfold getDefaultProcess, defaultHostProc.
  rewrite !lookup_insert, lookup_empty.
  by repeat (rewrite decide_False by done).
Qed.

(** X26: without an interactive session [runMacroCommand] does nothing;
    with one, whenever it sends no request its last action is an error
    that it prints: it does not fail in silence. *)
Theorem runMacroCommand_reports_failure session ctx commandMap :
  (session = None → runMacroCommand session ctx commandMap = [])
  ∧ (is_Some session →
     requests (runMacroCommand session ctx commandMap) = [] →
     ∃ msg, last (runMacroCommand session ctx commandMap)
            = Some (RPrint (PrintErrorf msg))).
Proof.
  split; [by intros ->|].
  intros [sess ->]. unfold runMacroCommand.
  destruct (commandMap !! Grumble.CommandName ctx) as [ext|] eqn:Hext;
    [|intros; by eexists].
  destruct (getFileForTarget _ ext _ _ _) as [binPath [err|]];
    [intros; by eexists|].
  unfold getCommandFromName.
  destruct (getCommandFromName_loop _ _) as [c|]; [|intros; by eexists].
  rewrite DefaultArgs_length.
  destruct (if decide _ then getDefaultProcess c (GetOS sess) else _)
    as [proc [err|]]; [intros; by eexists|].
  destruct (ioutil_ReadFile binPath) as [binData|err];
    [|intros; by eexists].
  match goal with
  | |- context [match ?x with inl _ => _ | inr _ => _ end] =>
      destruct x as [outFilePath|err]
  end; [|intros; by eexists].
  destruct (IsAssembly c), (IsReflective c).
  all: unfold requests; rewrite omap_app; cbn; by intros [=].
Qed.

End Running.

Lemma runMacroCommand_one_request_witness :
  (KSpawnDll, "c:\windows\system32\notepad.exe", "-a  -v")
  ∈ requests (runMacroCommand (R := sample_runner) (Some linux_session)
                whoami_ctx tools_map)
  ∧ requests (runMacroCommand (R := sample_runner) (Some linux_session)
                whoami_ctx tools_map)
    = [(KSpawnDll, "c:\windows\system32\notepad.exe", "-a  -v")].
Proof.
  assert ((KSpawnDll, "c:\windows\system32\notepad.exe", "-a  -v")
          ∈ requests (runMacroCommand (R := sample_runner)
                        (Some linux_session) whoami_ctx tools_map)) as Hin.
  { vm_compute. left. }
  split; [exact Hin|].
  destruct (runMacroCommand_one_request (R := sample_runner) _ _ _ _ _ _ Hin)
    as [Hone _].
  exact Hone.
Defined.

Lemma runMacroCommand_linux_default_process_witness :
  GetOS linux_session = "linux"
  ∧ Grumble.Flags_String whoami_ctx "process" = EmptyString
  ∧ ∃ request,
      request ∈ requests (runMacroCommand (R := sample_runner)
                            (Some linux_session) whoami_ctx tools_map)
      ∧ request.1.2 = "c:\windows\system32\notepad.exe".
Proof.
  split; [reflexivity|]. split; [reflexivity|].
  destruct (requests (runMacroCommand (R := sample_runner)
                        (Some linux_session) whoami_ctx tools_map))
    as [|[[k p] a] rest] eqn:Hreq; [by vm_compute in Hreq|].
  exists (k, p, a). split; [left|].
  apply (runMacroCommand_linux_default_process (R := sample_runner)
           linux_session whoami_ctx tools_map k p a eq_refl eq_refl).
  rewrite Hreq. left.
Defined.

Lemma runMacroCommand_unknown_system_sends_nothing_witness :
  GetOS freebsd_session ≠ "windows"
  ∧ GetOS freebsd_session ≠ "linux"
  ∧ GetOS freebsd_session ≠ "darwin"
  ∧ Grumble.Flags_String uname_ctx "process" = EmptyString
  ∧ requests (runMacroCommand (R := sample_runner) (Some freebsd_session)
                uname_ctx bsd_map) = []
  ∧ runMacroCommand (R := sample_runner) (Some freebsd_session)
      uname_ctx bsd_map
    = [ RPrint (PrintErrorf
                  ("no default process for freebsd target, please specify one"
                   +:+ nl)) ]
  ∧ requests (runMacroCommand (R := sample_runner) (Some freebsd_session)
                uname_sh_ctx bsd_map)
    = [ (KSideload, "/bin/sh", EmptyString) ].
Proof.
  assert (GetOS freebsd_session ≠ "windows") as Hw by discriminate.
  assert (GetOS freebsd_session ≠ "linux") as Hl by discriminate.
  assert (GetOS freebsd_session ≠ "darwin") as Hd by discriminate.
  split; [exact Hw|]. split; [exact Hl|]. split; [exact Hd|].
  split; [reflexivity|].
  split.
  - exact (runMacroCommand_unknown_system_sends_nothing (R := sample_runner)
             freebsd_session uname_ctx bsd_map Hw Hl Hd eq_refl).
  - split; vm_compute; reflexivity.
Defined.

Lemma runMacroCommand_reports_failure_witness :
  is_Some (Some freebsd_session)
  ∧ ∃ msg, last (runMacroCommand (R := sample_runner) (Some freebsd_session)
                   whoami_ctx tools_map)
           = Some (RPrint (PrintErrorf msg)).
Proof.
  assert (is_Some (Some freebsd_session)) as Hs by (by eexists).
  split; [exact Hs|].
  destruct (runMacroCommand_reports_failure (R := sample_runner)
              (Some freebsd_session) whoami_ctx tools_map) as [_ Hfail].
  apply Hfail.
  - exact Hs.
  - reflexivity.
Defined.

End MacrosExtra.

(** * Properties of package c2profiles *)
Module C2ProfilesExtra.
Import C2Profiles.

Lemma append_segments_fmap isFile segmentType values pathSegments :
  append_segments isFile segmentType values pathSegments
  = pathSegments
    ++ (Clientpb.HTTPC2PathSegment.mk isFile segmentType <$> values).
Proof.
  unfold append_segments. revert pathSegments.
  induction values as [|v values IH]; intros acc; cbn.
  - by rewrite app_nil_r.
  - by rewrite IH, <- app_assoc.
Qed.

(** The segments that [C2ConfigToProtobuf] builds: the files, then the
    paths, each in the order poll, session, close, stager. *)
Lemma C2ConfigToProtobuf_segments profileName config :
  let ic := Configs.HTTPC2Config.ImplantConfig config in
  Clientpb.HTTPC2ImplantConfig.PathSegments
    (Clientpb.HTTPC2Config.ImplantConfig
       (C2ConfigToProtobuf profileName config))
  = (Clientpb.HTTPC2PathSegment.mk true 0
       <$> Configs.HTTPC2ImplantConfig.PollFiles ic)
    ++ (Clientpb.HTTPC2PathSegment.mk true 1
          <$> Configs.HTTPC2ImplantConfig.SessionFiles ic)
    ++ (Clientpb.HTTPC2PathSegment.mk true 2
          <$> Configs.HTTPC2ImplantConfig.CloseFiles ic)
    ++ (Clientpb.HTTPC2PathSegment.mk true 3
          <$> Configs.HTTPC2ImplantConfig.StagerFiles ic)
    ++ (Clientpb.HTTPC2PathSegment.mk false 0
          <$> Configs.HTTPC2ImplantConfig.PollPaths ic)
    ++ (Clientpb.HTTPC2PathSegment.mk false 1
          <$> Configs.HTTPC2ImplantConfig.SessionPaths ic)
    ++ (Clientpb.HTTPC2PathSegment.mk false 2
          <$> Configs.HTTPC2ImplantConfig.ClosePaths ic)
    ++ (Clientpb.HTTPC2PathSegment.mk false 3
          <$> Configs.HTTPC2ImplantConfig.StagerPaths ic).
Proof.
  intros ic. unfold C2ConfigToProtobuf. cbn. fold ic.
  rewrite !append_segments_fmap. cbn. by rewrite <- !app_assoc.
Qed.

Lemma segment_values_app isFile segmentType l1 l2 :
  segment_values isFile segmentType (l1 ++ l2)
  = segment_values isFile segmentType l1
    ++ segment_values isFile segmentType l2.
Proof. unfold segment_values. by rewrite filter_app, fmap_app. Qed.

Lemma segment_values_fmap isFile segmentType b t (values : list string) :
  segment_values isFile segmentType
    (Clientpb.HTTPC2PathSegment.mk b t <$> values)
  = if decide (b = isFile ∧ t = segmentType) then values else [].
Proof.
  unfold segment_values.
  induction values as [|v values IH]; [by destruct (decide _)|].
  rewrite fmap_cons, filter_cons. cbn [Clientpb.HTTPC2PathSegment.IsFile
    Clientpb.HTTPC2PathSegment.SegmentType].
  destruct (decide (b = isFile ∧ t = segmentType)) as [Hyes|Hno].
  - rewrite fmap_cons, IH. done.
  - exact IH.
Qed.

Lemma segment_values_of_protobuf profileName config :
  let ic := Configs.HTTPC2Config.ImplantConfig config in
  let segments :=
    Clientpb.HTTPC2ImplantConfig.PathSegments
      (Clientpb.HTTPC2Config.ImplantConfig
         (C2ConfigToProtobuf profileName config)) in
  segment_values true 0 segments = Configs.HTTPC2ImplantConfig.PollFiles ic
  ∧ segment_values true 1 segments
    = Configs.HTTPC2ImplantConfig.SessionFiles ic
  ∧ segment_values true 2 segments = Configs.HTTPC2ImplantConfig.CloseFiles ic
  ∧ segment_values true 3 segments
    = Configs.HTTPC2ImplantConfig.StagerFiles ic
  ∧ segment_values false 0 segments = Configs.HTTPC2ImplantConfig.PollPaths ic
  ∧ segment_values false 1 segments
    = Configs.HTTPC2ImplantConfig.SessionPaths ic
  ∧ segment_values false 2 segments
    = Configs.HTTPC2ImplantConfig.ClosePaths ic
  ∧ segment_values false 3 segments
    = Configs.HTTPC2ImplantConfig.StagerPaths ic
  ∧ length segments
    = (length (Configs.HTTPC2ImplantConfig.PollFiles ic)
       + length (Configs.HTTPC2ImplantConfig.SessionFiles ic)
       + length (Configs.HTTPC2ImplantConfig.CloseFiles ic)
       + length (Configs.HTTPC2ImplantConfig.StagerFiles ic)
       + length (Configs.HTTPC2ImplantConfig.PollPaths ic)
       + length (Configs.HTTPC2ImplantConfig.SessionPaths ic)
       + length (Configs.HTTPC2ImplantConfig.ClosePaths ic)
       + length (Configs.HTTPC2ImplantConfig.StagerPaths ic))%nat.
Proof.
  intros ic segments. unfold segments.
  rewrite C2ConfigToProtobuf_segments. fold ic.
  rewrite !segment_values_app, !segment_values_fmap.
  rewrite !length_app, !length_fmap.
  repeat split; try (cbn; by rewrite ?app_nil_r).
  lia.
Qed.

(** X12: no file or path is lost, doubled or filed under another kind by
    [C2ConfigToProtobuf]: the segments of each of the eight kinds, read
    back in order, are the list of the configuration for that kind, and
    there are as many segments as files and paths in all. *)
Theorem C2ConfigToProtobuf_segments_round_trip profileName config :
  let ic := Configs.HTTPC2Config.ImplantConfig config in
  let segments :=
    Clientpb.HTTPC2ImplantConfig.PathSegments
      (Clientpb.HTTPC2Config.ImplantConfig
         (C2ConfigToProtobuf profileName config)) in
  segment_values true 0 segments = Configs.HTTPC2ImplantConfig.PollFiles ic
  ∧ segment_values true 1 segments
    = Configs.HTTPC2ImplantConfig.SessionFiles ic
  ∧ segment_values true 2 segments = Configs.HTTPC2ImplantConfig.CloseFiles ic
  ∧ segment_values true 3 segments
    = Configs.HTTPC2ImplantConfig.StagerFiles ic
  ∧ segment_values false 0 segments = Configs.HTTPC2ImplantConfig.PollPaths ic
  ∧ segment_values false 1 segments
    = Configs.HTTPC2ImplantConfig.SessionPaths ic
  ∧ segment_values false 2 segments
    = Configs.HTTPC2ImplantConfig.ClosePaths ic
  ∧ segment_values false 3 segments
    = Configs.HTTPC2ImplantConfig.StagerPaths ic
  ∧ length segments
    = (length (Configs.HTTPC2ImplantConfig.PollFiles ic)
       + length (Configs.HTTPC2ImplantConfig.SessionFiles ic)
       + length (Configs.HTTPC2ImplantConfig.CloseFiles ic)
       + length (Configs.HTTPC2ImplantConfig.StagerFiles ic)
       + length (Configs.HTTPC2ImplantConfig.PollPaths ic)
       + length (Configs.HTTPC2ImplantConfig.SessionPaths ic)
       + length (Configs.HTTPC2ImplantConfig.ClosePaths ic)
       + length (Configs.HTTPC2ImplantConfig.StagerPaths ic))%nat.
Proof.
  intros ic segments. unfold segments.
  rewrite C2ConfigToProtobuf_segments. fold ic.
  rewrite !segment_values_app, !segment_values_fmap.
  rewrite !length_app, !length_fmap.
  repeat split; try (cbn; by rewrite ?app_nil_r).
  lia.
Qed.

(** ** The headers and the cookies of the server *)

Lemma fold_methods_fmap serverHeader methods acc :
  fold_left
    (λ serverHeaders method,
       serverHeaders
       ++ [ {| Clientpb.HTTPC2Header.Method := method;
               Clientpb.HTTPC2Header.Name :=
                 Configs.NameValueProbability.Name serverHeader;
               Clientpb.HTTPC2Header.Value :=
                 Configs.NameValueProbability.Value serverHeader;
               Clientpb.HTTPC2Header.Probability :=
                 int32 (Configs.NameValueProbability.Probability
                          serverHeader) |} ])
    methods acc
  = acc ++ (header_for serverHeader <$> methods).
Proof.
  revert acc. induction methods as [|m methods IH]; intros acc; cbn.
  - by rewrite app_nil_r.
  - by rewrite IH, <- app_assoc.
Qed.

(** X13: [C2ConfigToProtobuf] gives one header of the server for every
    method of every header of the configuration, in the order of the
    configuration, with the name, the value and the probability of that
    header; a header without a method gives none, so that there are as
    many as methods in all; and it gives one cookie for every cookie
    name, in order. *)
Theorem C2ConfigToProtobuf_server_headers profileName config :
  let sc := Configs.HTTPC2Config.ServerConfig config in
  let serverConfig :=
    Clientpb.HTTPC2Config.ServerConfig
      (C2ConfigToProtobuf profileName config) in
  Clientpb.HTTPC2ServerConfig.Headers serverConfig
  = (serverHeader ← Configs.HTTPC2ServerConfig.Headers sc;
     header_for serverHeader
       <$> Configs.NameValueProbability.Methods serverHeader)
  ∧ length (Clientpb.HTTPC2ServerConfig.Headers serverConfig)
    = sum_list ((λ serverHeader,
                   length (Configs.NameValueProbability.Methods serverHeader))
                <$> Configs.HTTPC2ServerConfig.Headers sc)
  ∧ Clientpb.HTTPC2Cookie.Name
      <$> Clientpb.HTTPC2ServerConfig.Cookies serverConfig
    = Configs.HTTPC2ServerConfig.Cookies sc.
Proof.
  intros sc serverConfig. unfold serverConfig, C2ConfigToProtobuf. cbn.
  fold sc.
  assert (∀ headers acc,
            fold_left
              (λ serverHeaders serverHeader,
                 fold_left
                   (λ serverHeaders method,
                      serverHeaders
                      ++ [ {| Clientpb.HTTPC2Header.Method := method;
                              Clientpb.HTTPC2Header.Name :=
                                Configs.NameValueProbability.Name serverHeader;
                              Clientpb.HTTPC2Header.Value :=
                                Configs.NameValueProbability.Value serverHeader;
                              Clientpb.HTTPC2Header.Probability :=
                                int32 (Configs.NameValueProbability.Probability
                                         serverHeader) |} ])
                   (Configs.NameValueProbability.Methods serverHeader)
                   serverHeaders)
              headers acc
            = acc ++ (serverHeader ← headers;
                      header_for serverHeader
                        <$> Configs.NameValueProbability.Methods serverHeader))
    as Hheaders.
  { induction headers as [|h headers IH]; intros acc; cbn.
    - by rewrite app_nil_r.
    - by rewrite IH, fold_methods_fmap, <- app_assoc. }
  rewrite Hheaders. cbn. split; [done|]. split.
  - induction (Configs.HTTPC2ServerConfig.Headers sc) as [|h headers IH];
      cbn; [done|].
    by rewrite length_app, length_fmap, IH.
  - assert (∀ (cookies : list string) acc,
              Clientpb.HTTPC2Cookie.Name
                <$> fold_left
                      (λ serverCookies cookie,
                         serverCookies ++ [Clientpb.HTTPC2Cookie.mk cookie])
                      cookies acc
              = (Clientpb.HTTPC2Cookie.Name <$> acc) ++ cookies) as Hcookies.
    { induction cookies as [|c cookies IH]; intros acc; cbn.
      - by rewrite app_nil_r.
      - by rewrite IH, fmap_app, <- app_assoc. }
    by rewrite Hcookies.
Qed.

(** ** The numbers *)

Lemma int32_in_range v : - 2 ^ 31 ≤ v < 2 ^ 31 → int32 v = v.
Proof. intros Hv. unfold int32. rewrite Z.mod_small; lia. Qed.

Lemma int32_range v : - 2 ^ 31 ≤ int32 v < 2 ^ 31.
Proof.
  unfold int32. pose proof (Z.mod_pos_bound (v + 2 ^ 31) (2 ^ 32)). lia.
Qed.

(** X14: the profile built by [C2ConfigToProtobuf] has as its least number
    of paths the least number of files of the configuration, whatever
    the configuration; its four other numbers are those of the
    configuration whenever these fit thirty-two bits, and fit thirty-two
    bits in any case. *)
Theorem C2ConfigToProtobuf_numbers profileName config :
  let ic := Configs.HTTPC2Config.ImplantConfig config in
  let implantConfig :=
    Clientpb.HTTPC2Config.ImplantConfig
      (C2ConfigToProtobuf profileName config) in
  Clientpb.HTTPC2ImplantConfig.MinPaths implantConfig
  = Clientpb.HTTPC2ImplantConfig.MinFiles implantConfig
  ∧ Clientpb.HTTPC2ImplantConfig.MinPaths implantConfig
    = int32 (Configs.HTTPC2ImplantConfig.MinFiles ic)
  ∧ - 2 ^ 31 ≤ Clientpb.HTTPC2ImplantConfig.ChromeBaseVersion implantConfig
    < 2 ^ 31
  ∧ - 2 ^ 31 ≤ Clientpb.HTTPC2ImplantConfig.MaxFiles implantConfig < 2 ^ 31
  ∧ - 2 ^ 31 ≤ Clientpb.HTTPC2ImplantConfig.MinFiles implantConfig < 2 ^ 31
  ∧ - 2 ^ 31 ≤ Clientpb.HTTPC2ImplantConfig.MaxPaths implantConfig < 2 ^ 31
  ∧ (- 2 ^ 31 ≤ Configs.HTTPC2ImplantConfig.ChromeBaseVersion ic < 2 ^ 31 →
     Clientpb.HTTPC2ImplantConfig.ChromeBaseVersion implantConfig
     = Configs.HTTPC2ImplantConfig.ChromeBaseVersion ic)
  ∧ (- 2 ^ 31 ≤ Configs.HTTPC2ImplantConfig.MaxFiles ic < 2 ^ 31 →
     Clientpb.HTTPC2ImplantConfig.MaxFiles implantConfig
     = Configs.HTTPC2ImplantConfig.MaxFiles ic)
  ∧ (- 2 ^ 31 ≤ Configs.HTTPC2ImplantConfig.MinFiles ic < 2 ^ 31 →
     Clientpb.HTTPC2ImplantConfig.MinFiles implantConfig
     = Configs.HTTPC2ImplantConfig.MinFiles ic)
  ∧ (- 2 ^ 31 ≤ Configs.HTTPC2ImplantConfig.MaxPaths ic < 2 ^ 31 →
     Clientpb.HTTPC2ImplantConfig.MaxPaths implantConfig
     = Configs.HTTPC2ImplantConfig.MaxPaths ic).
Proof.
  intros ic implantConfig. unfold implantConfig, C2ConfigToProtobuf.
  cbn [Clientpb.HTTPC2Config.ImplantConfig
       Clientpb.HTTPC2ImplantConfig.MinPaths
       Clientpb.HTTPC2ImplantConfig.MinFiles
       Clientpb.HTTPC2ImplantConfig.MaxFiles
       Clientpb.HTTPC2ImplantConfig.MaxPaths
       Clientpb.HTTPC2ImplantConfig.ChromeBaseVersion].
  fold ic.
  split; [done|]. split; [done|].
  do 4 (split; [apply int32_range|]).
  repeat split; apply int32_in_range.
Qed.

Lemma C2ConfigToProtobuf_numbers_witness :
  - 2 ^ 31 ≤ Configs.HTTPC2ImplantConfig.ChromeBaseVersion sample_implant
  < 2 ^ 31
  ∧ Clientpb.HTTPC2ImplantConfig.ChromeBaseVersion
      (Clientpb.HTTPC2Config.ImplantConfig
         (C2ConfigToProtobuf "default" sample_config)) = 106
  ∧ Clientpb.HTTPC2ImplantConfig.MinPaths
      (Clientpb.HTTPC2Config.ImplantConfig
         (C2ConfigToProtobuf "default" sample_config))
    = Clientpb.HTTPC2ImplantConfig.MinFiles
        (Clientpb.HTTPC2Config.ImplantConfig
           (C2ConfigToProtobuf "default" sample_config)).
Proof.
  assert (- 2 ^ 31 ≤ Configs.HTTPC2ImplantConfig.ChromeBaseVersion
                       sample_implant < 2 ^ 31) as Hrange by (cbn; lia).
  split; [exact Hrange|].
  destruct (C2ConfigToProtobuf_numbers "default" sample_config)
    as (Hmin & _ & _ & _ & _ & _ & Hchrome & _).
  split; [exact (Hchrome Hrange) | exact Hmin].
Defined.

(** ** The table of a profile *)

Lemma fold_fmap_snoc {A B} (f : A → B) (l : list A) (acc : list B) :
  fold_left (λ acc x, acc ++ [f x]) l acc = acc ++ (f <$> l).
Proof.
  revert acc. induction l as [|x l IH]; intros acc; cbn.
  - by rewrite app_nil_r.
  - by rewrite IH, <- app_assoc.
Qed.

Lemma field_values_cons isFile segmentType f fields :
  field_values isFile segmentType (f :: fields)
  = (if decide (f.1 = (isFile, segmentType)) then [f.2] else [])
    ++ field_values isFile segmentType fields.
Proof.
  unfold field_values. rewrite filter_cons. by destruct (decide _).
Qed.

(** The loop over the segments files each value of the types 0, 1 and 2
    under its kind, in order. *)
Lemma fold_sort_segment segments l :
  let fields := model_fields <$> segments in
  fold_left sort_segment segments l
  = mkSegmentLists
      (pollPaths l ++ field_values false 0 fields)
      (pollFiles l ++ field_values true 0 fields)
      (sessionPaths l ++ field_values false 1 fields)
      (sessionFiles l ++ field_values true 1 fields)
      (closePaths l ++ field_values false 2 fields)
      (closeFiles l ++ field_values true 2 fields).
Proof.
  revert l. induction segments as [|[b t v] segments IH]; intros l; cbn zeta.
  - destruct l. cbn. by rewrite !app_nil_r.
  - cbn [fold_left]. rewrite IH. clear IH.
    rewrite fmap_cons, !field_values_cons.
    unfold sort_segment, model_fields. cbn.
    destruct b; repeat case_decide; simplify_eq; cbn;
      by rewrite <- ?app_assoc.
Qed.

Lemma field_values_pb isFile segmentType segments :
  field_values isFile segmentType (pb_fields <$> segments)
  = segment_values isFile segmentType segments.
Proof.
  unfold segment_values.
  induction segments as [|[b t v] segments IH]; [done|].
  rewrite fmap_cons, field_values_cons, filter_cons, IH. cbn.
  destruct (decide ((b, t) = (isFile, segmentType))) as [[= -> ->]|Hne].
  - by rewrite decide_True.
  - rewrite decide_False; [done|]. intros [-> ->]. done.
Qed.

(** X15: a configuration turned into a profile by [C2ConfigToProtobuf]
    and shown by the table of [PrintC2Profiles], the model keeping the
    path segments of the profile, shows under the poll, session and close
    paths and files the lists of the configuration, joined by commas. *)
Theorem profile_table_shows_configuration profileName config profileModel :
  let ic := Configs.HTTPC2Config.ImplantConfig config in
  model_fields
    <$> Models.HTTPC2ImplantConfig.PathSegments
          (Models.HTTPC2Config.ImplantConfig profileModel)
  = pb_fields
      <$> Clientpb.HTTPC2ImplantConfig.PathSegments
            (Clientpb.HTTPC2Config.ImplantConfig
               (C2ConfigToProtobuf profileName config)) →
  let tw := profile_table profileModel in
  let joined values := Some (CString (Strings.Join values ",")) in
  row_value "Poll paths" tw
  = joined (Configs.HTTPC2ImplantConfig.PollPaths ic)
  ∧ row_value "Poll files" tw
    = joined (Configs.HTTPC2ImplantConfig.PollFiles ic)
  ∧ row_value "Session paths" tw
    = joined (Configs.HTTPC2ImplantConfig.SessionPaths ic)
  ∧ row_value "Session files" tw
    = joined (Configs.HTTPC2ImplantConfig.SessionFiles ic)
  ∧ row_value "Close paths" tw
    = joined (Configs.HTTPC2ImplantConfig.ClosePaths ic)
  ∧ row_value "Close files" tw
    = joined (Configs.HTTPC2ImplantConfig.CloseFiles ic).
Proof.
  intros ic Hsegments tw joined.
  destruct (segment_values_of_protobuf profileName config)
    as (H1 & H2 & H3 & _ & H5 & H6 & H7 & _).
  fold ic in H1, H2, H3, H5, H6, H7.
  unfold joined. rewrite <- H1, <- H2, <- H3, <- H5, <- H6, <- H7.
  rewrite <- !field_values_pb, <- Hsegments.
  unfold tw, profile_table, row_value. cbn zeta.
  rewrite fold_sort_segment.
  repeat split; reflexivity.
Qed.

Lemma fold_sort_segment_filter segments l :
  fold_left sort_segment
    (filter (λ seg, 0 ≤ Models.HTTPC2PathSegment.SegmentType seg ≤ 2) segments)
    l
  = fold_left sort_segment segments l.
Proof.
  revert l. induction segments as [|[b t v] segments IH]; intros l; [done|].
  rewrite filter_cons. cbn [Models.HTTPC2PathSegment.SegmentType].
  destruct (decide (0 ≤ t ≤ 2)) as [Hin|Hout]; cbn [fold_left].
  - apply IH.
  - rewrite IH. f_equal. unfold sort_segment. cbn.
    destruct b; repeat case_decide; try done; lia.
Qed.

(** X16: the table of [PrintC2Profiles] shows no segment of a type other
    than 0, 1 and 2: it is the table of the profile without these
    segments.  The stager files and paths, which [C2ConfigToProtobuf]
    gives the type 3, are among them. *)
Theorem profile_table_hides_other_segments profileModel :
  profile_table
    (with_segments
       (filter (λ seg, 0 ≤ Models.HTTPC2PathSegment.SegmentType seg ≤ 2)
               (Models.HTTPC2ImplantConfig.PathSegments
                  (Models.HTTPC2Config.ImplantConfig profileModel)))
       profileModel)
  = profile_table profileModel.
Proof.
  unfold profile_table, with_segments. cbn zeta.
  cbn [Models.HTTPC2Config.ImplantConfig Models.HTTPC2Config.ServerConfig
       Models.HTTPC2Config.Name
       Models.HTTPC2ImplantConfig.PathSegments
       Models.HTTPC2ImplantConfig.UserAgent
       Models.HTTPC2ImplantConfig.ChromeBaseVersion
       Models.HTTPC2ImplantConfig.MacOSVersion
       Models.HTTPC2ImplantConfig.NonceQueryArgChars
       Models.HTTPC2ImplantConfig.ExtraURLParameters
       Models.HTTPC2ImplantConfig.Headers
       Models.HTTPC2ImplantConfig.MaxFiles
       Models.HTTPC2ImplantConfig.MinFiles
       Models.HTTPC2ImplantConfig.MaxPaths
       Models.HTTPC2ImplantConfig.MinPaths
       Models.HTTPC2ImplantConfig.StagerFileExtension
       Models.HTTPC2ImplantConfig.StartSessionFileExtension
       Models.HTTPC2ImplantConfig.SessionFileExtension
       Models.HTTPC2ImplantConfig.CloseFileExtension].
  by rewrite fold_sort_segment_filter.
Qed.

Lemma profile_table_shows_configuration_witness :
  model_fields
    <$> Models.HTTPC2ImplantConfig.PathSegments
          (Models.HTTPC2Config.ImplantConfig
             (copy_to_model (C2ConfigToProtobuf "default" sample_config)))
  = pb_fields
      <$> Clientpb.HTTPC2ImplantConfig.PathSegments
            (Clientpb.HTTPC2Config.ImplantConfig
               (C2ConfigToProtobuf "default" sample_config))
  ∧ row_value "Poll paths"
      (profile_table
         (copy_to_model (C2ConfigToProtobuf "default" sample_config)))
    = Some (CString "js,assets").
Proof.
  assert (model_fields
            <$> Models.HTTPC2ImplantConfig.PathSegments
                  (Models.HTTPC2Config.ImplantConfig
                     (copy_to_model
                        (C2ConfigToProtobuf "default" sample_config)))
          = pb_fields
              <$> Clientpb.HTTPC2ImplantConfig.PathSegments
                    (Clientpb.HTTPC2Config.ImplantConfig
                       (C2ConfigToProtobuf "default" sample_config))) as H
    by reflexivity.
  split; [exact H|].
  destruct (profile_table_shows_configuration "default" sample_config
              (copy_to_model (C2ConfigToProtobuf "default" sample_config)) H)
    as (Hpoll & _).
  exact Hpoll.
Defined.

End C2ProfilesExtra.

(** * More of package console: [newPlayerCmd] and the command of the
      listener *)
Module PlayersExtra.
Import Console.

(** ** The name of the operator *)

Lemma ReplaceAllString_nonalnum_filter src :
  String.list_ascii_of_string (ReplaceAllString_nonalnum src)
  = filter (λ a, alphanumeric a = true) (String.list_ascii_of_string src).
Proof.
  induction src as [|a src IH]; [done|].
  cbn [ReplaceAllString_nonalnum String.list_ascii_of_string].
  rewrite filter_cons. destruct (alphanumeric a) eqn:Ha.
  - rewrite decide_True by done.
    cbn [String.list_ascii_of_string]. by rewrite IH.
  - rewrite decide_False by (by intros [=]). exact IH.
Qed.

Lemma ReplaceAllString_nonalnum_id src :
  Forall (λ a, alphanumeric a = true) (String.list_ascii_of_string src) →
  ReplaceAllString_nonalnum src = src.
Proof.
  induction src as [|a src IH]; [done|]. cbn.
  intros [Ha Hsrc]%Forall_cons. rewrite Ha. by rewrite IH.
Qed.

Lemma ReplaceAllString_nonalnum_Forall src :
  Forall (λ a, alphanumeric a = true)
         (String.list_ascii_of_string (ReplaceAllString_nonalnum src)).
Proof.
  rewrite ReplaceAllString_nonalnum_filter. apply Forall_forall.
  by intros a [Ha _]%list_elem_of_filter.
Qed.

Section WithHost.
Context {H : Host}.

(** The target of the save: the path itself, or a file named after the
    operator and the host in it when it is a directory. *)
Lemma newPlayerCmd_valid ctx :
  let operator := ReplaceAllString_nonalnum (Flags_String ctx "operator") in
  let lhost := Flags_String ctx "lhost" in
  let save := if decide (Flags_String ctx "save" = EmptyString)
              then os_Getwd else Flags_String ctx "save" in
  let saveTo := filepath_Abs save in
  let data := json_Marshal
                (player_config operator lhost (Flags_Int ctx "lport")) in
  operator ≠ EmptyString → lhost ≠ EmptyString →
  newPlayerCmd ctx
  = [ PPrintf (Info +:+ "Generating new client certificate, please wait ... "
               +:+ nl);
      PGenerateClientCertificate assets_GetRootAppDir operator true ]
    ++ match os_Stat saveTo with
       | inr err =>
           [PPrintf (Warn +:+ "Failed to generate sliver " +:+ err +:+ nl)]
       | inl isDir =>
           let target :=
             if isDir then
               filepath_Join saveTo
                 (filepath_Base operator +:+ "_" +:+ filepath_Base lhost
                  +:+ ".cfg")
             else saveTo in
           [ PWriteFile target data 420;
             match ioutil_WriteFile target data 420 with
             | Some err =>
                 PPrintf (Warn +:+ "Failed to write config to: " +:+ target
                          +:+ " (" +:+ err +:+ ") " +:+ nl)
             | None =>
                 PPrintf (Info +:+ "Saved new client config to: " +:+ target
                          +:+ " " +:+ nl)
             end ]
       end.
Proof.
  intros operator lhost save saveTo data Hop Hlhost.
  unfold newPlayerCmd. fold operator lhost.
  rewrite (decide_False (P := operator = EmptyString)) by done.
  rewrite (decide_False (P := lhost = EmptyString)) by done.
  fold save. unfold data, player_config.
  destruct (certs_GenerateClientCertificate assets_GetRootAppDir operator true)
    as [publicKey privateKey] eqn:Hkeys.
  cbn [fst snd]. fold saveTo.
  destruct (os_Stat saveTo) as [isDir|err]; [|done].
  cbn zeta. by destruct (ioutil_WriteFile _ _ _).
Qed.

Lemma newPlayerCmd_invalid ctx :
  let operator := ReplaceAllString_nonalnum (Flags_String ctx "operator") in
  let lhost := Flags_String ctx "lhost" in
  operator = EmptyString ∨ lhost = EmptyString →
  generated (newPlayerCmd ctx) = [] ∧ written (newPlayerCmd ctx) = []
  ∧ length (newPlayerCmd ctx) = 1%nat.
Proof.
  intros operator lhost Hbad. unfold newPlayerCmd. fold operator lhost.
  destruct (decide (operator = EmptyString)); [done|].
  destruct (decide (lhost = EmptyString)); [done|].
  by destruct Hbad.
Qed.

(** X17: every config that [newPlayerCmd] writes is for an operator name
    made of letters and digits only, the flag with every other byte
    taken out and not empty; a flag made of letters and digits is kept
    as it is; the host is the flag, not empty, and the port is the flag
    as given. *)
Theorem newPlayerCmd_operator_alphanumeric ctx filename data :
  (filename, data) ∈ written (newPlayerCmd ctx) →
  ∃ config,
    data = json_Marshal config
    ∧ Operator config = ReplaceAllString_nonalnum (Flags_String ctx "operator")
    ∧ Forall (λ a, alphanumeric a = true)
             (String.list_ascii_of_string (Operator config))
    ∧ String.list_ascii_of_string (Operator config)
      = filter (λ a, alphanumeric a = true)
               (String.list_ascii_of_string (Flags_String ctx "operator"))
    ∧ (Forall (λ a, alphanumeric a = true)
              (String.list_ascii_of_string (Flags_String ctx "operator")) →
       Operator config = Flags_String ctx "operator")
    ∧ Operator config ≠ EmptyString
    ∧ LHost config = Flags_String ctx "lhost"
    ∧ LHost config ≠ EmptyString
    ∧ LPort config = Flags_Int ctx "lport".
Proof.
  intros Hin.
  set (operator := ReplaceAllString_nonalnum (Flags_String ctx "operator")).
  set (lhost := Flags_String ctx "lhost").
  destruct (decide (operator = EmptyString)) as [Hop|Hop].
  { destruct (newPlayerCmd_invalid ctx (or_introl Hop)) as (_ & Hw & _).
    rewrite Hw in Hin. by apply elem_of_nil in Hin. }
  destruct (decide (lhost = EmptyString)) as [Hl|Hl].
  { destruct (newPlayerCmd_invalid ctx (or_intror Hl)) as (_ & Hw & _).
    rewrite Hw in Hin. by apply elem_of_nil in Hin. }
  rewrite (newPlayerCmd_valid ctx Hop Hl) in Hin.
  exists (player_config operator lhost (Flags_Int ctx "lport")).
  assert (data = json_Marshal
                   (player_config operator lhost (Flags_Int ctx "lport")))
    as Hdata.
  { destruct (os_Stat _) as [isDir|err]; cbn in Hin.
    - destruct (ioutil_WriteFile _ _ _); cbn in Hin.
      all: apply list_elem_of_singleton in Hin; by injection Hin.
    - by apply elem_of_nil in Hin. }
  split; [exact Hdata|]. cbn.
  split; [done|].
  split; [apply ReplaceAllString_nonalnum_Forall|].
  split; [apply ReplaceAllString_nonalnum_filter|].
  split; [apply ReplaceAllString_nonalnum_id|].
  done.
Qed.

(** X18: [newPlayerCmd] generates a client certificate exactly when the
    operator name, once cleaned, and the host are not empty, and then
    one certificate, for the cleaned name, before it looks at the place
    to save to: it is generated whether or not that place exists and
    whether or not the config can be written.  Otherwise there is one
    warning and nothing else. *)
Theorem newPlayerCmd_certificate_iff ctx :
  let operator := ReplaceAllString_nonalnum (Flags_String ctx "operator") in
  let lhost := Flags_String ctx "lhost" in
  (operator ≠ EmptyString → lhost ≠ EmptyString →
   generated (newPlayerCmd ctx) = [operator]
   ∧ ∃ rest,
       newPlayerCmd ctx
       = PPrintf (Info +:+ "Generating new client certificate, please wait ... "
                  +:+ nl)
         :: PGenerateClientCertificate assets_GetRootAppDir operator true
         :: rest
       ∧ generated rest = [])
  ∧ (operator = EmptyString ∨ lhost = EmptyString →
     generated (newPlayerCmd ctx) = [] ∧ written (newPlayerCmd ctx) = []
     ∧ length (newPlayerCmd ctx) = 1%nat).
Proof.
  intros operator lhost. split; [|apply newPlayerCmd_invalid].
  intros Hop Hl. rewrite (newPlayerCmd_valid ctx Hop Hl). fold operator.
  destruct (os_Stat _) as [isDir|err]; cbn.
  - destruct (ioutil_WriteFile _ _ _); cbn.
    all: split; [done|]; by eexists.
  - split; [done|]. by eexists.
Qed.

(** X19: [newPlayerCmd] writes at most one file, and only when the place
    to save to, the save flag or the working directory when the flag is
    empty, is there: the file is that place itself, or, when the place
    is a directory, the file in it named after the operator and the
    host; it is written with mode 0644.  When the place is not there
    nothing is written, the certificate generated before stays
    generated, and the last line is the failure. *)
Theorem newPlayerCmd_written ctx :
  let operator := ReplaceAllString_nonalnum (Flags_String ctx "operator") in
  let lhost := Flags_String ctx "lhost" in
  let save := if decide (Flags_String ctx "save" = EmptyString)
              then os_Getwd else Flags_String ctx "save" in
  let saveTo := filepath_Abs save in
  (length (written (newPlayerCmd ctx)) ≤ 1)%nat
  ∧ (∀ filename data perm,
       PWriteFile filename data perm ∈ newPlayerCmd ctx →
       perm = 420
       ∧ generated (newPlayerCmd ctx) = [operator]
       ∧ ∃ isDir,
           os_Stat saveTo = inl isDir
           ∧ filename
             = if isDir then
                 filepath_Join saveTo
                   (filepath_Base operator +:+ "_" +:+ filepath_Base lhost
                    +:+ ".cfg")
               else saveTo)
  ∧ (∀ err,
       operator ≠ EmptyString → lhost ≠ EmptyString →
       os_Stat saveTo = inr err →
       written (newPlayerCmd ctx) = []
       ∧ generated (newPlayerCmd ctx) = [operator]
       ∧ last (newPlayerCmd ctx)
         = Some (PPrintf (Warn +:+ "Failed to generate sliver " +:+ err
                          +:+ nl))).
Proof.
  intros operator lhost save saveTo.
  destruct (decide (operator = EmptyString ∨ lhost = EmptyString))
    as [Hbad|Hgood].
  { pose proof (newPlayerCmd_invalid ctx Hbad) as (Hg & Hw & Hlen).
    split; [rewrite Hw; cbn; lia|]. split.
    - intros filename data perm Hin. exfalso.
      assert ((filename, data) ∈ written (newPlayerCmd ctx)) as Hin'.
      { unfold written. apply list_elem_of_omap. by eexists. }
      rewrite Hw in Hin'. by apply elem_of_nil in Hin'.
    - intros err Hop Hl. tauto. }
  assert (operator ≠ EmptyString) as Hop by tauto.
  assert (lhost ≠ EmptyString) as Hl by tauto.
  rewrite (newPlayerCmd_valid ctx Hop Hl). fold operator lhost save saveTo.
  destruct (os_Stat saveTo) as [isDir|err] eqn:Hstat.
  - set (target := if isDir then _ else _).
    set (data := json_Marshal _).
    cbv zeta. fold target data.
    assert (∃ line, (match ioutil_WriteFile target data 420 with
                     | Some err =>
                         PPrintf (Warn +:+ "Failed to write config to: "
                                  +:+ target +:+ " (" +:+ err +:+ ") " +:+ nl)
                     | None =>
                         PPrintf (Info +:+ "Saved new client config to: "
                                  +:+ target +:+ " " +:+ nl)
                     end) = PPrintf line) as [line ->]
      by (destruct (ioutil_WriteFile _ _ _); by eexists).
    cbn. split; [lia|]. split; [|by intros].
    intros filename data' perm Hin.
    repeat (apply elem_of_cons in Hin as [Hin|Hin]; [try done|]).
    + injection Hin as -> -> ->. split; [done|]. split; [done|].
      by exists isDir.
    + by apply elem_of_nil in Hin.
  - cbn. split; [lia|]. split.
    + intros filename data perm Hin.
      repeat (apply elem_of_cons in Hin as [Hin|Hin]; [done|]).
      by apply elem_of_nil in Hin.
    + intros err' _ _ [= <-]. done.
Qed.

End WithHost.

(** *** The operator al-ice! on the sample host *)

Lemma newPlayerCmd_operator_alphanumeric_witness :
  ("/home/op/alice_10.0.0.1.cfg", "alice@10.0.0.1:9000")
  ∈ written (newPlayerCmd (H := sample_host) new_player_ctx)
  ∧ ∃ config,
      "alice@10.0.0.1:9000" = json_Marshal (Host := sample_host) config
      ∧ Operator config = "alice"
      ∧ LPort config = 9000.
Proof.
  assert (("/home/op/alice_10.0.0.1.cfg", "alice@10.0.0.1:9000")
          ∈ written (newPlayerCmd (H := sample_host) new_player_ctx)) as Hin.
  { vm_compute. left. }
  split; [exact Hin|].
  destruct (newPlayerCmd_operator_alphanumeric (H := sample_host)
              new_player_ctx _ _ Hin)
    as (config & H1 & H2 & _ & _ & _ & _ & _ & _ & H3).
  exists config. split; [exact H1|]. split; [exact H2 | exact H3].
Defined.

Lemma newPlayerCmd_certificate_iff_witness :
  ReplaceAllString_nonalnum (Flags_String new_player_nowhere_ctx "operator")
  ≠ EmptyString
  ∧ Flags_String new_player_nowhere_ctx "lhost" ≠ EmptyString
  ∧ generated (newPlayerCmd (H := sample_host) new_player_nowhere_ctx)
    = ["bob"].
Proof.
  assert (ReplaceAllString_nonalnum
            (Flags_String new_player_nowhere_ctx "operator") ≠ EmptyString)
    as Hop by (vm_compute; discriminate).
  assert (Flags_String new_player_nowhere_ctx "lhost" ≠ EmptyString) as Hl
    by (vm_compute; discriminate).
  split; [exact Hop|]. split; [exact Hl|].
  destruct (newPlayerCmd_certificate_iff (H := sample_host)
              new_player_nowhere_ctx) as [Hgen _].
  destruct (Hgen Hop Hl) as [Hg _]. exact Hg.
Defined.

Lemma newPlayerCmd_written_witness :
  ReplaceAllString_nonalnum (Flags_String new_player_nowhere_ctx "operator")
  ≠ EmptyString
  ∧ Flags_String new_player_nowhere_ctx "lhost" ≠ EmptyString
  ∧ os_Stat (Host := sample_host) "/missing"
    = inr "stat /missing: no such file or directory"
  ∧ written (newPlayerCmd (H := sample_host) new_player_nowhere_ctx) = []
  ∧ generated (newPlayerCmd (H := sample_host) new_player_nowhere_ctx)
    = ["bob"].
Proof.
  assert (ReplaceAllString_nonalnum
            (Flags_String new_player_nowhere_ctx "operator") ≠ EmptyString)
    as Hop by (vm_compute; discriminate).
  assert (Flags_String new_player_nowhere_ctx "lhost" ≠ EmptyString) as Hl
    by (vm_compute; discriminate).
  assert (os_Stat (Host := sample_host)
            (filepath_Abs (Host := sample_host)
               (if decide (Flags_String new_player_nowhere_ctx "save"
                           = EmptyString)
                then os_Getwd (Host := sample_host)
                else Flags_String new_player_nowhere_ctx "save"))
          = inr "stat /missing: no such file or directory") as Hstat
    by (vm_compute; reflexivity).
  split; [exact Hop|]. split; [exact Hl|]. split; [reflexivity|].
  destruct (newPlayerCmd_written (H := sample_host) new_player_nowhere_ctx)
    as (_ & _ & Hfail).
  destruct (Hfail _ Hop Hl Hstat) as (Hw & Hg & _).
  split; [exact Hw | exact Hg].
Defined.

End PlayersExtra.

(** * The port of the config and the port of the listener *)
Module PortsExtra.
Import Console.

Section WithTransportAndHost.
Context {T : Transport} {H : Host}.

(** X20: the port that [newPlayerCmd] writes into the config of an
    operator is the lport flag as given, whereas
    [startMultiplayerModeCmd] binds the low sixteen bits of its flag,
    always a port between 0 and 65535: given the same flag, the config
    names the port that is bound exactly when the flag is itself between
    0 and 65535. *)
Theorem config_port_is_bound_port_iff_valid ctxP ctxS w filename data :
  reachable w →
  Flags_Int ctxP "lport" = Flags_Int ctxS "lport" →
  (filename, data) ∈ written (newPlayerCmd ctxP) →
  let v := Flags_Int ctxS "lport" in
  ∃ config rest,
    data = json_Marshal config
    ∧ LPort config = v
    ∧ trace (startMultiplayerModeCmd ctxS w).2
      = trace w ++ ABind (Flags_String ctxS "server") (uint16 v) :: rest
    ∧ 0 ≤ uint16 v < 65536
    ∧ (LPort config = uint16 v ↔ 0 ≤ v < 65536).
Proof.
  intros HI%ConsoleProofs.reachable_Inv Hflag Hin v.
  assert (uint16 v = v mod 65536) as Hmod
    by (unfold uint16; by rewrite Z.land_ones).
  pose proof (Z.mod_pos_bound v 65536 ltac:(lia)) as Hbound.
  set (operator := ReplaceAllString_nonalnum (Flags_String ctxP "operator")).
  set (lhost := Flags_String ctxP "lhost").
  exists (player_config operator lhost (Flags_Int ctxP "lport")).
  assert (∃ rest,
            trace (startMultiplayerModeCmd ctxS w).2
            = trace w ++ ABind (Flags_String ctxS "server") (uint16 v) :: rest)
    as [rest Hrest].
  { unfold startMultiplayerModeCmd, mbind, M_bind. fold v.
    destruct (StartClientListener (Flags_String ctxS "server") (uint16 v)
                (net w)) as [[ln|err] t] eqn:Hb.
    - rewrite (ConsoleProofs.jobStartClientListener_ok _ _ _ _ _ Hb
                 (ConsoleProofs.Inv_fresh_ID w HI)).
      cbn. rewrite <- app_assoc. by eexists.
    - rewrite (ConsoleProofs.jobStartClientListener_fail _ _ _ _ _ Hb).
      cbn. rewrite <- app_assoc. by eexists. }
  exists rest.
  assert (data = json_Marshal
                   (player_config operator lhost (Flags_Int ctxP "lport")))
    as Hdata.
  { destruct (decide (operator = EmptyString)) as [Hop|Hop].
    { destruct (PlayersExtra.newPlayerCmd_invalid ctxP (or_introl Hop))
        as (_ & Hw & _).
      rewrite Hw in Hin. by apply elem_of_nil in Hin. }
    destruct (decide (lhost = EmptyString)) as [Hl|Hl].
    { destruct (PlayersExtra.newPlayerCmd_invalid ctxP (or_intror Hl))
        as (_ & Hw & _).
      rewrite Hw in Hin. by apply elem_of_nil in Hin. }
    rewrite (PlayersExtra.newPlayerCmd_valid ctxP Hop Hl) in Hin.
    destruct (os_Stat _) as [isDir|err]; cbn in Hin.
    - destruct (ioutil_WriteFile _ _ _); cbn in Hin.
      all: apply list_elem_of_singleton in Hin; by injection Hin.
    - by apply elem_of_nil in Hin. }
  split; [exact Hdata|]. cbn [LPort player_config].
  split; [exact Hflag|]. split; [exact Hrest|].
  split; [lia|]. rewrite Hflag, Hmod. split.
  - intros Heq. lia.
  - intros Hv. by rewrite Z.mod_small.
Qed.

(** X21: [startMultiplayerModeCmd] prints one line and that line is its
    last action: that multiplayer mode is enabled when the bind
    succeeded, a job being registered then, and the bind error when it
    failed, the registry and the goroutines being then what they
    were. *)
Theorem startMultiplayerModeCmd_reports ctx w :
  reachable w →
  let server := Flags_String ctx "server" in
  let lport := uint16 (Flags_Int ctx "lport") in
  let w' := (startMultiplayerModeCmd ctx w).2 in
  (∀ ln t,
     StartClientListener server lport (net w) = (inl ln, t) →
     last (trace w')
     = Some (APrintf (Info +:+ "Multiplayer mode enabled!" +:+ nl))
     ∧ size (Active w') = S (size (Active w))
     ∧ length (goroutines w') = S (length (goroutines w)))
  ∧ (∀ err t,
       StartClientListener server lport (net w) = (inr err, t) →
       last (trace w')
       = Some (APrintf (Warn +:+ "Failed to start job " +:+ err +:+ nl))
       ∧ Active w' = Active w
       ∧ goroutines w' = goroutines w)
  ∧ length (printed (drop (length (trace w)) (trace w'))) = 1%nat.
Proof.
  intros HI%ConsoleProofs.reachable_Inv server lport w'.
  unfold w', startMultiplayerModeCmd, mbind, M_bind. fold server lport.
  destruct (StartClientListener server lport (net w)) as [[ln|err] t] eqn:Hb.
  - rewrite (ConsoleProofs.jobStartClientListener_ok _ _ _ _ _ Hb
               (ConsoleProofs.Inv_fresh_ID w HI)).
    cbn. split; [|split; [done|]].
    + intros ln' t' _. split; [by rewrite last_snoc|].
      split; [|rewrite length_app; cbn; lia].
      apply map_size_insert_None, ConsoleProofs.Inv_fresh_ID, HI.
    + rewrite <- app_assoc, drop_app_length. done.
  - rewrite (ConsoleProofs.jobStartClientListener_fail _ _ _ _ _ Hb).
    cbn. split; [done|]. split.
    + intros err' t' [= <- <-]. by rewrite last_snoc.
    + rewrite <- app_assoc, drop_app_length. done.
Qed.

End WithTransportAndHost.

Lemma config_port_is_bound_port_iff_valid_witness :
  reachable w_started
  ∧ Flags_Int new_player_ctx "lport" = Flags_Int ctx9000 "lport"
  ∧ ("/home/op/alice_10.0.0.1.cfg", "alice@10.0.0.1:9000")
    ∈ written (newPlayerCmd (H := sample_host) new_player_ctx)
  ∧ ∃ config,
      LPort config = 9000
      ∧ (LPort config = uint16 9000 ↔ 0 ≤ 9000 < 65536).
Proof.
  assert (Flags_Int new_player_ctx "lport" = Flags_Int ctx9000 "lport") as Hf
    by reflexivity.
  assert (("/home/op/alice_10.0.0.1.cfg", "alice@10.0.0.1:9000")
          ∈ written (newPlayerCmd (H := sample_host) new_player_ctx)) as Hin.
  { vm_compute. left. }
  split; [exact ConsoleProofs.reachable_w_started|].
  split; [exact Hf|]. split; [exact Hin|].
  destruct (config_port_is_bound_port_iff_valid (T := PortTable)
              (H := sample_host) new_player_ctx ctx9000 w_started _ _
              ConsoleProofs.reachable_w_started Hf Hin)
    as (config & rest & _ & H1 & _ & _ & H2).
  exists config. split; [exact H1 | exact H2].
Defined.

Lemma startMultiplayerModeCmd_reports_witness :
  last (trace (startMultiplayerModeCmd ctx9000 w_started).2)
  = Some (APrintf (Warn +:+ "Failed to start job " +:+ port_in_use +:+ nl))
  ∧ Active (startMultiplayerModeCmd ctx9000 w_started).2 = Active w_started.
Proof.
  destruct (startMultiplayerModeCmd_reports (T := PortTable) ctx9000 w_started
              ConsoleProofs.reachable_w_started) as (_ & Hfail & _).
  destruct (Hfail port_in_use [9000]) as (H1 & H2 & _).
  - vm_compute. reflexivity.
  - split; [exact H1 | exact H2].
Defined.

End PortsExtra.

(** * Properties of package use *)
Module UseExtra.
Import Use.

Section WithSelection.
Variable Session : Type.
Variable SelectBeacon : Client Session → option Beacon * option SelectError.
Variable format_ID : string → string.

(** X22: [UseBeaconCmd] changes the active target exactly when a beacon
    comes back from the selection: the beacon becomes the target and the
    session that was active is dropped, and an error that came with the
    beacon is not shown.  Without a beacon the target stays, one line
    tells the error if there is one, and nothing at all happens if there
    is none. *)
Theorem UseBeaconCmd_target con :
  let con' := UseBeaconCmd Session SelectBeacon format_ID con in
  (∀ beacon err,
     SelectBeacon con = (Some beacon, err) →
     activeBeacon con' = Some beacon
     ∧ activeSession con' = None
     ∧ output con'
       = output con
         ++ [PrintInfof ("Active beacon " +:+ Name beacon +:+ " ("
                         +:+ format_ID (ID beacon) +:+ ")" +:+ nl)])
  ∧ (∀ err,
       SelectBeacon con = (None, err) →
       activeBeacon con' = activeBeacon con
       ∧ activeSession con' = activeSession con
       ∧ (err = None → con' = con)
       ∧ (is_Some err → ∃ msg, output con' = output con ++ [PrintErrorf msg])).
Proof.
  intros con'. unfold con', UseBeaconCmd. split.
  - intros beacon err ->. done.
  - intros err ->. destruct err as [[| |msg]|].
    all: cbn; repeat split; try done; try by eexists.
    all: by intros [? [=]].
Qed.

End WithSelection.

Lemma UseBeaconCmd_target_witness :
  pick_first client_on_session
  = (Some (mkBeacon "ROUND_OWL" "7f3a"), Some (ErrOther "tty closed"))
  ∧ activeSession (UseBeaconCmd unit pick_first (λ s, s) client_on_session)
    = None
  ∧ activeBeacon (UseBeaconCmd unit pick_first (λ s, s) client_on_session)
    = Some (mkBeacon "ROUND_OWL" "7f3a").
Proof.
  assert (pick_first client_on_session
          = (Some (mkBeacon "ROUND_OWL" "7f3a"), Some (ErrOther "tty closed")))
    as Hpick by reflexivity.
  split; [exact Hpick|].
  destruct (UseBeaconCmd_target unit pick_first (λ s, s) client_on_session)
    as [Hsome _].
  destruct (Hsome _ _ Hpick) as (H1 & H2 & _).
  split; [exact H2 | exact H1].
Defined.

End UseExtra.
